(** * Naver news crawler (app.py): extraction and pagination pipeline

    A shallow embedding of [src/app.py]: the date normaliser
    ([_normalize_relative_date], [_extract_date_from_url]), the record
    extractor ([parse_page] and its per-card helpers), the pagination driver
    ([crawl]) and the entry point that validates the date range
    ([streamlit_main]).

    Conventions.
    - A Python [str] is a list of Unicode code points ([list Z]).
    - What the interpreter decides (the Unicode tables behind [\d], [\s],
      [str.strip], [str.split] and [int]; the limit of [int] on digits; how
      [strftime] pads a year) is a field of the class [PyRuntime]. The pure
      library functions the program calls and this development leaves open
      (the HTML parser, [urlparse], the escaping of [quote_plus],
      [datetime.fromisoformat], [DataFrame.to_excel]) are the fields of the
      class [PyLibs]. The definitions and theorems hold for every instance.
    - What the outside world decides (the clock, HTTP responses, the random
      generator, the file system) is a field of the record [World]; an
      answer may depend on everything that happened before (the trace).
    - Effectful code lives in the monad [M]: state passing over the trace and
      the files, with Python exceptions as [Raise]. *)

From Stdlib Require Import ZArith List Bool Lia String Ascii QArith Qround.
From stdpp Require Import base option list gmap strings.

Import ListNotations.
Local Open Scope Z_scope.

(* ===================================================================== *)
(** ** Python strings *)
(* ===================================================================== *)

Definition str := list Z.

(** An ASCII literal as a Python string. *)
Definition lit (s : string) : str :=
  map (fun a => Z.of_N (N_of_ascii a)) (list_ascii_of_string s).

(** A surrogate (U+D800 to U+DFFF): a code point UTF-8 does not encode. *)
Definition is_surrogate (c : Z) : bool := (55296 <=? c) && (c <=? 57343).

(** [s.encode("utf-8")] returns: [s] holds no surrogate. *)
Definition encodable (s : str) : bool := negb (existsb is_surrogate s).

(** The interpreter. *)
Class PyRuntime := {
  (** [decimal c] is the digit value of [c] when [c] is a Unicode decimal
      digit (what [\d] matches on a [str] pattern and what [int] reads). *)
  decimal : Z -> option Z;
  (** [str.isspace] on one character: what [\s], [strip] and [split] use. *)
  isspace : Z -> bool;
  (** [sys.get_int_max_str_digits()]: [None] when [int] has no length limit
      (before Python 3.11, or limit disabled), 4300 by default since. *)
  max_str_digits : option nat;
  (** whether [strftime("%Y")] zero-pads years below 1000 (it does not on
      glibc, it does on other C libraries). *)
  pad_year : bool;
  decimal_range : forall c v, decimal c = Some v -> 0 <= v <= 9;
  decimal_ascii : forall c, 0 <= c < 128 ->
    decimal c = if (48 <=? c) && (c <=? 57) then Some (c - 48) else None;
  (** Hangul syllables are letters: neither digits nor white space. *)
  hangul_plain : forall c, 44032 <= c <= 55203 ->
    decimal c = None /\ isspace c = false;
  space_not_decimal : forall c, isspace c = true -> decimal c = None;
  (** a limit on [int] cannot be set below 640 digits *)
  max_str_digits_min : forall l, max_str_digits = Some l -> (640 <= l)%nat
}.

Section Strings.
Context `{PyRuntime}.

Definition isdigit (c : Z) : bool :=
  match decimal c with Some _ => true | None => false end.

(** [s.startswith(p)] *)
Fixpoint startswith (p s : str) : bool :=
  match p, s with
  | [], _ => true
  | c :: p', d :: s' => (c =? d) && startswith p' s'
  | _ :: _, [] => false
  end.

(** [p in s] *)
Fixpoint contains (p s : str) : bool :=
  startswith p s ||
  match s with
  | [] => false
  | _ :: s' => contains p s'
  end.

Fixpoint lstrip (s : str) : str :=
  match s with
  | c :: s' => if isspace c then lstrip s' else s
  | [] => []
  end.

Definition rstrip (s : str) : str := rev (lstrip (rev s)).

(** [s.strip()] *)
Definition strip (s : str) : str := rstrip (lstrip s).

(** [s.split()]: the maximal runs of characters that are not white space;
    [cur] is the run being read. *)
Fixpoint split_ws (cur : str) (s : str) : list str :=
  match s with
  | [] => match cur with [] => [] | _ => [cur] end
  | c :: s' =>
      if isspace c
      then match cur with [] => split_ws [] s' | _ => cur :: split_ws [] s' end
      else split_ws (cur ++ [c]) s'
  end.

(** [sep.join(l)] *)
Fixpoint join (sep : str) (l : list str) : str :=
  match l with
  | [] => []
  | [x] => x
  | x :: l' => x ++ sep ++ join sep l'
  end.

(** [s.replace(old, new)] for a non-empty [old]: left to right, without
    overlaps; [skip] counts the characters of an occurrence still to be
    passed over. *)
Fixpoint replace_aux (old new : str) (skip : nat) (s : str) : str :=
  match s with
  | [] => []
  | c :: s' =>
      match skip with
      | S k => replace_aux old new k s'
      | O =>
          if startswith old s
          then new ++ replace_aux old new (length old - 1)%nat s'
          else c :: replace_aux old new 0%nat s'
      end
  end.

Definition replace (old new s : str) : str := replace_aux old new 0%nat s.

(** [s.split(".")[0]]: what comes before the first dot. *)
Fixpoint before_dot (s : str) : str :=
  match s with
  | [] => []
  | c :: s' => if c =? 46 then [] else c :: before_dot s'
  end.

(** Decimal digits of a non-negative integer, most significant first. *)
Fixpoint digits_of (fuel : nat) (n : Z) (acc : str) : str :=
  match fuel with
  | O => acc
  | S f =>
      let acc' := (48 + n mod 10) :: acc in
      if n <? 10 then acc' else digits_of f (n / 10) acc'
  end.

(** [str(n)] / [f"{n}"] for an integer. *)
Definition str_of_int (n : Z) : str :=
  if n <? 0
  then 45 :: digits_of (S (Z.to_nat (Z.log2 (- n)))) (- n) []
  else digits_of (S (Z.to_nat (Z.log2 n))) n [].

(** [f"{n:0wd}"]: sign first, then zeros up to the width [w]. *)
Definition fmt_0d (w : nat) (n : Z) : str :=
  if n <? 0
  then
    let ds := digits_of (S (Z.to_nat (Z.log2 (- n)))) (- n) [] in
    45 :: repeat 48 (w - 1 - length ds)%nat ++ ds
  else
    let ds := digits_of (S (Z.to_nat (Z.log2 n))) n [] in
    repeat 48 (w - length ds)%nat ++ ds.

(** The value of a run of decimal digits; [None] on any other character. *)
Fixpoint int_digits (acc : Z) (s : str) : option Z :=
  match s with
  | [] => Some acc
  | c :: s' =>
      match decimal c with
      | Some v => int_digits (10 * acc + v) s'
      | None => None
      end
  end.

(** [" ".join(s.replace("\n", " ").replace("\r", " ").split())] *)
Definition _clean_text (s : str) : str :=
  join [32] (split_ws [] (replace [13] [32] (replace [10] [32] s))).

End Strings.

(* ===================================================================== *)
(** ** Regular expressions *)
(* ===================================================================== *)

(** The fragment of Python's [re] syntax the program uses. Matching is by
    backtracking: [rmatch r s] lists the ways [r] matches a prefix of [s] in
    the order the backtracking engine tries them, so its head is the match
    [re] reports at that position. *)

Inductive cclass :=
| CChar (c : Z)     (* a literal character *)
| CDigit            (* \d *)
| CSpace.           (* \s *)

Inductive regex :=
| RLit (s : str)                                  (* a literal string *)
| RRep (c : cclass) (lo : nat) (hi : option nat)  (* greedy c{lo,hi} *)
| RAlt (r1 r2 : regex)                            (* r1|r2 *)
| RCat (r1 r2 : regex)                            (* r1r2 *)
| RGroup (r : regex).                             (* (r) *)

(** A match: the text consumed, the groups in the order of their opening
    parentheses, and the rest of the subject. *)
Record rmatch_t := RM { m_text : str; m_groups : list str; m_rest : str }.

Section Regex.
Context `{PyRuntime}.

Definition in_class (k : cclass) (c : Z) : bool :=
  match k with
  | CChar d => c =? d
  | CDigit => isdigit c
  | CSpace => isspace c
  end.

(** Length of the longest run of [k] at the head of [s], at most [hi]. *)
Fixpoint run_length (k : cclass) (hi : option nat) (s : str) : nat :=
  match hi with
  | Some O => O
  | _ =>
      match s with
      | c :: s' =>
          if in_class k c
          then S (run_length k (option_map Nat.pred hi) s')
          else O
      | [] => O
      end
  end.

(** The lengths a greedy repetition tries: from [n] down to [lo]. *)
Fixpoint countdown (n lo : nat) : list nat :=
  if (n <? lo)%nat then []
  else match n with
       | O => [O]
       | S n' => n :: countdown n' lo
       end.

Fixpoint rmatch (r : regex) (s : str) : list rmatch_t :=
  match r with
  | RLit l =>
      if startswith l s then [RM l [] (drop (length l) s)] else []
  | RRep k lo hi =>
      map (fun j => RM (take j s) [] (drop j s))
          (countdown (run_length k hi s) lo)
  | RAlt r1 r2 => rmatch r1 s ++ rmatch r2 s
  | RCat r1 r2 =>
      flat_map
        (fun m1 =>
           map (fun m2 =>
                  RM (m_text m1 ++ m_text m2)
                     (m_groups m1 ++ m_groups m2)
                     (m_rest m2))
               (rmatch r2 (m_rest m1)))
        (rmatch r1 s)
  | RGroup r1 =>
      map (fun m => RM (m_text m) (m_text m :: m_groups m) (m_rest m))
          (rmatch r1 s)
  end.

(** [re.search]: the match at the leftmost position that has one. *)
Fixpoint search (r : regex) (s : str) : option rmatch_t :=
  match rmatch r s with
  | m :: _ => Some m
  | [] =>
      match s with
      | [] => None
      | _ :: s' => search r s'
      end
  end.

Fixpoint rseq (l : list regex) : regex :=
  match l with
  | [] => RLit []
  | [r] => r
  | r :: l' => RCat r (rseq l')
  end.

End Regex.

(** [DATE_PAT = re.compile(r'20\d{2}\.\d{1,2}\.\d{1,2}')] *)
Definition DATE_PAT : regex :=
  rseq [RLit (lit "20"); RRep CDigit 2 (Some 2%nat); RLit (lit ".");
        RRep CDigit 1 (Some 2%nat); RLit (lit ".");
        RRep CDigit 1 (Some 2%nat)].

(** The Hangul tokens of the source. *)
Definition U_bun : str := [48516].             (* 분 : minutes *)
Definition U_sigan : str := [49884; 44036].    (* 시간 : hours *)
Definition U_il : str := [51068].              (* 일 : days *)
Definition U_jeon : str := [51204].            (* 전 : ago *)
Definition U_eoje : str := [50612; 51228].     (* 어제 : yesterday *)
Definition U_oneul : str := [50724; 45720].    (* 오늘 : today *)
(** 여의시스템 : the keyword of the default search term *)
Definition U_keyword : str := [50668; 51032; 49884; 49828; 53596].

(** [REL_PAT = re.compile(r'(\d+)\s*(분|시간|일)\s*전')] *)
Definition REL_PAT : regex :=
  rseq [RGroup (RRep CDigit 1 None); RRep CSpace 0 None;
        RGroup (RAlt (RLit U_bun) (RAlt (RLit U_sigan) (RLit U_il)));
        RRep CSpace 0 None; RLit U_jeon].

(** [r'/(20\d{2})(\d{2})(\d{2})/'] *)
Definition URL_PAT1 : regex :=
  rseq [RLit (lit "/");
        RGroup (RCat (RLit (lit "20")) (RRep CDigit 2 (Some 2%nat)));
        RGroup (RRep CDigit 2 (Some 2%nat));
        RGroup (RRep CDigit 2 (Some 2%nat)); RLit (lit "/")].

(** [r'/(20\d{2})/(\d{1,2})/(\d{1,2})/'] *)
Definition URL_PAT2 : regex :=
  rseq [RLit (lit "/");
        RGroup (RCat (RLit (lit "20")) (RRep CDigit 2 (Some 2%nat)));
        RLit (lit "/"); RGroup (RRep CDigit 1 (Some 2%nat));
        RLit (lit "/"); RGroup (RRep CDigit 1 (Some 2%nat)); RLit (lit "/")].

(** [r'/(20\d{2})(\d{2})(\d{2})'] *)
Definition URL_PAT3 : regex :=
  rseq [RLit (lit "/");
        RGroup (RCat (RLit (lit "20")) (RRep CDigit 2 (Some 2%nat)));
        RGroup (RRep CDigit 2 (Some 2%nat));
        RGroup (RRep CDigit 2 (Some 2%nat))].

(* ===================================================================== *)
(** ** Calendar dates and [datetime] *)
(* ===================================================================== *)

(** The proleptic Gregorian calendar of [datetime], by days since
    1970-01-01 ([date.toordinal() - 719163]). The calendar repeats every
    400 years, 146097 days; an era starts on a first of March. *)

(** Year of the era (January and February counted with the next year),
    month and day of the [doe]-th day of an era. *)
Definition civil_of_doe (doe : Z) : Z * Z * Z :=
  let yoe := (doe - doe / 1460 + doe / 36524 - doe / 146096) / 365 in
  let doy := doe - (365 * yoe + yoe / 4 - yoe / 100) in
  let mp := (5 * doy + 2) / 153 in
  let d := doy - (153 * mp + 2) / 5 + 1 in
  let m := if mp <? 10 then mp + 3 else mp - 9 in
  (yoe + (if m <=? 2 then 1 else 0), m, d).

Definition civil_from_days (z : Z) : Z * Z * Z :=
  let z := z + 719468 in
  let '(y, m, d) := civil_of_doe (z mod 146097) in
  (y + z / 146097 * 400, m, d).

(** The day of the era of the day [d] of the month [m] of the year [yoe] of
    the era (March-based). *)
Definition doe_of_civil (yoe m d : Z) : Z :=
  let doy := (153 * (if 2 <? m then m - 3 else m + 9) + 2) / 5 + d - 1 in
  yoe * 365 + yoe / 4 - yoe / 100 + doy.

Definition days_from_civil (y m d : Z) : Z :=
  let y := if m <=? 2 then y - 1 else y in
  y / 400 * 146097 + doe_of_civil (y mod 400) m d - 719468.

Definition is_leap (y : Z) : bool :=
  (y mod 4 =? 0) && (negb (y mod 100 =? 0) || (y mod 400 =? 0)).

Definition days_in_month (y m : Z) : Z :=
  if m =? 2 then (if is_leap y then 29 else 28)
  else if (m =? 4) || (m =? 6) || (m =? 9) || (m =? 11) then 30 else 31.

Definition US_PER_SECOND : Z := 1000000.
Definition US_PER_DAY : Z := 86400 * US_PER_SECOND.
(** [KST = timezone(timedelta(hours=9))] *)
Definition KST : Z := 9 * 3600 * US_PER_SECOND.
(** [date(1970,1,1).toordinal()], [date.min.toordinal()],
    [date.max.toordinal()] *)
Definition EPOCH_ORDINAL : Z := 719163.
Definition MINORDINAL : Z := 1.
Definition MAXORDINAL : Z := 3652059.

(** A [datetime] aware of the zone KST, by the microseconds its wall clock
    shows since 1970-01-01T00:00:00 of that wall clock. *)
Definition datetime := Z.

Definition toordinal (dt : datetime) : Z := dt / US_PER_DAY + EPOCH_ORDINAL.

(* ===================================================================== *)
(** ** Exceptions, the world, and the monad of effects *)
(* ===================================================================== *)

Inductive exn :=
| OverflowError | ValueError | UnicodeEncodeError | OSError | RuntimeError
| OtherError.

Inductive result (A : Type) :=
| Ok (a : A)
| Raise (e : exn).
Arguments Ok {A} a.
Arguments Raise {A} e.

(** What [session.get] does: a response, [requests.RequestException], or
    any other exception. *)
Inductive response :=
| Response (status_code : Z) (text : str)
| RequestException
| OtherException.

(** The progress lines [crawl] passes to [log]. *)
Inductive log_msg :=
| LogMaxPages (max_pages : Z)          (* "안전 종료: max_pages(..) 초과" *)
| LogRequest (url : str)               (* "[요청] url" *)
| LogStatus (status start : Z)         (* "요청 실패(status=..) start=.." *)
| LogException                         (* "요청 예외: e" *)
| LogNoRows (start : Z)                (* "페이지 start=.. 기사 없음. ..." *)
| LogPage (start : Z) (n new_cnt : nat)(* "페이지(start=..) 수집 n건 / 신규 .." *)
| LogNoNew.                            (* "신규 항목 없음 → 조기 종료" *)

(** What [streamlit_main] shows. *)
Inductive ui_msg :=
| UiForm | UiError (m : str) | UiRangeError | UiCrawlError | UiWarningEmpty
| UiSuccess (n : nat) | UiTable | UiDownload | UiSaved | UiSaveFailed.

Inductive event :=
| ENow                             (* datetime.now(KST) *)
| EGet (url : str)                 (* session.get of a listing page, in crawl *)
| EArticle (url : str)             (* session.get of an article page *)
| EUniform (a b : Q)               (* random.uniform(a, b) *)
| ESleep (w : Q)                   (* time.sleep(w) *)
| ELog (m : log_msg)               (* log(...) *)
| EOpen (path : string)            (* open(path, "w") *)
| EUi (m : ui_msg).                (* a streamlit call *)

(** The outside world. Every answer may depend on the events so far. *)
Record World := {
  (** UTC microseconds since the epoch, read by [datetime.now]. *)
  clock : list event -> Z;
  session_get : list event -> str -> response;
  random_uniform : list event -> Q -> Q -> Q;
  (** whether [open(path, "w")] succeeds *)
  open_ok : list event -> string -> bool;
  (** the UTC offset of the machine's local zone *)
  local_utcoffset : Z
}.

Record state := { trace : list event; files : gmap string str }.

Definition M (A : Type) : Type := state -> result A * state.

Definition ret {A} (a : A) : M A := fun s => (Ok a, s).

Definition raise {A} (e : exn) : M A := fun s => (Raise e, s).

Definition bind {A B} (c : M A) (k : A -> M B) : M B :=
  fun s =>
    match c s with
    | (Ok a, s') => k a s'
    | (Raise e, s') => (Raise e, s')
    end.

Notation "x <- c ;; k" := (bind c (fun x => k))
  (at level 100, c at next level, right associativity).
Notation "c ;;; k" := (bind c (fun _ => k))
  (at level 100, right associativity).

(** [try: c except: h]: every exception is caught. *)
Definition try_except {A} (c : M A) (h : M A) : M A :=
  fun s =>
    match c s with
    | (Ok a, s') => (Ok a, s')
    | (Raise _, s') => h s'
    end.

Definition lift {A} (r : result A) : M A := fun s => (r, s).

Definition emit (e : event) : M unit :=
  fun s => (Ok tt, {| trace := trace s ++ [e]; files := files s |}).

Section Effects.
Context `{PyRuntime} (W : World).

(** [datetime.now(KST)] *)
Definition datetime_now : M datetime :=
  fun s =>
    (Ok (clock W (trace s) + KST),
     {| trace := trace s ++ [ENow]; files := files s |}).

(** [log(msg)] with the injected sink recording the message. *)
Definition log (m : log_msg) : M unit := emit (ELog m).

(** [session.get(url, ...)] for a listing page. *)
Definition http_get (url : str) : M response :=
  fun s =>
    (Ok (session_get W (trace s) url),
     {| trace := trace s ++ [EGet url]; files := files s |}).

(** [session.get(url, ...)] for an article page. *)
Definition article_get (url : str) : M response :=
  fun s =>
    (Ok (session_get W (trace s) url),
     {| trace := trace s ++ [EArticle url]; files := files s |}).

(** [random.uniform(a, b)]; a float is a rational number. *)
Definition uniform (a b : Q) : M Q :=
  fun s =>
    (Ok (random_uniform W (trace s) a b),
     {| trace := trace s ++ [EUniform a b]; files := files s |}).

(** The nanoseconds [time.sleep(w)] makes of its length: rounded away
    from zero. *)
Definition sleep_ns (w : Q) : Z :=
  let ns := (w * (1000000000 # 1))%Q in
  if Qle_bool 0 w then Qceiling ns else Qfloor ns.

(** The nanoseconds have to fit a signed counter of 64 bits. *)
Definition sleep_fits (w : Q) : bool :=
  (- 2 ^ 63 <=? sleep_ns w) && (sleep_ns w <? 2 ^ 63).

(** [time.sleep(w)]: [OverflowError] on a length that does not fit (more
    than some 9.2e9 seconds either way), then [ValueError] on a negative
    one. *)
Definition sleep (w : Q) : M unit :=
  fun s =>
    if negb (sleep_fits w) then (Raise OverflowError, s)
    else if Qle_bool 0 w
    then (Ok tt, {| trace := trace s ++ [ESleep w]; files := files s |})
    else (Raise ValueError, s).

(** [with open(path, "w", encoding="utf-8") as f: f.write(body)]: the
    file is truncated, then holds [body]; a body that UTF-8 cannot encode
    makes [write] raise [UnicodeEncodeError], and the file stays empty. *)
Definition write_file (path : string) (body : str) : M unit :=
  fun s =>
    if open_ok W (trace s) path
    then
      if encodable body
      then (Ok tt, {| trace := trace s ++ [EOpen path];
                      files := <[path := body]> (files s) |})
      else (Raise UnicodeEncodeError,
            {| trace := trace s ++ [EOpen path];
               files := <[path := []]> (files s) |})
    else (Raise OSError, {| trace := trace s ++ [EOpen path];
                            files := files s |}).

(** [int(s)] on a run of decimal digits. *)
Definition py_int (s : str) : result Z :=
  match max_str_digits with
  | Some limit =>
      if (limit <? length s)%nat then Raise ValueError
      else match s, int_digits 0 s with
           | _ :: _, Some v => Ok v
           | _, _ => Raise ValueError
           end
  | None =>
      match s, int_digits 0 s with
      | _ :: _, Some v => Ok v
      | _, _ => Raise ValueError
      end
  end.

(** [timedelta(microseconds=us)] as built by [timedelta(minutes=n)],
    [timedelta(hours=n)], [timedelta(days=n)]: at most 999999999 days. *)
Definition timedelta (us : Z) : result Z :=
  if Z.abs (us / US_PER_DAY) <=? 999999999 then Ok us
  else Raise OverflowError.

(** [dt - td]: the result has to be a date of the years 1 to 9999. *)
Definition datetime_sub (dt : datetime) (td : Z) : result datetime :=
  let r := dt - td in
  if (MINORDINAL <=? toordinal r) && (toordinal r <=? MAXORDINAL)
  then Ok r else Raise OverflowError.

Definition fmt_year (y : Z) : str :=
  if pad_year then fmt_0d 4 y else str_of_int y.

(** [dt.strftime("%Y.%m.%d")] *)
Definition strftime_Ymd (dt : datetime) : str :=
  let '(y, m, d) := civil_from_days (dt / US_PER_DAY) in
  fmt_year y ++ lit "." ++ fmt_0d 2 m ++ lit "." ++ fmt_0d 2 d.

Definition str_eqb (a b : str) : bool := bool_decide (a = b).

(** The microseconds of [n] minutes, hours or days, by the unit matched. *)
Definition unit_us (unit : str) : Z :=
  if str_eqb unit U_bun then 60 * US_PER_SECOND
  else if str_eqb unit U_sigan then 3600 * US_PER_SECOND
  else US_PER_DAY.

Definition _normalize_relative_date (text : str) : M str :=
  let t := strip text in
  now <- datetime_now ;;
  match search REL_PAT t with
  | Some m =>
      n <- lift (py_int (nth 0 (m_groups m) [])) ;;
      let unit := nth 1 (m_groups m) [] in
      td <- lift (timedelta (n * unit_us unit)) ;;
      dt <- lift (datetime_sub now td) ;;
      ret (strftime_Ymd dt)
  | None =>
      if contains U_eoje t then
        td <- lift (timedelta US_PER_DAY) ;;
        dt <- lift (datetime_sub now td) ;;
        ret (strftime_Ymd dt)
      else if contains U_oneul t then ret (strftime_Ymd now)
      else ret []
  end.

(** The body of the [try] of [_extract_date_from_url]; [None] stands for
    an exception, which the bare [except] turns into [""]. *)
Definition url_date_try (url : str) : option str :=
  match search URL_PAT1 url with
  | Some m =>
      match m_groups m with
      | [y; mo; d] => Some (y ++ lit "." ++ mo ++ lit "." ++ d)
      | _ => None
      end
  | None =>
      match search URL_PAT2 url with
      | Some m =>
          match m_groups m with
          | [y; mo; d] =>
              match py_int mo, py_int d with
              | Ok a, Ok b =>
                  Some (y ++ lit "." ++ fmt_0d 2 a ++ lit "." ++ fmt_0d 2 b)
              | _, _ => None
              end
          | _ => None
          end
      | None =>
          match search URL_PAT3 url with
          | Some m =>
              match m_groups m with
              | [y; mo; d] => Some (y ++ lit "." ++ mo ++ lit "." ++ d)
              | _ => None
              end
          | None => Some []
          end
      end
  end.

Definition _extract_date_from_url (url : str) : str :=
  match url_date_try url with
  | Some s => s
  | None => []
  end.

End Effects.

(* ===================================================================== *)
(** ** The page as BeautifulSoup shows it *)
(* ===================================================================== *)

(** The queries [app.py] sends to a tag, by the selector or the arguments of
    [find_all] they carry. *)
Inductive query :=
| QListNews        (* select("ul.list_news > li.bx") *)
| QSdsBoxes        (* select("div.news_area, div.sds-comps-base-layout,
                              div.sds-comps-vertical-layout") *)
| QHeadline        (* select(HEADLINE_SEL) *)
| QAHasHeadline    (* select(f"a:has(> {HEADLINE_SEL})") *)
| QANewsTit        (* select("a.news_tit") *)
| QFindANewsTit    (* find_all("a", attrs={"class": re.compile("news_tit")}) *)
| QFindA           (* find_all("a") *)
| QPress           (* select(PRESS_SEL) *)
| QAInfoPress      (* select("a.info.press") *)
| QInfoGroupA      (* select("div.info_group > a.info") *)
| QFindPressClass  (* find_all(class_=re.compile(
                        r"(press|source|profile-info-title)", re.I)) *)
| QInfoSpans       (* select("div.info_group > span.info") *)
| QSdsDateSpans    (* select("span.sds-comps-text.sds-comps-text-type-body2
                              .sds-comps-text-weight-sm") *)
| QFindTime.       (* find_all("time") *)

(** A tag is what it answers: its texts, its attributes, and the tags each
    query finds below it, in document order. *)
#[warnings="-register-all"]
Inductive Tag := mkTag {
  get_text_sp : str;               (* tag.get_text(" ", strip=True) *)
  get_text : str;                  (* tag.get_text(strip=True) *)
  get : string -> option str;      (* tag.get(name) *)
  select : query -> list Tag
}.

(** [select_one] and [find] give the first tag of [select] and [find_all]. *)
Definition select_one (q : query) (t : Tag) : option Tag := head (select t q).

(** One row of [parse_page]: a dict with the keys Title, Date, Source, Link. *)
Record Row := { Title : str; Date : str; Source : str; Link : str }.

(** Library functions the program calls and this development leaves open. *)
Class PyLibs := {
  (** [BeautifulSoup(html, "lxml")] *)
  BeautifulSoup : str -> Tag;
  (** [urlparse(link).netloc]; [None] when [urlparse] raises *)
  netloc : str -> option str;
  (** what [urllib.parse.quote_plus] makes of a text it can encode: the
      bytes of its UTF-8 form, escaped *)
  quoted : str -> str;
  (** [df.to_excel(buffer, index=False)] on the frame with these rows: it
      returns, or raises (no engine installed, a cell the engine refuses) *)
  to_excel : list Row -> result unit;
  (** [datetime.fromisoformat(s).astimezone(KST).strftime("%Y.%m.%d")];
      [None] when it raises *)
  fromisoformat_KST : str -> option str;
  (** what lines 139-161 of [_extract_date_from_article] find in the text of
      an article page (a [time] tag, a [published_time] meta, a bare date);
      they raise nothing out of their [try] *)
  html_date : str -> str
}.

(** Python's truth value of a string. *)
Definition truthy (s : str) : bool :=
  match s with [] => false | _ => true end.

(** [a or b] on optional tags. *)
Definition or_else {A} (a b : option A) : option A :=
  match a with Some _ => a | None => b end.

Section Extractor.
Context `{PyRuntime} `{PyLibs} (W : World).

(** Step 4 of the title chain: the first anchor whose text holds the
    keyword and is longer than 10 characters. *)
Fixpoint keyword_anchor (l : list Tag) : str :=
  match l with
  | [] => []
  | x :: l' =>
      let txt := _clean_text (get_text_sp x) in
      if contains U_keyword txt && (10 <? length txt)%nat then txt
      else keyword_anchor l'
  end.

Definition _extract_title_from_card (box : Tag) : str :=
  match select_one QHeadline box with
  | Some span => _clean_text (get_text_sp span)
  | None =>
      match
        match select_one QAHasHeadline box with
        | Some a => select_one QHeadline a
        | None => None
        end
      with
      | Some sp => _clean_text (get_text_sp sp)
      | None =>
          match or_else (select_one QANewsTit box)
                        (select_one QFindANewsTit box) with
          | Some a => _clean_text (get_text_sp a)
          | None => keyword_anchor (select box QFindA)
          end
      end
  end.

Definition _extract_source_from_card (box : Tag) (link : str) : str :=
  let s1 := match select_one QPress box with
            | Some sp => _clean_text (get_text sp)
            | None => []
            end in
  if truthy s1 then s1 else
  let s2 := match or_else (select_one QAInfoPress box)
                          (select_one QInfoGroupA box) with
            | Some a => _clean_text (get_text a)
            | None => []
            end in
  if truthy s2 then s2 else
  let s3 := match select_one QFindPressClass box with
            | Some cand =>
                let src := _clean_text (get_text cand) in
                if truthy src && (length src <=? 30)%nat then src else []
            | None => []
            end in
  if truthy s3 then s3 else
  if truthy link then
    match netloc link with
    | Some nl =>
        let domain := replace (lit "www.") [] nl in
        if truthy domain then before_dot domain else []
    | None => []
    end
  else [].

Definition _extract_date_from_article (url : str) : M str :=
  r <- article_get W url ;;
  match r with
  | Response code html => if code =? 200 then ret (html_date html) else ret []
  | RequestException | OtherException => ret []
  end.

(** The loops of date steps (a) and (b): the first span with an absolute
    date or with a relative time. *)
Fixpoint date_from_spans (sps : list Tag) : M str :=
  match sps with
  | [] => ret []
  | sp :: rest =>
      let t := _clean_text (get_text sp) in
      match search DATE_PAT t with
      | Some m => ret (m_text m)
      | None =>
          rel <- _normalize_relative_date W t ;;
          if truthy rel then ret rel else date_from_spans rest
      end
  end.

(** Date step (c): the [time] tag. *)
Definition date_from_time (box : Tag) : M str :=
  match select_one QFindTime box with
  | None => ret []
  | Some ttag =>
      let from_attr :=
        match get ttag "datetime" with
        | Some dt_attr =>
            if truthy dt_attr then
              match fromisoformat_KST
                      (replace (lit "Z") (lit "+00:00") dt_attr) with
              | Some s => s
              | None => []
              end
            else []
        | None => []
        end in
      if truthy from_attr then ret from_attr
      else
        let t := _clean_text (get_text ttag) in
        match search DATE_PAT t with
        | Some m => ret (m_text m)
        | None => _normalize_relative_date W t
        end
  end.

(** The link of a card: the anchor around the headline, else the
    [news_tit] anchor, else the first anchor. *)
Definition link_anchor (box : Tag) : option Tag :=
  or_else (select_one QAHasHeadline box)
    (or_else (or_else (select_one QANewsTit box)
                      (select_one QFindANewsTit box))
             (select_one QFindA box)).

(** The body of the loop of [parse_page] for one card; [None] is
    [continue]. *)
Definition parse_box (box : Tag) : M (option Row) :=
  let title := _extract_title_from_card box in
  if negb (truthy title) then ret None else
  match link_anchor box with
  | None => ret None
  | Some a =>
      let link := strip (match get a "href" with Some h => h | None => [] end) in
      if negb (truthy link) then ret None else
      let source := _extract_source_from_card box link in
      d_a <- date_from_spans (select box QInfoSpans) ;;
      d_b <- (if negb (truthy d_a)
              then date_from_spans (select box QSdsDateSpans)
              else ret d_a) ;;
      d_c <- (if negb (truthy d_b) then date_from_time box else ret d_b) ;;
      d_d <- (if negb (truthy d_c) && truthy link
              then ret (_extract_date_from_url link) else ret d_c) ;;
      d_e <- (if negb (truthy d_d) && truthy link
              then _extract_date_from_article link else ret d_d) ;;
      ret (Some {| Title := title; Date := d_e;
                   Source := source; Link := link |})
  end.

(** [for box in boxes: ...], with [rows] the list being appended to. *)
Fixpoint parse_boxes (rows : list Row) (boxes : list Tag) : M (list Row) :=
  match boxes with
  | [] => ret rows
  | box :: rest =>
      r <- parse_box box ;;
      parse_boxes (match r with Some row => rows ++ [row] | None => rows end)
                  rest
  end.

(** The cards of a page: the stable structure, else the sds one. *)
Definition boxes_of (soup : Tag) : list Tag :=
  match select soup QListNews with
  | [] => select soup QSdsBoxes
  | bs => bs
  end.

Definition parse_page (html : str) : M (list Row) :=
  parse_boxes [] (boxes_of (BeautifulSoup html)).

End Extractor.

(* ===================================================================== *)
(** ** The pagination driver *)
(* ===================================================================== *)

(** The arguments of [crawl] ([log] is the recording sink of [M]). *)
Record Args := {
  search_term : str;
  start_date : str;
  end_date : str;
  sort_value : Z;
  max_pages : Z;
  sleep_range : Q * Q
}.

(** The local variables of [crawl] that live across iterations. *)
Record CrawlState := {
  titles : list str;
  dates : list str;
  sources : list str;
  links : list str;
  seen_links : gset str;
  start : Z;
  page_count : Z
}.

Inductive ctl := Continue | Break.

Section Driver.
Context `{PyRuntime} `{PyLibs} (W : World).

Definition build_url (encoded_query : str) (sort_value : Z)
    (start_date end_date nso_period : str) (start : Z) : str :=
  lit "https://search.naver.com/search.naver?"
  ++ lit "where=news&sm=tab_pge&sort=" ++ str_of_int sort_value
  ++ lit "&photo=0&field=0"
  ++ lit "&query=" ++ encoded_query
  ++ lit "&pd=3"
  ++ lit "&ds=" ++ start_date ++ lit "&de=" ++ end_date
  ++ lit "&nso=so%3Ar%2Cp%3A" ++ nso_period
  ++ lit "&start=" ++ str_of_int start.

(** [f"from{start_date.replace('.', '')}to{end_date.replace('.', '')}"] *)
Definition nso_period_of (a : Args) : str :=
  lit "from" ++ replace (lit ".") [] (start_date a)
  ++ lit "to" ++ replace (lit ".") [] (end_date a).

(** [quote_plus(s)]: [s.encode("utf-8", "strict")], which raises
    [UnicodeEncodeError] on a surrogate, then the escaping of the bytes. *)
Definition quote_plus (s : str) : result str :=
  if encodable s then Ok (quoted s) else Raise UnicodeEncodeError.

(** The URL of the page at [start]; [quoted (search_term a)] is
    [encoded_term], the value [quote_plus] returned at line 350. *)
Definition page_url (a : Args) (start : Z) : str :=
  build_url (quoted (search_term a)) (sort_value a)
            (start_date a) (end_date a) (nso_period_of a) start.

(** [sleep_min, sleep_max], swapped when given in reverse order. *)
Definition sleep_bounds (a : Args) : Q * Q :=
  let '(sleep_min, sleep_max) := sleep_range a in
  if Qle_bool sleep_min sleep_max then (sleep_min, sleep_max)
  else (sleep_max, sleep_min).

(** The body of [for r in rows]: admit_row the row unless its link is empty or
    seen. *)
Definition admit_row (acc : CrawlState * nat) (r : Row) : CrawlState * nat :=
  let '(cs, new_cnt) := acc in
  let link := Link r in
  if negb (truthy link) || bool_decide (link ∈ seen_links cs) then acc
  else
    ({| titles := titles cs ++ [Title r];
        dates := dates cs ++ [Date r];
        sources := sources cs ++ [Source r];
        links := links cs ++ [link];
        seen_links := {[ link ]} ∪ seen_links cs;
        start := start cs;
        page_count := page_count cs |},
     S new_cnt).

Definition admit_rows (rows : list Row) (cs : CrawlState)
  : CrawlState * nat :=
  fold_left admit_row rows (cs, O).

Definition with_page_count (cs : CrawlState) (n : Z) : CrawlState :=
  {| titles := titles cs; dates := dates cs; sources := sources cs;
     links := links cs; seen_links := seen_links cs;
     start := start cs; page_count := n |}.

Definition with_start (cs : CrawlState) (n : Z) : CrawlState :=
  {| titles := titles cs; dates := dates cs; sources := sources cs;
     links := links cs; seen_links := seen_links cs;
     start := n; page_count := page_count cs |}.

(** One pass through the body of [while True]. *)
Definition iteration (a : Args) (cs0 : CrawlState) : M (ctl * CrawlState) :=
  let cs := with_page_count cs0 (page_count cs0 + 1) in
  if max_pages a <? page_count cs then
    log (LogMaxPages (max_pages a)) ;;;
    ret (Break, cs)
  else
    let url := page_url a (start cs) in
    log (LogRequest url) ;;;
    resp <- http_get W url ;;
    match resp with
    | OtherException => raise OtherError
    | RequestException =>
        log LogException ;;;
        ret (Break, cs)
    | Response status_code text =>
        if negb (status_code =? 200) then
          log (LogStatus status_code (start cs)) ;;;
          ret (Break, cs)
        else
          rows <- parse_page W text ;;
          if negb (match rows with [] => false | _ => true end) then
            write_file W "debug_naver.html" text ;;;
            log (LogNoRows (start cs)) ;;;
            ret (Break, cs)
          else
            let '(cs1, new_cnt) := admit_rows rows cs in
            log (LogPage (start cs) (length rows) new_cnt) ;;;
            let cs2 := with_start cs1 (start cs1 + 10) in
            wait_time <- uniform W (fst (sleep_bounds a))
                                   (snd (sleep_bounds a)) ;;
            sleep wait_time ;;;
            if (new_cnt =? 0)%nat then
              log LogNoNew ;;;
              ret (Break, cs2)
            else ret (Continue, cs2)
    end.

(** [while True]: at most [fuel] passes; [None] when they do not
    suffice. *)
Fixpoint crawl_loop (fuel : nat) (a : Args) (cs : CrawlState)
  : M (option CrawlState) :=
  match fuel with
  | O => ret None
  | S fuel' =>
      r <- iteration a cs ;;
      match r with
      | (Break, cs') => ret (Some cs')
      | (Continue, cs') => crawl_loop fuel' a cs'
      end
  end.

Definition init_state : CrawlState :=
  {| titles := []; dates := []; sources := []; links := [];
     seen_links := ∅; start := 1; page_count := 0 |}.

(** Passes that always suffice: one per page and one for the stop. *)
Definition crawl_fuel (a : Args) : nat := S (Z.to_nat (max_pages a)).

Definition crawl_run (a : Args) : M (option CrawlState) :=
  crawl_loop (crawl_fuel a) a init_state.

(** [crawl(...)]: the search term is encoded first (line 350), then the
    loop runs. [None] would be a loop still running after [crawl_fuel]
    passes; lemma [crawl_run_not_none] shows it never is. *)
Definition crawl (a : Args)
  : M (option (list str * list str * list str * list str)) :=
  encoded_term <- lift (quote_plus (search_term a)) ;;
  r <- crawl_run a ;;
  ret (match r with
       | Some cs => Some (titles cs, dates cs, sources cs, links cs)
       | None => None
       end).

End Driver.

(* ===================================================================== *)
(** ** The streamlit entry point *)
(* ===================================================================== *)

(** The rows of a frame built from four columns. *)
Fixpoint frame_rows (titles dates sources links : list str) : list Row :=
  match titles, dates, sources, links with
  | t :: titles', d :: dates', s :: sources', l :: links' =>
      {| Title := t; Date := d; Source := s; Link := l |}
      :: frame_rows titles' dates' sources' links'
  | _, _, _, _ => []
  end.

(** [pd.DataFrame({"Title": titles, "Date": dates, "Source": sources,
    "Link": links})]: the frame by its rows; pandas raises [ValueError] when
    the columns differ in length. *)
Definition build_dataframe (titles dates sources links : list str)
  : result (list Row) :=
  if (length titles =? length dates)%nat
     && (length dates =? length sources)%nat
     && (length sources =? length links)%nat
  then Ok (frame_rows titles dates sources links)
  else Raise ValueError.

(** A [datetime.date] by year, month and day. *)
Definition date := (Z * Z * Z)%type.

(** [a > b] on dates. *)
Definition date_gt (a b : date) : bool :=
  let '(ya, ma, da) := a in
  let '(yb, mb, db) := b in
  (yb <? ya) || ((yb =? ya) && ((mb <? ma) || ((mb =? ma) && (db <? da)))).

(** What the form of [streamlit_main] holds when the script runs. *)
Record Form := {
  st_installed : bool;           (* st is not None *)
  f_search_term : str;
  f_start_date_input : date;
  f_end_date_input : date;
  f_sort_value : Z;              (* SORT_OPTIONS[sort_label] *)
  f_max_pages : Z;
  f_output_filename : str;
  f_save_to_disk : bool;
  f_saves : bool;                (* df.to_excel(output_filename) succeeds *)
  f_submitted : bool
}.

Section Streamlit.
Context `{PyRuntime} `{PyLibs} (W : World).

(** [d.strftime(DATE_FORMAT)] *)
Definition date_strftime (d : date) : str :=
  let '(y, m, dd) := d in
  fmt_year y ++ lit "." ++ fmt_0d 2 m ++ lit "." ++ fmt_0d 2 dd.

Definition ui (m : ui_msg) : M unit := emit (EUi m).

Definition form_args (f : Form) : Args :=
  {| search_term := f_search_term f;
     start_date := date_strftime (f_start_date_input f);
     end_date := date_strftime (f_end_date_input f);
     sort_value := f_sort_value f;
     max_pages := f_max_pages f;
     sleep_range := (1 # 1, 2 # 1)%Q |}.

Definition streamlit_main (f : Form) : M unit :=
  if negb (st_installed f) then raise RuntimeError else
  ui UiForm ;;;
  if negb (f_submitted f) then ret tt else
  if date_gt (f_start_date_input f) (f_end_date_input f) then
    ui UiRangeError ;;;
    ret tt
  else
    r <- try_except
           (x <- crawl W (form_args f) ;; ret (Some x))
           (ui UiCrawlError ;;; ret None) ;;
    match r with
    | None | Some None => ret tt
    | Some (Some (titles, dates, sources, links)) =>
        if negb (match titles with [] => false | _ => true end) then
          ui UiWarningEmpty ;;;
          ret tt
        else
          df <- lift (build_dataframe titles dates sources links) ;;
          ui (UiSuccess (length df)) ;;;
          ui UiTable ;;;
          lift (to_excel df) ;;;
          ui UiDownload ;;;
          if f_save_to_disk f && truthy (f_output_filename f) then
            if f_saves f then ui UiSaved else ui UiSaveFailed
          else ret tt
    end.

End Streamlit.

(* ===================================================================== *)
(** ** A concrete interpreter, library and world *)
(* ===================================================================== *)

(** The ASCII digits, which every Unicode table has. *)
Definition ascii_decimal (c : Z) : option Z :=
  if (48 <=? c) && (c <=? 57) then Some (c - 48) else None.

(** [str.isspace] of CPython 3.11 on one character. *)
Definition py_isspace (c : Z) : bool :=
  ((9 <=? c) && (c <=? 13)) || ((28 <=? c) && (c <=? 32))
  || (c =? 133) || (c =? 160) || (c =? 5760)
  || ((8192 <=? c) && (c <=? 8202))
  || (c =? 8232) || (c =? 8233) || (c =? 8239) || (c =? 8287)
  || (c =? 12288).

#[export] Instance cpython311 : PyRuntime.
Proof.
  refine {| decimal := ascii_decimal;
            isspace := py_isspace;
            max_str_digits := Some 4300%nat;
            pad_year := false |}.
  - intros c v. unfold ascii_decimal.
    destruct (Z.leb_spec 48 c), (Z.leb_spec c 57); simpl; intros E;
      inversion E; lia.
  - intros c _. reflexivity.
  - intros c Hc. unfold ascii_decimal, py_isspace. split.
    + destruct (Z.leb_spec 48 c), (Z.leb_spec c 57); simpl; auto; lia.
    + rewrite !orb_false_iff, !andb_false_iff, !Z.leb_gt, !Z.eqb_neq. lia.
  - intros c. unfold py_isspace, ascii_decimal.
    rewrite !orb_true_iff, !andb_true_iff, !Z.leb_le, !Z.eqb_eq. intros Hs.
    destruct (Z.leb_spec 48 c), (Z.leb_spec c 57); simpl; auto; lia.
  - intros l E. inversion E. lia.
Defined.

Definition leaf (t : str) : Tag :=
  mkTag t t (fun _ => None) (fun _ => []).

(** An anchor with the text [t] and the address [href]. *)
Definition anchor (t href : str) : Tag :=
  mkTag t t (fun k => if String.eqb k "href" then Some href else None)
        (fun _ => []).

(** A card of the stable structure: a [news_tit] anchor and a date span. *)
Definition card (title href date_text : str) : Tag :=
  mkTag title title (fun _ => None)
        (fun q => match q with
                  | QANewsTit | QFindANewsTit | QFindA => [anchor title href]
                  | QInfoSpans => [leaf date_text]
                  | _ => []
                  end).

(** A card with a publisher and a date but nothing that bears a title. *)
Definition untitled_card (press date_text : str) : Tag :=
  mkTag press press (fun _ => None)
        (fun q => match q with
                  | QAInfoPress => [leaf press]
                  | QInfoSpans => [leaf date_text]
                  | _ => []
                  end).

Definition page (cards : list Tag) : Tag :=
  mkTag [] [] (fun _ => None)
        (fun q => match q with QListNews => cards | _ => [] end).

Definition link_a : str := lit "https://n.example/a".
Definition link_b : str := lit "https://n.example/b".

Definition page_ab : Tag :=
  page [card (lit "Title A") link_a (lit "2024.03.07.");
        card (lit "Title B") link_b (lit "2024.03.08.")].

(** A parser that reads a response body as a page by its first character:
    "1" is [page_ab], "2" a page with one untitled card, anything else a
    page without cards. *)
#[export] Instance sample_libs : PyLibs := {|
  BeautifulSoup := fun html =>
    match html with
    | 49 :: _ => page_ab
    | 50 :: _ => page [untitled_card (lit "Press") (lit "2024.03.07.")]
    | _ => page []
    end;
  netloc := fun _ => Some (lit "n.example");
  quoted := fun s => s;
  to_excel := fun _ => Ok tt;
  fromisoformat_KST := fun _ => None;
  html_date := fun _ => []
|}.

(** A world whose clock stands at 2023-11-14T22:13:20Z and whose server
    answers every request with [resp]. *)
Definition world_of (resp : str -> response) : World := {|
  clock := fun _ => 1700000000 * US_PER_SECOND;
  session_get := fun _ url => resp url;
  random_uniform := fun _ a _ => a;
  open_ok := fun _ _ => true;
  local_utcoffset := 0
|}.

Definition s_init : state := {| trace := []; files := ∅ |}.

Definition sample_args (sd ed : str) (n : Z) : Args :=
  {| search_term := lit "kw"; start_date := sd; end_date := ed;
     sort_value := 2; max_pages := n; sleep_range := (1 # 1, 2 # 1)%Q |}.

(* ===================================================================== *)
(** ** What a run shows *)
(* ===================================================================== *)

(** The URLs of the listing requests of a trace, in the order issued. *)
Definition listing_requests (tr : list event) : list str :=
  omap (fun e => match e with EGet url => Some url | _ => None end) tr.

(** The offsets of the first [n] pages: 1, 11, 21, ... *)
Definition offsets_from (start : Z) (n : nat) : list Z :=
  map (fun k => start + 10 * Z.of_nat k) (seq 0 n).

(** The state [crawl] breaks out with when a page fails or is empty: the
    page counter has advanced, everything else is as before. *)
Definition stopped (cs : CrawlState) : CrawlState :=
  {| titles := titles cs; dates := dates cs; sources := sources cs;
     links := links cs; seen_links := seen_links cs;
     start := start cs; page_count := page_count cs + 1 |}.

(** The state after the request line and the request of a page. *)
Definition requested (a_url : str) (s : state) : state :=
  {| trace := trace s ++ [ELog (LogRequest a_url); EGet a_url];
     files := files s |}.

(** The accumulated columns are the columns of one list of records, without
    a repeated link, and [seen_links] is the set of their links. *)
Definition consistent (cs : CrawlState) : Prop :=
  exists recs : list Row,
    titles cs = map Title recs /\ dates cs = map Date recs /\
    sources cs = map Source recs /\ links cs = map Link recs /\
    NoDup (links cs) /\ (forall l, l ∈ seen_links cs <-> l ∈ links cs).

(** A computation is quiet when it issues no listing request and writes no
    file. *)
Definition quiet {A} (c : M A) : Prop :=
  forall s, listing_requests (trace (snd (c s))) = listing_requests (trace s)
            /\ files (snd (c s)) = files s.

(** A row [crawl] does not admit_row: its link is empty or already seen. *)
Definition rejected (cs : CrawlState) (r : Row) : Prop :=
  Link r = [] \/ Link r ∈ seen_links cs.



(** The link [parse_page] reads off a card: the stripped [href] of its
    anchor, empty when there is no anchor or no [href]. *)
Definition card_link `{PyRuntime} (box : Tag) : str :=
  match link_anchor box with
  | Some a => strip (match get a "href" with Some h => h | None => [] end)
  | None => []
  end.

(** What [parse_page] makes of [page_ab]. *)
Definition rows_ab : list Row :=
  [ {| Title := lit "Title A"; Date := lit "2024.03.07";
       Source := lit "n"; Link := link_a |};
    {| Title := lit "Title B"; Date := lit "2024.03.08";
       Source := lit "n"; Link := link_b |} ].

(** A submitted form whose start date is after its end date. *)
Definition reversed_form : Form :=
  {| st_installed := true; f_search_term := lit "kw";
     f_start_date_input := (2024, 12, 31); f_end_date_input := (2024, 1, 1);
     f_sort_value := 2; f_max_pages := 1;
     f_output_filename := lit "out.xlsx"; f_save_to_disk := false;
     f_saves := true; f_submitted := true |}.

(** A server that is down, one that always sends [page_ab], and one that
    always sends a page without cards. *)
Definition world_down : World := world_of (fun _ => RequestException).
Definition world_ab : World := world_of (fun _ => Response 200 (lit "1")).
Definition world_empty : World := world_of (fun _ => Response 200 (lit "0")).

(* ===================================================================== *)
(** ** What a regular expression denotes *)
(* ===================================================================== *)

(** [matches r t g]: the text [t] is in the language of [r], with the
    groups [g]. This says nothing of priorities or positions: it is the
    yardstick for [rmatch] and [search]. *)
Inductive matches `{PyRuntime} : regex -> str -> list str -> Prop :=
| M_lit l : matches (RLit l) l []
| M_rep k lo hi t :
    Forall (fun c => in_class k c = true) t ->
    (lo <= length t)%nat ->
    match hi with Some h => (length t <= h)%nat | None => True end ->
    matches (RRep k lo hi) t []
| M_alt_l r1 r2 t g : matches r1 t g -> matches (RAlt r1 r2) t g
| M_alt_r r1 r2 t g : matches r2 t g -> matches (RAlt r1 r2) t g
| M_cat r1 r2 t1 g1 t2 g2 :
    matches r1 t1 g1 -> matches r2 t2 g2 ->
    matches (RCat r1 r2) (t1 ++ t2) (g1 ++ g2)
| M_group r t g : matches r t g -> matches (RGroup r) t (t :: g).

(** [r] occurs in [s]: some substring of [s] is in the language of [r]. *)
Definition occurs `{PyRuntime} (r : regex) (s : str) : Prop :=
  exists pre t post g, s = pre ++ t ++ post /\ matches r t g.

(** The same world with another local time zone. *)
Definition with_local_utcoffset (W : World) (off : Z) : World :=
  {| clock := clock W; session_get := session_get W;
     random_uniform := random_uniform W; open_ok := open_ok W;
     local_utcoffset := off |}.

(* ===================================================================== *)
(** ** The three shapes of a date in a URL *)
(* ===================================================================== *)

Definition digits `{PyRuntime} (s : str) : Prop :=
  Forall (fun c => isdigit c = true) s.

(** A year of this century: "20" and two digits. *)
Definition year20 `{PyRuntime} (y : str) : Prop :=
  exists a b, y = [50; 48; a; b] /\ digits [a; b].

(** [/20YYMMDD/] *)
Definition shape_compact_closed `{PyRuntime} (w y mo d : str) : Prop :=
  year20 y /\ digits mo /\ length mo = 2%nat /\
  digits d /\ length d = 2%nat /\
  w = [47] ++ y ++ mo ++ d ++ [47].

(** [/20YY/M/D/] with one or two digits for the month and for the day *)
Definition shape_slashed `{PyRuntime} (w y mo d : str) : Prop :=
  year20 y /\ digits mo /\ (1 <= length mo <= 2)%nat /\
  digits d /\ (1 <= length d <= 2)%nat /\
  w = [47] ++ y ++ [47] ++ mo ++ [47] ++ d ++ [47].

(** [/20YYMMDD], whatever follows *)
Definition shape_compact `{PyRuntime} (w y mo d : str) : Prop :=
  year20 y /\ digits mo /\ length mo = 2%nat /\
  digits d /\ length d = 2%nat /\
  w = [47] ++ y ++ mo ++ d.

(** The shape occurs somewhere in the URL. *)
Definition has_shape (shape : str -> str -> str -> str -> Prop)
    (url : str) : Prop :=
  exists pre w post y mo d, url = pre ++ w ++ post /\ shape w y mo d.

(** [w], with the fields [y], [mo], [d], is the leftmost occurrence of the
    shape in the URL. *)
Definition first_shape (shape : str -> str -> str -> str -> Prop)
    (url w y mo d : str) : Prop :=
  exists pre post,
    url = pre ++ w ++ post /\ shape w y mo d /\
    forall pre' w' post' y' mo' d',
      url = pre' ++ w' ++ post' -> shape w' y' mo' d' ->
      (length pre <= length pre')%nat.

(** Two decimal digits. *)
Definition two_digits (v : Z) : str := [48 + v / 10; 48 + v mod 10].

(* ===================================================================== *)
(** ** Relative-time phrases *)
(* ===================================================================== *)

Definition spaces `{PyRuntime} (s : str) : Prop :=
  Forall (fun c => isspace c = true) s.

(** 분, 시간 or 일 *)
Definition time_unit (u : str) : Prop :=
  u = U_bun \/ u = U_sigan \/ u = U_il.

(** "N unit 전": digits, a unit and 전, with optional white space between
    them. *)
Definition relative_phrase `{PyRuntime} (w ds u : str) : Prop :=
  exists ws ws',
    digits ds /\ ds <> [] /\ spaces ws /\ time_unit u /\ spaces ws' /\
    w = ds ++ ws ++ u ++ ws' ++ U_jeon.

Definition has_relative_phrase `{PyRuntime} (t : str) : Prop :=
  exists pre w post ds u, t = pre ++ w ++ post /\ relative_phrase w ds u.

(** [w] is a relative-time phrase of [t] that starts where the leftmost
    one does. *)
Definition first_relative_phrase `{PyRuntime} (t w ds u : str) : Prop :=
  exists pre post,
    t = pre ++ w ++ post /\ relative_phrase w ds u /\
    forall pre' w' post' ds' u',
      t = pre' ++ w' ++ post' -> relative_phrase w' ds' u' ->
      (length pre <= length pre')%nat.

(** The digits are not more than [int] accepts. *)
Definition within_int_limit `{PyRuntime} (ds : str) : Prop :=
  match max_str_digits with
  | Some limit => (length ds <= limit)%nat
  | None => True
  end.

(** Four decimal digits. *)
Definition four_digits (v : Z) : str :=
  [48 + v / 1000; 48 + v / 100 mod 10; 48 + v / 10 mod 10; 48 + v mod 10].

(** The state after one reading of the clock. *)
Definition clock_read (s : state) : state :=
  {| trace := trace s ++ [ENow]; files := files s |}.

(** [f] holds on the [n] integers from [lo] on. *)
Fixpoint all_from (f : Z -> bool) (n : nat) (lo : Z) : bool :=
  match n with
  | O => true
  | S k => f lo && all_from f k (lo + 1)
  end.

(** The years whose four digits [strftime] and the format agree on. *)
Definition year_check (y : Z) : bool :=
  (y <? 1000)
  || (bool_decide (str_of_int y = four_digits y)
      && bool_decide (fmt_0d 4 y = four_digits y)).

(* ===================================================================== *)
(** ** Sample runs *)
(* ===================================================================== *)

(** A crawl of at most five pages, and of at most one. *)
Definition args5 : Args :=
  sample_args (lit "2024.01.01") (lit "2024.12.31") 5.
Definition args1 : Args :=
  sample_args (lit "2024.01.01") (lit "2024.12.31") 1.

(** The first pass of the loop when every page is [page_ab], and the state
    it leaves. *)
Definition after_page1 : result (ctl * CrawlState) * state :=
  iteration world_ab args5 init_state s_init.

Definition cs_page1 : CrawlState :=
  match fst after_page1 with
  | Ok (_, cs) => cs
  | Raise _ => init_state
  end.

Definition s_page1 : state := snd after_page1.

(** "3 시간 전" and "1000000일 전" *)
Definition text_3_hours : str := [51; 32] ++ U_sigan ++ [32] ++ U_jeon.
Definition text_million_days : str := lit "1000000" ++ U_il ++ U_jeon.

Definition url_compact_closed : str := lit "https://a.example/20240307/x".
Definition url_slashed : str := lit "https://a.example/2024/3/7/x".
Definition url_compact : str := lit "https://a.example/20240307".
Definition url_bare_run : str := lit "https://a.example/x20240307".

(* ===================================================================== *)
(** ** What else a run shows *)
(* ===================================================================== *)

(** A word of [str.split()]: not empty, and free of white space. *)
Definition word `{PyRuntime} (w : str) : Prop :=
  w <> [] /\ Forall (fun c => isspace c = false) w.

(** [ws] are the words of [s], in order: [s] is white space, a word, at
    least one character of white space, a word, and so on, with white
    space at both ends or not. So the words are the maximal runs of [s]
    that are free of white space. *)
Inductive words_of `{PyRuntime} : str -> list str -> Prop :=
| words_blank g : spaces g -> words_of g []
| words_last g w : spaces g -> word w -> words_of (g ++ w) [w]
| words_next g w c rest ws :
    spaces g -> word w -> isspace c = true -> words_of rest ws ->
    words_of (g ++ w ++ c :: rest) (w :: ws).

(** What the two [replace] calls of [_clean_text] make of a character. *)
Definition unbreak (c : Z) : Z :=
  if (c =? 10) || (c =? 13) then 32 else c.

(** The URLs of the article requests of a trace, in the order issued. *)
Definition article_requests (tr : list event) : list str :=
  omap (fun e => match e with EArticle url => Some url | _ => None end) tr.

(** What [streamlit_main] has shown, in order. *)
Definition ui_messages (tr : list event) : list ui_msg :=
  omap (fun e => match e with EUi m => Some m | _ => None end) tr.

(** A computation emits only events of [P], after those there were. *)
Definition emits {A} (P : event -> Prop) (c : M A) : Prop :=
  forall s, exists evs,
    trace (snd (c s)) = trace s ++ evs /\ Forall P evs.

(** A computation raises only exceptions of [P]. *)
Definition raises_only {A} (P : exn -> Prop) (c : M A) : Prop :=
  forall s e, fst (c s) = Raise e -> P e.

(** A computation issues at most [n] article requests. *)
Definition fetches_at_most {A} (n : nat) (c : M A) : Prop :=
  forall s,
    (length (article_requests (trace (snd (c s))))
     <= length (article_requests (trace s)) + n)%nat.

(** The card gives a row: it has a title and a link. *)
Definition yields_row `{PyRuntime} (box : Tag) : bool :=
  truthy (_extract_title_from_card box) && truthy (card_link box).

(** The events of reading a date off a card, and of parsing a page with the
    cards [boxes]: readings of the clock, and requests for the articles of
    cards whose link holds no date. *)
Definition clock_event (e : event) : Prop := e = ENow.

Definition extractor_event `{PyRuntime} (boxes : list Tag) (e : event)
  : Prop :=
  e = ENow \/
  exists box, box ∈ boxes /\ e = EArticle (card_link box) /\
              _extract_date_from_url (card_link box) = [].

(** The events of a crawl with the arguments [a]. *)
Definition crawl_event (a : Args) (e : event) : Prop :=
  match e with
  | ENow | EGet _ | EArticle _ | ELog _ => True
  | EUniform lo hi =>
      lo = fst (sleep_bounds a) /\ hi = snd (sleep_bounds a) /\ (lo <= hi)%Q
  | ESleep w => (0 <= w)%Q /\ sleep_fits w = true
  | EOpen path => path = "debug_naver.html"%string
  | EUi _ => False
  end.

(** [20YY.M.D] with one or two digits for the month and for the day: what
    [DATE_PAT] reads. *)
Definition dotted_date `{PyRuntime} (w : str) : Prop :=
  exists y mo d,
    year20 y /\ digits mo /\ (1 <= length mo <= 2)%nat /\
    digits d /\ (1 <= length d <= 2)%nat /\
    w = y ++ [46] ++ mo ++ [46] ++ d.

(** [p] is a substring of [s]. *)
Definition has_substring (p s : str) : Prop :=
  exists pre post, s = pre ++ p ++ post.

(** What [crawl] does with the body of a 200 answer (lines 375-407), [cs]
    being the state with the page counted. *)
Definition page_pass `{PyRuntime} `{PyLibs} (W : World) (a : Args)
    (cs : CrawlState) (text : str) : M (ctl * CrawlState) :=
  rows <- parse_page W text ;;
  if negb (match rows with [] => false | _ => true end) then
    write_file W "debug_naver.html" text ;;;
    log (LogNoRows (start cs)) ;;;
    ret (Break, cs)
  else
    let '(cs1, new_cnt) := admit_rows rows cs in
    log (LogPage (start cs) (length rows) new_cnt) ;;;
    let cs2 := with_start cs1 (start cs1 + 10) in
    wait_time <- uniform W (fst (sleep_bounds a)) (snd (sleep_bounds a)) ;;
    sleep wait_time ;;;
    if (new_cnt =? 0)%nat then
      log LogNoNew ;;;
      ret (Break, cs2)
    else ret (Continue, cs2).

(** The columns of a state hold no empty title and no empty link. *)
Definition filled (cs : CrawlState) : Prop :=
  Forall (fun t => t <> []) (titles cs) /\
  Forall (fun l => l <> []) (links cs).

(** The exceptions of reading a relative time: of [int] and of [datetime]
    arithmetic. *)
Definition date_error (e : exn) : Prop := e = ValueError \/ e = OverflowError.

(** What one run of [streamlit_main] can show: the form, and then nothing
    (the form was not submitted), the range error, the crawl error, the
    warning of an empty result, or the number of records with the table and
    the download, and then at most one note about the file. *)
Definition ui_outcome (ms : list ui_msg) : Prop :=
  ms = [UiForm] \/ ms = [UiForm; UiRangeError] \/
  ms = [UiForm; UiCrawlError] \/ ms = [UiForm; UiWarningEmpty] \/
  exists n tail,
    (0 < n)%nat /\
    ms = [UiForm; UiSuccess n; UiTable; UiDownload] ++ tail /\
    (tail = [] \/ tail = [UiSaved] \/ tail = [UiSaveFailed]).

(** The state after the events [evs]. *)
Definition after (s : state) (evs : list event) : state :=
  {| trace := trace s ++ evs; files := files s |}.

(** The lines that say why a crawl stops. *)
Definition stop_reason (m : log_msg) : Prop :=
  match m with
  | LogMaxPages _ | LogStatus _ _ | LogException | LogNoRows _ | LogNoNew =>
      True
  | LogRequest _ | LogPage _ _ _ => False
  end.

(** A library whose parser reads every text as the page [soup]. *)
Definition libs_of (soup : Tag) : PyLibs := {|
  BeautifulSoup := fun _ => soup;
  netloc := fun _ => Some (lit "n.example");
  quoted := fun s => s;
  to_excel := fun _ => Ok tt;
  fromisoformat_KST := fun _ => None;
  html_date := fun _ => []
|}.

(** The sample library without an engine for [to_excel]. *)
Definition libs_no_excel : PyLibs := {|
  BeautifulSoup := @BeautifulSoup sample_libs;
  netloc := @netloc sample_libs;
  quoted := @quoted sample_libs;
  to_excel := fun _ => Raise OtherError;
  fromisoformat_KST := @fromisoformat_KST sample_libs;
  html_date := @html_date sample_libs
|}.

(** A page with one card whose date reads "1000000일 전". *)
Definition page_old : Tag :=
  page [card (lit "Title C") link_a text_million_days].

(** A submitted form with the default dates. *)
Definition sample_form : Form :=
  {| st_installed := true; f_search_term := lit "kw";
     f_start_date_input := (2024, 1, 1); f_end_date_input := (2024, 12, 31);
     f_sort_value := 2; f_max_pages := 1;
     f_output_filename := lit "out.xlsx"; f_save_to_disk := true;
     f_saves := true; f_submitted := true |}.

(** The waits drawn for the arguments [a] are lengths [time.sleep]
    accepts: they fit, and are not negative. *)
Definition waits_accepted (W : World) (a : Args) : Prop :=
  forall tr,
    let w := random_uniform W tr (fst (sleep_bounds a))
                            (snd (sleep_bounds a)) in
    sleep_fits w = true /\ Qle_bool 0 w = true.

(** The bodies of the answers are texts UTF-8 can encode, so that
    [debug_naver.html] can hold them. *)
Definition bodies_encodable (W : World) : Prop :=
  forall tr url code text,
    session_get W tr url = Response code text -> encodable text = true.

(** Arguments whose waits are of three hundred years and more. *)
Definition patient_args : Args :=
  {| search_term := lit "kw"; start_date := lit "2024.01.01";
     end_date := lit "2024.12.31"; sort_value := 2; max_pages := 1;
     sleep_range := (10000000000 # 1, 20000000000 # 1)%Q |}.

(** Arguments whose waits are negative, and given in reverse order. *)
Definition hasty_args : Args :=
  {| search_term := lit "kw"; start_date := lit "2024.01.01";
     end_date := lit "2024.12.31"; sort_value := 2; max_pages := 1;
     sleep_range := (- 1 # 1, - 2 # 1)%Q |}.

(** A world whose server sends a page without cards and whose directory
    cannot be written. *)
Definition world_readonly : World := {|
  clock := fun _ => 1700000000 * US_PER_SECOND;
  session_get := fun _ _ => Response 200 (lit "0");
  random_uniform := fun _ a _ => a;
  open_ok := fun _ _ => false;
  local_utcoffset := 0
|}.

(** A card whose date span reads "2024.12.31.". *)
Definition card_dec31 : Tag :=
  card (lit "Title A") link_a (lit "2024.12.31.").

(** The sample form with a search term that is one high surrogate. *)
Definition surrogate_form : Form :=
  {| st_installed := true; f_search_term := [55296];
     f_start_date_input := (2024, 1, 1); f_end_date_input := (2024, 12, 31);
     f_sort_value := 2; f_max_pages := 1;
     f_output_filename := lit "out.xlsx"; f_save_to_disk := true;
     f_saves := true; f_submitted := true |}.

(** A server whose pages are one high surrogate (a text without cards). *)
Definition world_surrogate : World :=
  world_of (fun _ => Response 200 [55296]).

(** A server whose [session.get] raises an exception that is no
    [RequestException]. *)
Definition world_broken : World := world_of (fun _ => OtherException).

(** ** The monad *)

Lemma bind_ok_inv {A B} (c : M A) (k : A -> M B) s b s' :
  bind c k s = (Ok b, s') ->
  exists a s1, c s = (Ok a, s1) /\ k a s1 = (Ok b, s').
Proof.
  unfold bind. destruct (c s) as [[a|e] s1]; intros E.
  - eauto.
  - discriminate.
Qed.

Lemma bind_ok {A B} (c : M A) (k : A -> M B) s a s1 :
  c s = (Ok a, s1) -> bind c k s = k a s1.
Proof. unfold bind. intros ->. reflexivity. Qed.

Lemma bind_raise {A B} (c : M A) (k : A -> M B) s e s1 :
  c s = (Raise e, s1) -> bind c k s = (Raise e, s1).
Proof. unfold bind. intros ->. reflexivity. Qed.

Lemma listing_requests_app tr1 tr2 :
  listing_requests (tr1 ++ tr2) = listing_requests tr1 ++ listing_requests tr2.
Proof. unfold listing_requests. apply omap_app. Qed.

Lemma quiet_ret {A} (a : A) : quiet (ret a).
Proof. intros s. split; reflexivity. Qed.

Lemma quiet_raise {A} e : quiet (@raise A e).
Proof. intros s. split; reflexivity. Qed.

Lemma quiet_lift {A} (r : result A) : quiet (lift r).
Proof. intros s. split; reflexivity. Qed.

Lemma quiet_bind {A B} (c : M A) (k : A -> M B) :
  quiet c -> (forall a, quiet (k a)) -> quiet (bind c k).
Proof.
  intros Hc Hk s. unfold bind. specialize (Hc s).
  destruct (c s) as [[a|e] s1]; simpl in *.
  - destruct (Hk a s1) as [H1 H2]. destruct Hc as [H3 H4].
    split; congruence.
  - exact Hc.
Qed.

Lemma quiet_emit e :
  (forall u, e <> EGet u) -> quiet (emit e).
Proof.
  intros He s. unfold emit; simpl. split; [|reflexivity].
  rewrite listing_requests_app. destruct e; simpl; try (apply app_nil_r).
  exfalso. eapply He. reflexivity.
Qed.

Lemma quiet_datetime_now W : quiet (datetime_now W).
Proof.
  intros s. unfold datetime_now; simpl. split; [|reflexivity].
  rewrite listing_requests_app. apply app_nil_r.
Qed.

Lemma quiet_article_get W url : quiet (article_get W url).
Proof.
  intros s. unfold article_get; simpl. split; [|reflexivity].
  rewrite listing_requests_app. apply app_nil_r.
Qed.

Create HintDb quiet.
#[export] Hint Resolve quiet_ret quiet_raise quiet_lift quiet_datetime_now
  quiet_article_get : quiet.

Ltac quiet_tac :=
  repeat first
    [ apply quiet_bind; [|intros ?]
    | solve [auto with quiet]
    | match goal with
      | |- quiet (match ?x with _ => _ end) => destruct x
      | |- quiet (if ?b then _ else _) => destruct b
      | |- quiet (let '(_, _) := ?x in _) => destruct x
      end ].

Section QuietExtractor.
Context `{PyRuntime} `{PyLibs} (W : World).

Lemma quiet_normalize_relative_date text :
  quiet (_normalize_relative_date W text).
Proof. unfold _normalize_relative_date. quiet_tac. Qed.

Lemma quiet_extract_date_from_article url :
  quiet (_extract_date_from_article W url).
Proof. unfold _extract_date_from_article. quiet_tac. Qed.

Lemma quiet_date_from_spans sps : quiet (date_from_spans W sps).
Proof.
  induction sps as [|sp rest IH]; simpl.
  - auto with quiet.
  - destruct (search DATE_PAT _); [auto with quiet|].
    apply quiet_bind; [apply quiet_normalize_relative_date|].
    intros rel. destruct (truthy rel); auto with quiet.
Qed.

Lemma quiet_date_from_time box : quiet (date_from_time W box).
Proof.
  unfold date_from_time.
  destruct (select_one QFindTime box); [|auto with quiet].
  destruct (truthy _); [auto with quiet|].
  destruct (search DATE_PAT _); [auto with quiet|].
  apply quiet_normalize_relative_date.
Qed.

Hint Resolve quiet_normalize_relative_date quiet_extract_date_from_article
  quiet_date_from_spans quiet_date_from_time : quiet.

Lemma quiet_parse_box box : quiet (parse_box W box).
Proof. unfold parse_box. quiet_tac. Qed.

Lemma quiet_parse_boxes boxes rows : quiet (parse_boxes W rows boxes).
Proof.
  revert rows. induction boxes as [|box rest IH]; intros rows; simpl.
  - auto with quiet.
  - apply quiet_bind; [apply quiet_parse_box|]. intros r. apply IH.
Qed.

Lemma quiet_parse_page html : quiet (parse_page W html).
Proof. apply quiet_parse_boxes. Qed.

End QuietExtractor.

(** ** The driver: one pass of the loop *)

Section DriverLemmas.
Context `{PyRuntime} `{PyLibs} (W : World).

Lemma admit_fields acc r :
  start (fst (admit_row acc r)) = start (fst acc) /\
  page_count (fst (admit_row acc r)) = page_count (fst acc).
Proof.
  destruct acc as [cs n]. unfold admit_row.
  destruct (negb _ || _); simpl; auto.
Qed.

Lemma admit_consistent acc r :
  consistent (fst acc) -> consistent (fst (admit_row acc r)).
Proof.
  destruct acc as [cs n]. unfold admit_row. simpl.
  destruct (negb (truthy (Link r))) eqn:Et; simpl; [auto|].
  destruct (bool_decide (Link r ∈ seen_links cs)) eqn:Es; simpl; [auto|].
  apply bool_decide_eq_false_1 in Es.
  intros (recs & Ht & Hd & Hs & Hl & Hnd & Hseen).
  exists (recs ++ [r]). simpl. rewrite !map_app. simpl.
  rewrite Ht, Hd, Hs, Hl. repeat split; try reflexivity.
  - rewrite <- Hl. apply NoDup_app. split; [assumption|]. split.
    + intros x Hx Hx'. apply list_elem_of_singleton in Hx'. subst x.
      apply Es, Hseen, Hx.
    + apply NoDup_singleton.
  - rewrite <- Hl. intros Hin. apply elem_of_union in Hin.
    apply elem_of_app. destruct Hin as [Hin|Hin].
    + right. apply elem_of_singleton in Hin. subst. apply list_elem_of_here.
    + left. apply Hseen, Hin.
  - rewrite <- Hl. intros Hin. apply elem_of_app in Hin.
    apply elem_of_union. destruct Hin as [Hin|Hin].
    + right. apply Hseen, Hin.
    + left. apply list_elem_of_singleton in Hin. subst.
      apply elem_of_singleton. reflexivity.
Qed.

Lemma fold_admit_fields rows acc :
  start (fst (fold_left admit_row rows acc)) = start (fst acc) /\
  page_count (fst (fold_left admit_row rows acc)) = page_count (fst acc).
Proof.
  revert acc. induction rows as [|r rows IH]; intros acc; cbn [fold_left];
    [auto|].
  destruct (IH (admit_row acc r)) as [H1 H2].
  destruct (admit_fields acc r) as [H3 H4]. split; congruence.
Qed.

Lemma fold_admit_consistent rows acc :
  consistent (fst acc) -> consistent (fst (fold_left admit_row rows acc)).
Proof.
  revert acc. induction rows as [|r rows IH]; intros acc Hc;
    cbn [fold_left]; [auto|].
  apply IH, admit_consistent, Hc.
Qed.

(** A link that is empty or seen leaves the accumulator as it is. *)
Lemma admit_rejected cs n r : rejected cs r -> admit_row (cs, n) r = (cs, n).
Proof.
  intros Hr. unfold admit_row.
  destruct Hr as [Hr|Hr].
  - rewrite Hr. reflexivity.
  - rewrite (bool_decide_eq_true_2 _ Hr), orb_true_r. reflexivity.
Qed.

Lemma fold_admit_rejected rows cs n :
  Forall (rejected cs) rows -> fold_left admit_row rows (cs, n) = (cs, n).
Proof.
  induction 1 as [|r rows Hr _ IH]; cbn [fold_left]; [reflexivity|].
  rewrite (admit_rejected _ _ _ Hr). exact IH.
Qed.

(** Every admitted row adds one element to each of the four columns. *)
Lemma admit_columns acc r :
  (admit_row acc r = acc) \/
  (titles (fst (admit_row acc r)) = titles (fst acc) ++ [Title r] /\
   dates (fst (admit_row acc r)) = dates (fst acc) ++ [Date r] /\
   sources (fst (admit_row acc r)) = sources (fst acc) ++ [Source r] /\
   links (fst (admit_row acc r)) = links (fst acc) ++ [Link r] /\
   snd (admit_row acc r) = S (snd acc) /\
   Link r <> [] /\ Link r ∉ seen_links (fst acc)).
Proof.
  destruct acc as [cs n]. unfold admit_row.
  destruct (negb (truthy (Link r))) eqn:Et; simpl; [left; reflexivity|].
  destruct (bool_decide (Link r ∈ seen_links cs)) eqn:Es; simpl;
    [left; reflexivity|].
  right. repeat split; try reflexivity.
  - intros E. rewrite E in Et. discriminate.
  - apply bool_decide_eq_false_1 in Es. exact Es.
Qed.

Lemma fold_admit_columns rows acc :
  exists new : list Row,
    sublist new rows /\
    titles (fst (fold_left admit_row rows acc))
      = titles (fst acc) ++ map Title new /\
    dates (fst (fold_left admit_row rows acc))
      = dates (fst acc) ++ map Date new /\
    sources (fst (fold_left admit_row rows acc))
      = sources (fst acc) ++ map Source new /\
    links (fst (fold_left admit_row rows acc))
      = links (fst acc) ++ map Link new /\
    snd (fold_left admit_row rows acc) = (snd acc + length new)%nat.
Proof.
  revert acc. induction rows as [|r rows IH]; intros acc; cbn [fold_left].
  - exists []. simpl. rewrite !app_nil_r. repeat split; auto; constructor.
  - destruct (IH (admit_row acc r)) as (new & Hs & Ht & Hd & Hso & Hl & Hn).
    destruct (admit_columns acc r) as [E|(Et & Ed & Eso & El & En & _)].
    + exists new. rewrite E in *. repeat split; auto.
      apply sublist_cons, Hs.
    + exists (r :: new). simpl.
      rewrite Ht, Hd, Hso, Hl, Hn, Et, Ed, Eso, El, En.
      rewrite <- !app_assoc. simpl.
      repeat split; auto; try lia. apply sublist_skip, Hs.
Qed.

(** What one pass of the loop does, case by case. *)
Lemma iteration_cases a cs s :
  (max_pages a < page_count cs + 1 /\
   iteration W a cs s
   = (Ok (Break, stopped cs),
      {| trace := trace s ++ [ELog (LogMaxPages (max_pages a))];
         files := files s |}))
  \/
  (page_count cs + 1 <= max_pages a /\
   listing_requests (trace (snd (iteration W a cs s)))
   = listing_requests (trace s) ++ [page_url a (start cs)] /\
   match fst (iteration W a cs s) with
   | Ok (Continue, cs') =>
       page_count cs' = page_count cs + 1 /\ start cs' = start cs + 10 /\
       (consistent cs -> consistent cs')
   | Ok (Break, cs') =>
       page_count cs' = page_count cs + 1 /\
       (consistent cs -> consistent cs')
   | Raise _ => True
   end).
Proof.
  unfold iteration. simpl.
  destruct (Z.ltb_spec (max_pages a) (page_count cs + 1)) as [Hlt|Hle].
  - left. split; [assumption|]. reflexivity.
  - right. split; [assumption|].
    unfold bind, log, emit, http_get. simpl.
    set (url := page_url a (start cs)).
    set (s1 := {| trace := (trace s ++ [ELog (LogRequest url)]) ++ [EGet url];
                  files := files s |}).
    assert (Hs1 : listing_requests (trace s1)
                  = listing_requests (trace s) ++ [url]).
    { unfold s1. simpl. rewrite !listing_requests_app. simpl.
      rewrite app_nil_r. reflexivity. }
    destruct (session_get W (trace s ++ [ELog (LogRequest url)]) url)
      as [code text| |]; simpl.
    + destruct (code =? 200); simpl.
      * pose proof (quiet_parse_page W text s1) as [Hq _].
        destruct (parse_page W text s1) as [[rows|e] s2]; simpl in *.
        2:{ split; [congruence|exact I]. }
        destruct rows as [|r rows]; cbn [negb].
        { unfold write_file. simpl.
          destruct (open_ok W (trace s2) "debug_naver.html");
            [destruct (encodable text)|]; simpl.
          - rewrite !listing_requests_app. simpl. rewrite !app_nil_r.
            split; [congruence|]. split; [reflexivity|]. intros Hc; exact Hc.
          - rewrite !listing_requests_app. simpl. rewrite !app_nil_r.
            split; [congruence|exact I].
          - rewrite !listing_requests_app. simpl. rewrite !app_nil_r.
            split; [congruence|exact I]. }
        change (with_page_count cs (page_count cs + 1)) with (stopped cs).
        unfold admit_rows.
        pose proof (fold_admit_fields (r :: rows) (stopped cs, O))
          as [Hst Hpc].
        pose proof (fold_admit_consistent (r :: rows) (stopped cs, O)) as Hco.
        destruct (fold_left admit_row (r :: rows) (stopped cs, 0%nat))
          as [cs1 new_cnt].
        cbn [fst snd] in Hst, Hpc, Hco.
        unfold uniform, sleep. cbn [fst snd trace files].
        match goal with
        | |- context [sleep_fits ?x] => destruct (sleep_fits x)
        end; cbn [negb].
        2:{ cbn [fst snd trace files].
            rewrite !listing_requests_app. simpl. rewrite !app_nil_r.
            split; [congruence|exact I]. }
        match goal with
        | |- context [Qle_bool ?x ?y] => destruct (Qle_bool x y)
        end.
        2:{ cbn [fst snd trace files].
            rewrite !listing_requests_app. simpl. rewrite !app_nil_r.
            split; [congruence|exact I]. }
        destruct (new_cnt =? 0)%nat; unfold ret; simpl;
          rewrite !listing_requests_app; simpl; rewrite !app_nil_r;
          (split; [congruence|]); simpl in Hst, Hpc; repeat split; auto;
          lia.
      * rewrite !listing_requests_app. simpl. rewrite !app_nil_r.
        split; [reflexivity|]. split; [reflexivity|]. intros Hc; exact Hc.
    + rewrite !listing_requests_app. simpl. rewrite !app_nil_r.
      split; [reflexivity|]. split; [reflexivity|]. intros Hc; exact Hc.
    + split; [exact Hs1|exact I].
Qed.

End DriverLemmas.

(** ** The driver: the loop *)

Lemma offsets_from_S start n :
  offsets_from start (S n) = start :: offsets_from (start + 10) n.
Proof.
  unfold offsets_from. simpl. f_equal; [lia|].
  rewrite <- seq_shift, map_map. apply map_ext. intros k. lia.
Qed.

Lemma offsets_from_lookup start n (k : nat) :
  (k < n)%nat -> offsets_from start n !! k = Some (start + 10 * Z.of_nat k).
Proof.
  intros Hk. unfold offsets_from. rewrite list_lookup_fmap.
  rewrite lookup_seq_lt by assumption. reflexivity.
Qed.

Lemma offsets_from_length start n : length (offsets_from start n) = n.
Proof. unfold offsets_from. rewrite length_map, length_seq. reflexivity. Qed.

Lemma state_assoc t (e1 e2 : event) f :
  {| trace := (t ++ [e1]) ++ [e2]; files := f |}
  = {| trace := t ++ [e1; e2]; files := f |}.
Proof. rewrite <- app_assoc. reflexivity. Qed.

Section LoopLemmas.
Context `{PyRuntime} `{PyLibs} (W : World).

Lemma consistent_init : consistent init_state.
Proof.
  exists []. simpl. repeat split; auto.
  - apply NoDup_nil. trivial.
  - intros Hl. apply not_elem_of_empty in Hl. contradiction.
  - intros Hl. apply not_elem_of_nil in Hl. contradiction.
Qed.

Lemma crawl_loop_S fuel a cs s :
  crawl_loop W (S fuel) a cs s
  = match iteration W a cs s with
    | (Ok (Break, cs'), s') => (Ok (Some cs'), s')
    | (Ok (Continue, cs'), s') => crawl_loop W fuel a cs' s'
    | (Raise e, s') => (Raise e, s')
    end.
Proof.
  simpl. unfold bind.
  destruct (iteration W a cs s) as [[[[|] cs']|e] s']; reflexivity.
Qed.

(** The loop asks for the pages at the offsets [start], [start + 10], ...
    and no others, never more of them than the page counter allows; it
    keeps the accumulator consistent; it only runs out of passes when it
    has fewer of them than pages to go. *)
Lemma crawl_loop_spec a fuel : forall cs s,
  exists n : nat,
    listing_requests (trace (snd (crawl_loop W fuel a cs s)))
    = listing_requests (trace s)
      ++ map (page_url a) (offsets_from (start cs) n)
    /\ Z.of_nat n <= Z.max 0 (max_pages a - page_count cs)
    /\ match fst (crawl_loop W fuel a cs s) with
       | Ok (Some cs') => consistent cs -> consistent cs'
       | Ok None => Z.of_nat fuel <= Z.max 0 (max_pages a - page_count cs)
       | Raise _ => True
       end.
Proof.
  induction fuel as [|fuel IH]; intros cs s.
  - exists O. simpl. rewrite app_nil_r. repeat split; lia.
  - rewrite crawl_loop_S.
    destruct (iteration_cases W a cs s) as [[Hlt E]|(Hle & Hreq & Hres)].
    + rewrite E. exists O. simpl.
      rewrite listing_requests_app. simpl. rewrite !app_nil_r.
      repeat split; [lia|]. intros Hc. exact Hc.
    + destruct (iteration W a cs s) as [[[[|] cs']|e] s'];
        simpl in Hreq, Hres.
      * destruct Hres as (Hpc & Hst & Hco).
        destruct (IH cs' s') as (n & Hn & Hb & Hr).
        exists (S n). rewrite offsets_from_S. simpl.
        rewrite Hn, Hreq, Hst, <- app_assoc. simpl.
        split; [reflexivity|]. split; [lia|].
        destruct (fst (crawl_loop W fuel a cs' s')) as [[cs''|]|e]; auto.
        lia.
      * destruct Hres as (Hpc & Hco).
        exists 1%nat. simpl. rewrite Hreq.
        replace (start cs + 10 * Z.of_nat 0) with (start cs) by lia.
        split; [reflexivity|]. split; [lia|exact Hco].
      * exists 1%nat. simpl. rewrite Hreq.
        replace (start cs + 10 * Z.of_nat 0) with (start cs) by lia.
        split; [reflexivity|]. split; [lia|exact I].
Qed.

(** What [quote_plus] returns is the encoded term the URLs are built
    with. *)
Lemma quote_plus_value s q : quote_plus s = Ok q -> q = quoted s.
Proof.
  unfold quote_plus. destruct (encodable s); [|discriminate].
  intros E. injection E as <-. reflexivity.
Qed.

(** A search term UTF-8 cannot encode: [quote_plus] raises before the
    loop is entered. *)
Lemma crawl_unencodable a s :
  encodable (search_term a) = false ->
  crawl W a s = (Raise UnicodeEncodeError, s).
Proof.
  intros E. unfold crawl, bind, lift, quote_plus. rewrite E. reflexivity.
Qed.

Lemma crawl_encodable a s :
  encodable (search_term a) = true ->
  crawl W a s
  = match crawl_run W a s with
    | (Ok r, s') =>
        (Ok (match r with
             | Some cs => Some (titles cs, dates cs, sources cs, links cs)
             | None => None
             end), s')
    | (Raise e, s') => (Raise e, s')
    end.
Proof.
  intros E. unfold crawl, bind, lift, quote_plus, ret. rewrite E.
  reflexivity.
Qed.

Lemma crawl_fst a s :
  encodable (search_term a) = true ->
  fst (crawl W a s)
  = match fst (crawl_run W a s) with
    | Ok (Some cs) => Ok (Some (titles cs, dates cs, sources cs, links cs))
    | Ok None => Ok None
    | Raise e => Raise e
    end.
Proof.
  intros E. rewrite (crawl_encodable a s E).
  destruct (crawl_run W a s) as [[[cs|]|e] s']; reflexivity.
Qed.

Lemma crawl_snd a s :
  encodable (search_term a) = true ->
  snd (crawl W a s) = snd (crawl_run W a s).
Proof.
  intros E. rewrite (crawl_encodable a s E).
  destruct (crawl_run W a s) as [[[cs|]|e] s']; reflexivity.
Qed.

(** The passes [crawl] allows itself always suffice. *)
Lemma crawl_run_not_none a s : fst (crawl_run W a s) <> Ok None.
Proof.
  unfold crawl_run.
  destruct (crawl_loop_spec a (crawl_fuel a) init_state s)
    as (n & _ & _ & Hr).
  intros E. rewrite E in Hr. unfold crawl_fuel in Hr. simpl in Hr. lia.
Qed.

Lemma crawl_run_consistent a s :
  match fst (crawl_run W a s) with
  | Ok (Some cs) => consistent cs
  | _ => True
  end.
Proof.
  unfold crawl_run.
  destruct (crawl_loop_spec a (crawl_fuel a) init_state s)
    as (n & _ & _ & Hr).
  destruct (fst (crawl_loop W (crawl_fuel a) a init_state s))
    as [[cs|]|e]; auto.
  apply Hr, consistent_init.
Qed.

(** *** A page that fails *)

Lemma iteration_request_exception a cs s :
  page_count cs + 1 <= max_pages a ->
  session_get W (trace s ++ [ELog (LogRequest (page_url a (start cs)))])
              (page_url a (start cs)) = RequestException ->
  iteration W a cs s
  = (Ok (Break, stopped cs),
     {| trace := trace s ++ [ELog (LogRequest (page_url a (start cs)));
                             EGet (page_url a (start cs));
                             ELog LogException];
        files := files s |}).
Proof.
  intros Hle Hresp. unfold iteration. simpl.
  destruct (Z.ltb_spec (max_pages a) (page_count cs + 1)); [lia|].
  unfold bind, log, emit, http_get. simpl. rewrite Hresp. simpl.
  rewrite <- !app_assoc. reflexivity.
Qed.

Lemma iteration_bad_status a cs s code text :
  page_count cs + 1 <= max_pages a ->
  session_get W (trace s ++ [ELog (LogRequest (page_url a (start cs)))])
              (page_url a (start cs)) = Response code text ->
  code <> 200 ->
  iteration W a cs s
  = (Ok (Break, stopped cs),
     {| trace := trace s ++ [ELog (LogRequest (page_url a (start cs)));
                             EGet (page_url a (start cs));
                             ELog (LogStatus code (start cs))];
        files := files s |}).
Proof.
  intros Hle Hresp Hcode. unfold iteration. simpl.
  destruct (Z.ltb_spec (max_pages a) (page_count cs + 1)); [lia|].
  unfold bind, log, emit, http_get. simpl. rewrite Hresp. simpl.
  destruct (Z.eqb_spec code 200); [contradiction|]. simpl.
  rewrite <- !app_assoc. reflexivity.
Qed.

(** *** A page that parses *)

(** After a 200 answer the pass is what follows the parsing. *)
Lemma iteration_ok_page a cs s text :
  page_count cs + 1 <= max_pages a ->
  session_get W (trace s ++ [ELog (LogRequest (page_url a (start cs)))])
              (page_url a (start cs)) = Response 200 text ->
  iteration W a cs s
  = (rows <- parse_page W text ;;
     if negb (match rows with [] => false | _ => true end) then
       write_file W "debug_naver.html" text ;;;
       log (LogNoRows (start cs)) ;;;
       ret (Break, stopped cs)
     else
       let '(cs1, new_cnt) := admit_rows rows (stopped cs) in
       log (LogPage (start cs) (length rows) new_cnt) ;;;
       let cs2 := with_start cs1 (start cs1 + 10) in
       wait_time <- uniform W (fst (sleep_bounds a))
                              (snd (sleep_bounds a)) ;;
       sleep wait_time ;;;
       if (new_cnt =? 0)%nat then
         log LogNoNew ;;;
         ret (Break, cs2)
       else ret (Continue, cs2))
      (requested (page_url a (start cs)) s).
Proof.
  intros Hle Hresp. unfold iteration. simpl.
  destruct (Z.ltb_spec (max_pages a) (page_count cs + 1)); [lia|].
  unfold bind at 1 2. unfold log at 1, emit at 1, http_get. simpl.
  rewrite Hresp. simpl. unfold requested. rewrite state_assoc.
  reflexivity.
Qed.

End LoopLemmas.

(** ** The driver: pages that end the crawl *)

Section PageLemmas.
Context `{PyRuntime} `{PyLibs} (W : World).

Lemma parse_page_no_boxes text s :
  boxes_of (BeautifulSoup text) = [] -> parse_page W text s = (Ok [], s).
Proof. intros E. unfold parse_page. rewrite E. reflexivity. Qed.


Lemma iteration_empty_page a cs s text s2 :
  page_count cs + 1 <= max_pages a ->
  session_get W (trace s ++ [ELog (LogRequest (page_url a (start cs)))])
              (page_url a (start cs)) = Response 200 text ->
  parse_page W text (requested (page_url a (start cs)) s) = (Ok [], s2) ->
  open_ok W (trace s2) "debug_naver.html" = true ->
  encodable text = true ->
  iteration W a cs s
  = (Ok (Break, stopped cs),
     {| trace := trace s2 ++ [EOpen "debug_naver.html";
                              ELog (LogNoRows (start cs))];
        files := <["debug_naver.html" := text]> (files s) |}).
Proof.
  intros Hle Hresp Hparse Hopen Henc.
  rewrite (iteration_ok_page W a cs s text Hle Hresp).
  pose proof (quiet_parse_page W text (requested (page_url a (start cs)) s))
    as [_ Hf].
  unfold bind at 1. rewrite Hparse in *. simpl in Hf. simpl.
  unfold bind, write_file, log, emit. rewrite Hopen, Henc. simpl.
  rewrite Hf, <- app_assoc. reflexivity.
Qed.

Lemma iteration_all_rejected a cs s text rows s2 :
  page_count cs + 1 <= max_pages a ->
  session_get W (trace s ++ [ELog (LogRequest (page_url a (start cs)))])
              (page_url a (start cs)) = Response 200 text ->
  parse_page W text (requested (page_url a (start cs)) s) = (Ok rows, s2) ->
  rows <> [] ->
  Forall (rejected cs) rows ->
  let line := ELog (LogPage (start cs) (length rows) 0) in
  let lo := fst (sleep_bounds a) in
  let hi := snd (sleep_bounds a) in
  let w := random_uniform W (trace s2 ++ [line]) lo hi in
  iteration W a cs s
  = if negb (sleep_fits w)
    then (Raise OverflowError,
          {| trace := trace s2 ++ [line; EUniform lo hi];
             files := files s2 |})
    else if Qle_bool 0 w
    then (Ok (Break, with_start (stopped cs) (start cs + 10)),
          {| trace := trace s2 ++ [line; EUniform lo hi; ESleep w;
                                   ELog LogNoNew];
             files := files s2 |})
    else (Raise ValueError,
          {| trace := trace s2 ++ [line; EUniform lo hi];
             files := files s2 |}).
Proof.
  intros Hle Hresp Hparse Hne Hrej line lo hi w.
  rewrite (iteration_ok_page W a cs s text Hle Hresp).
  unfold bind at 1. rewrite Hparse.
  destruct rows as [|r rows]; [contradiction|]. cbn [negb].
  unfold admit_rows.
  rewrite (fold_admit_rejected (r :: rows) (stopped cs) O Hrej).
  unfold bind, log, emit, uniform, sleep. cbn [fst snd trace files].
  fold line lo hi w.
  destruct (sleep_fits w); cbn [negb];
    [destruct (Qle_bool 0 w)|]; simpl; rewrite <- !app_assoc; reflexivity.
Qed.

End PageLemmas.

(* ===================================================================== *)
(** * The claims about the pagination driver *)
(* ===================================================================== *)

Section DriverClaims.
Context `{PyRuntime} `{PyLibs} (W : World).

(** C1. Every link appears at most once in what [crawl] returns; a row
    whose link is in [seen_links] is never admitted; and a page that
    parses to rows which are all rejected (rows there are, none of them
    new) ends the crawl at that page. When [time.sleep] accepts the wait
    drawn (it fits and is not negative), the loop returns with the four
    columns it had, the line of the early stop logged last; when the wait
    does not fit, [time.sleep] raises [OverflowError]; when it fits and
    is negative, [ValueError]. In every case the page was the last one
    asked for. *)
Theorem crawl_links_deduplicated (a : Args) :
  (forall s,
     match fst (crawl W a s) with
     | Ok (Some (_, _, _, l)) => NoDup l
     | _ => True
     end) /\
  (forall cs n r, Link r ∈ seen_links cs -> admit_row (cs, n) r = (cs, n)) /\
  (forall cs s fuel text rows s2,
     page_count cs + 1 <= max_pages a ->
     session_get W (trace s ++ [ELog (LogRequest (page_url a (start cs)))])
                 (page_url a (start cs)) = Response 200 text ->
     parse_page W text (requested (page_url a (start cs)) s)
     = (Ok rows, s2) ->
     rows <> [] ->
     Forall (rejected cs) rows ->
     let line := ELog (LogPage (start cs) (length rows) 0) in
     let lo := fst (sleep_bounds a) in
     let hi := snd (sleep_bounds a) in
     let w := random_uniform W (trace s2 ++ [line]) lo hi in
     let cs' := with_start (stopped cs) (start cs + 10) in
     let drawn := {| trace := trace s2 ++ [line; EUniform lo hi];
                     files := files s2 |} in
     (sleep_fits w = true -> Qle_bool 0 w = true ->
      crawl_loop W (S fuel) a cs s
      = (Ok (Some cs'),
         {| trace := trace s2 ++ [line; EUniform lo hi; ESleep w;
                                  ELog LogNoNew];
            files := files s2 |})) /\
     (links cs' = links cs /\ titles cs' = titles cs /\
      dates cs' = dates cs /\ sources cs' = sources cs) /\
     (sleep_fits w = false ->
      crawl_loop W (S fuel) a cs s = (Raise OverflowError, drawn)) /\
     (sleep_fits w = true -> Qle_bool 0 w = false ->
      crawl_loop W (S fuel) a cs s = (Raise ValueError, drawn)) /\
     listing_requests (trace (snd (crawl_loop W (S fuel) a cs s)))
     = listing_requests (trace s) ++ [page_url a (start cs)]).
Proof.
  split; [|split].
  - intros s.
    destruct (encodable (search_term a)) eqn:Hq;
      [|rewrite crawl_unencodable by assumption; exact I].
    rewrite crawl_fst by assumption.
    pose proof (crawl_run_consistent W a s) as Hc.
    destruct (fst (crawl_run W a s)) as [[cs|]|e]; auto.
    destruct Hc as (recs & _ & _ & _ & _ & Hnd & _). exact Hnd.
  - intros cs n r Hin. apply admit_rejected. right. exact Hin.
  - intros cs s fuel text rows s2 Hle Hresp Hparse Hne Hrej
           line lo hi w cs' drawn.
    pose proof (quiet_parse_page W text
                  (requested (page_url a (start cs)) s)) as [Hq _].
    rewrite Hparse in Hq. simpl in Hq.
    rewrite !listing_requests_app in Hq. simpl in Hq.
    rewrite crawl_loop_S.
    rewrite (iteration_all_rejected W a cs s text rows s2
               Hle Hresp Hparse Hne Hrej).
    cbv zeta. fold line lo hi w.
    split; [intros -> ->; reflexivity|].
    split; [repeat split|].
    split; [intros ->; reflexivity|].
    split; [intros -> ->; reflexivity|].
    destruct (sleep_fits w); cbn [negb]; [destruct (Qle_bool 0 w)|];
      simpl; rewrite listing_requests_app, Hq; simpl;
      rewrite ?app_nil_r; reflexivity.
Qed.

(** C4. With a maximum of M >= 1 pages, [crawl] ends within the passes it
    allows itself and issues at most M listing requests; the page counter
    goes up by one in every pass and is checked before the request: once
    it exceeds M the pass logs the stop and breaks without a request. *)
Theorem crawl_stops_within_max_pages (a : Args) (s : state) :
  1 <= max_pages a ->
  fst (crawl W a s) <> Ok None /\
  (exists n : nat,
     listing_requests (trace (snd (crawl W a s)))
     = listing_requests (trace s) ++ map (page_url a) (offsets_from 1 n) /\
     Z.of_nat n <= max_pages a) /\
  (forall cs s0,
     max_pages a < page_count cs + 1 ->
     iteration W a cs s0
     = (Ok (Break, stopped cs),
        {| trace := trace s0 ++ [ELog (LogMaxPages (max_pages a))];
           files := files s0 |})) /\
  (forall cs s0 c cs',
     fst (iteration W a cs s0) = Ok (c, cs') ->
     page_count cs' = page_count cs + 1).
Proof.
  intros HM. repeat split.
  - destruct (encodable (search_term a)) eqn:Hq;
      [|rewrite crawl_unencodable by assumption; discriminate].
    rewrite crawl_fst by assumption.
    pose proof (crawl_run_not_none W a s) as Hn.
    destruct (fst (crawl_run W a s)) as [[cs|]|e]; congruence.
  - destruct (encodable (search_term a)) eqn:Hq.
    2:{ rewrite crawl_unencodable by assumption. exists O. simpl.
        rewrite app_nil_r. split; [reflexivity|lia]. }
    rewrite crawl_snd by assumption. unfold crawl_run.
    destruct (crawl_loop_spec W a (crawl_fuel a) init_state s)
      as (n & Hn & Hb & _).
    exists n. split; [exact Hn|]. simpl in Hb. lia.
  - intros cs s0 Hlt.
    destruct (iteration_cases W a cs s0) as [[_ E]|(Hle & _)];
      [exact E|lia].
  - intros cs s0 c cs' E.
    destruct (iteration_cases W a cs s0) as [[_ E']|(_ & _ & Hres)].
    + rewrite E' in E. simpl in E. inversion E. reflexivity.
    + rewrite E in Hres. destruct c; tauto.
Qed.

(** C5. The listing requests of a crawl are those of the offsets 1, 11,
    21, ... in this order, whatever the pages hold: a pass that continues
    has moved the offset by exactly 10. *)
Theorem crawl_offsets_advance_by_ten (a : Args) (s : state) :
  start init_state = 1 /\
  (exists n : nat,
     listing_requests (trace (snd (crawl W a s)))
     = listing_requests (trace s)
       ++ map (page_url a) (map (fun k => 1 + 10 * Z.of_nat k) (seq 0 n))) /\
  (forall cs s0 cs',
     fst (iteration W a cs s0) = Ok (Continue, cs') ->
     start cs' = start cs + 10 /\
     listing_requests (trace (snd (iteration W a cs s0)))
     = listing_requests (trace s0) ++ [page_url a (start cs)]).
Proof.
  split; [reflexivity|]. split.
  - destruct (encodable (search_term a)) eqn:Hq.
    2:{ rewrite crawl_unencodable by assumption. exists O. simpl.
        rewrite app_nil_r. reflexivity. }
    rewrite crawl_snd by assumption. unfold crawl_run.
    destruct (crawl_loop_spec W a (crawl_fuel a) init_state s)
      as (n & Hn & _).
    exists n. exact Hn.
  - intros cs s0 cs' E.
    destruct (iteration_cases W a cs s0) as [[_ E']|(_ & Hreq & Hres)].
    + rewrite E' in E. simpl in E. discriminate.
    + rewrite E in Hres. split; [tauto|exact Hreq].
Qed.


(** C8. When a page of status 200 parses to no row at all (as it does when
    it has no container), the loop writes the body of the response (a
    text UTF-8 can encode, the file being one that can be opened) to
    [debug_naver.html], replacing what the file held, logs it and ends:
    one request for this page, the accumulator as before; a crawl whose
    first page is such a page (its search term encoded by [quote_plus])
    returns four empty columns. *)
Theorem crawl_empty_page_writes_debug (a : Args) (cs : CrawlState)
    (s : state) (text : str) (s2 : state) (fuel : nat) :
  page_count cs + 1 <= max_pages a ->
  session_get W (trace s ++ [ELog (LogRequest (page_url a (start cs)))])
              (page_url a (start cs)) = Response 200 text ->
  parse_page W text (requested (page_url a (start cs)) s) = (Ok [], s2) ->
  open_ok W (trace s2) "debug_naver.html" = true ->
  encodable text = true ->
  let final :=
    {| trace := trace s2 ++ [EOpen "debug_naver.html";
                             ELog (LogNoRows (start cs))];
       files := <["debug_naver.html" := text]> (files s) |} in
  crawl_loop W (S fuel) a cs s = (Ok (Some (stopped cs)), final) /\
  files final !! "debug_naver.html" = Some text /\
  listing_requests (trace final)
  = listing_requests (trace s) ++ [page_url a (start cs)] /\
  (boxes_of (BeautifulSoup text) = [] ->
   s2 = requested (page_url a (start cs)) s) /\
  (cs = init_state -> encodable (search_term a) = true ->
   crawl W a s = (Ok (Some ([], [], [], [])), final)).
Proof.
  intros Hle Hresp Hparse Hopen Henc final.
  assert (E : forall fuel', crawl_loop W (S fuel') a cs s
                            = (Ok (Some (stopped cs)), final)).
  { intros fuel'. rewrite crawl_loop_S.
    rewrite (iteration_empty_page W a cs s text s2 Hle Hresp Hparse Hopen
               Henc).
    reflexivity. }
  split; [apply E|]. split; [|split; [|split]].
  - unfold final. simpl. apply lookup_insert_eq.
  - pose proof (quiet_parse_page W text
                  (requested (page_url a (start cs)) s)) as [Hq _].
    rewrite Hparse in Hq. simpl in Hq.
    unfold final. simpl.
    rewrite listing_requests_app, Hq, listing_requests_app. simpl.
    rewrite ?app_nil_r. reflexivity.
  - intros Hb. rewrite (parse_page_no_boxes W text _ Hb) in Hparse.
    inversion Hparse. reflexivity.
  - intros -> Hq. rewrite crawl_encodable by assumption.
    unfold crawl_run, crawl_fuel. rewrite E. reflexivity.
Qed.

(** C10. The four columns [crawl] returns are the columns of one list of
    records, so they have the same length and their i-th elements belong
    to one record; admitting a row appends exactly one element to each
    column, and the rows admitted from a page are a subsequence of its
    rows, in their order. *)
Theorem crawl_columns_parallel (a : Args) (s : state) :
  match fst (crawl W a s) with
  | Ok (Some (t, d, so, l)) =>
      length t = length d /\ length d = length so /\
      length so = length l /\
      exists recs : list Row,
        t = map Title recs /\ d = map Date recs /\
        so = map Source recs /\ l = map Link recs
  | _ => True
  end /\
  (forall rows cs,
     exists new : list Row,
       sublist new rows /\
       titles (fst (admit_rows rows cs)) = titles cs ++ map Title new /\
       dates (fst (admit_rows rows cs)) = dates cs ++ map Date new /\
       sources (fst (admit_rows rows cs)) = sources cs ++ map Source new /\
       links (fst (admit_rows rows cs)) = links cs ++ map Link new /\
       snd (admit_rows rows cs) = length new).
Proof.
  split.
  - destruct (encodable (search_term a)) eqn:Hq;
      [|rewrite crawl_unencodable by assumption; exact I].
    rewrite crawl_fst by assumption.
    pose proof (crawl_run_consistent W a s) as Hc.
    destruct (fst (crawl_run W a s)) as [[cs|]|e]; auto.
    destruct Hc as (recs & Ht & Hd & Hs & Hl & _).
    rewrite Ht, Hd, Hs, Hl, !length_map.
    repeat split. exists recs. repeat split.
  - intros rows cs. unfold admit_rows.
    destruct (fold_admit_columns rows (cs, O))
      as (new & Hsub & Ht & Hd & Hs & Hl & Hn).
    exists new. simpl in *. repeat split; assumption.
Qed.

End DriverClaims.

(* ===================================================================== *)
(** * The record extractor *)
(* ===================================================================== *)

Lemma truthy_nonempty (s : str) : truthy s = true -> s <> [].
Proof. destruct s; [discriminate|congruence]. Qed.

Lemma not_truthy_empty (s : str) : truthy s = false -> s = [].
Proof. destruct s; [reflexivity|discriminate]. Qed.

Section ExtractorLemmas.
Context `{PyRuntime} `{PyLibs} (W : World).

(** A card that yields a row has a title and a link, and they are the
    row's. *)
Lemma parse_box_some box s row s' :
  parse_box W box s = (Ok (Some row), s') ->
  Title row = _extract_title_from_card box /\ Link row = card_link box /\
  Title row <> [] /\ Link row <> [].
Proof.
  unfold parse_box, card_link.
  destruct (truthy (_extract_title_from_card box)) eqn:Et; simpl;
    [|discriminate].
  destruct (link_anchor box) as [a|]; [|discriminate].
  destruct (truthy (strip _)) eqn:El; simpl; [|discriminate].
  intros E.
  apply bind_ok_inv in E as (d_a & s1 & _ & E).
  apply bind_ok_inv in E as (d_b & s2 & _ & E).
  apply bind_ok_inv in E as (d_c & s3 & _ & E).
  apply bind_ok_inv in E as (d_d & s4 & _ & E).
  apply bind_ok_inv in E as (d_e & s5 & _ & E).
  inversion E; subst; simpl.
  repeat split; auto using truthy_nonempty.
Qed.

Lemma parse_box_untitled box s :
  _extract_title_from_card box = [] -> parse_box W box s = (Ok None, s).
Proof. intros E. unfold parse_box. rewrite E. reflexivity. Qed.

Lemma parse_box_unlinked box s :
  card_link box = [] -> parse_box W box s = (Ok None, s).
Proof.
  unfold parse_box, card_link.
  destruct (truthy (_extract_title_from_card box)); simpl; [|reflexivity].
  destruct (link_anchor box) as [a|]; [|reflexivity].
  intros ->. reflexivity.
Qed.

Lemma parse_boxes_skip box rows rest s :
  parse_box W box s = (Ok None, s) ->
  parse_boxes W rows (box :: rest) s = parse_boxes W rows rest s.
Proof. intros E. simpl. unfold bind. rewrite E. reflexivity. Qed.

Lemma parse_boxes_rows (P : Row -> Prop) boxes :
  (forall box s row s', box ∈ boxes ->
     parse_box W box s = (Ok (Some row), s') -> P row) ->
  forall rows0 s rows s',
    Forall P rows0 ->
    parse_boxes W rows0 boxes s = (Ok rows, s') ->
    Forall P rows.
Proof.
  induction boxes as [|box rest IH]; intros HP rows0 s rows s' Hr0 E.
  - inversion E; subst. exact Hr0.
  - simpl in E. apply bind_ok_inv in E as (r & s1 & Eb & E).
    eapply IH; [| |exact E].
    + intros b s2 row s3 Hb. apply HP. apply list_elem_of_further, Hb.
    + destruct r as [row|]; [|exact Hr0].
      apply Forall_app. split; [exact Hr0|].
      constructor; [|constructor].
      eapply HP; [apply list_elem_of_here|exact Eb].
Qed.

End ExtractorLemmas.

Section ExtractorClaims.
Context `{PyRuntime} `{PyLibs} (W : World).

(** C9. Every row [parse_page] returns has a non-empty title and a
    non-empty link, those of one of the cards of the page; a card for
    which the title chain finds nothing adds no row (whatever publisher
    and date it shows), and neither does a card without a link. *)
Theorem parse_page_rows_have_title_and_link :
  (forall html s rows s',
     parse_page W html s = (Ok rows, s') ->
     Forall (fun r =>
               Title r <> [] /\ Link r <> [] /\
               exists box, box ∈ boxes_of (BeautifulSoup html) /\
                           Title r = _extract_title_from_card box /\
                           Link r = card_link box) rows) /\
  (forall box rows rest s,
     _extract_title_from_card box = [] ->
     parse_boxes W rows (box :: rest) s = parse_boxes W rows rest s) /\
  (forall box rows rest s,
     card_link box = [] ->
     parse_boxes W rows (box :: rest) s = parse_boxes W rows rest s).
Proof.
  split; [|split].
  - intros html s rows s' E. unfold parse_page in E.
    eapply parse_boxes_rows; [| |exact E]; [|constructor].
    intros box s1 row s2 Hb Eb.
    apply parse_box_some in Eb as (Ht & Hl & Hnt & Hnl).
    repeat split; auto. exists box. auto.
  - intros box rows rest s E.
    apply parse_boxes_skip, parse_box_untitled, E.
  - intros box rows rest s E.
    apply parse_boxes_skip, parse_box_unlinked, E.
Qed.

End ExtractorClaims.

(* ===================================================================== *)
(** * The range check of the entry point *)
(* ===================================================================== *)

Section StreamlitClaims.
Context `{PyRuntime} `{PyLibs} (W : World).

(** C7, as the code has it. [streamlit_main] checks the range before it
    calls [crawl]: with a start date after the end date it shows the
    error and returns, and no listing request has been issued. ([crawl]
    itself takes the two dates as text and checks nothing.) *)
Theorem streamlit_rejects_reversed_range (f : Form) (s : state) :
  date_gt (f_start_date_input f) (f_end_date_input f) = true ->
  listing_requests (trace (snd (streamlit_main W f s)))
  = listing_requests (trace s) /\
  (st_installed f = true -> f_submitted f = true ->
   streamlit_main W f s
   = (Ok tt, {| trace := trace s ++ [EUi UiForm; EUi UiRangeError];
                files := files s |})).
Proof.
  intros Hgt. unfold streamlit_main.
  destruct (st_installed f), (f_submitted f); simpl;
    try rewrite Hgt; unfold bind, ui, emit, ret; simpl;
    rewrite ?listing_requests_app; simpl; rewrite ?app_nil_r;
    (split; [reflexivity|]); try (intros; discriminate).
  intros _ _. rewrite <- app_assoc. reflexivity.
Qed.

End StreamlitClaims.

(* ===================================================================== *)
(** * Regular expressions: the matcher and the language *)
(* ===================================================================== *)

Section RegexLemmas.
Context `{PyRuntime}.

Lemma startswith_app l rest : startswith l (l ++ rest) = true.
Proof.
  induction l as [|c l IH]; simpl; [reflexivity|].
  rewrite Z.eqb_refl, IH. reflexivity.
Qed.

Lemma startswith_inv l s :
  startswith l s = true -> s = l ++ drop (length l) s.
Proof.
  revert s. induction l as [|c l IH]; intros s E; simpl in *.
  - reflexivity.
  - destruct s as [|d s]; [discriminate|].
    apply andb_true_iff in E as [E1 E2]. apply Z.eqb_eq in E1. subst d.
    simpl. f_equal. apply IH, E2.
Qed.

Lemma countdown_In n lo j : In j (countdown n lo) <-> (lo <= j <= n)%nat.
Proof.
  induction n as [|n IH]; simpl.
  - destruct lo; simpl; [|split; [tauto|lia]].
    split; [intros [<-|[]]; lia|intros Hj; left; lia].
  - destruct (Nat.ltb_spec (S n) lo); simpl.
    + split; [tauto|lia].
    + rewrite IH. split.
      * intros [<-|Hj]; lia.
      * intros Hj. destruct (Nat.eq_dec j (S n)); [left; auto|right; lia].
Qed.

Lemma run_length_le k s : forall hi j,
  (j <= run_length k hi s)%nat <->
  (j <= length s)%nat /\
  Forall (fun c => in_class k c = true) (take j s) /\
  match hi with Some h => (j <= h)%nat | None => True end.
Proof.
  induction s as [|c s IH]; intros hi j.
  - assert (E : run_length k hi [] = O) by (destruct hi as [[|h]|]; reflexivity).
    rewrite E. simpl. split.
    + intros Hj. assert (j = O) by lia. subst j. simpl.
      repeat split; auto. destruct hi; [lia|exact I].
    + intros (Hj & _). lia.
  - destruct j as [|j].
    { simpl. split; [|lia]. intros _. repeat split; [lia|constructor|].
      destruct hi; [lia|exact I]. }
    destruct hi as [[|h]|]; simpl.
    + split; [lia|]. intros (_ & _ & Hh). lia.
    + destruct (in_class k c) eqn:Ec.
      * rewrite <- Nat.succ_le_mono, (IH (Some h) j). simpl.
        rewrite Forall_cons. split.
        -- intros (H1 & H2 & H3). repeat split; auto; lia.
        -- intros (H1 & [_ H2] & H3). repeat split; auto; lia.
      * split; [lia|]. intros (_ & Hf & _).
        apply Forall_cons in Hf as [Hf _]. congruence.
    + destruct (in_class k c) eqn:Ec.
      * rewrite <- Nat.succ_le_mono, (IH None j). simpl.
        rewrite Forall_cons. split.
        -- intros (H1 & H2 & H3). repeat split; auto; lia.
        -- intros (H1 & [_ H2] & H3). repeat split; auto; lia.
      * split; [lia|]. intros (_ & Hf & _).
        apply Forall_cons in Hf as [Hf _]. congruence.
Qed.

(** The matcher finds exactly the prefixes in the language. *)
Theorem rmatch_matches r : forall s m,
  In m (rmatch r s) <->
  matches r (m_text m) (m_groups m) /\ s = m_text m ++ m_rest m.
Proof.
  induction r as [l|k lo hi|r1 IH1 r2 IH2|r1 IH1 r2 IH2|r1 IH1];
    intros s m; simpl.
  - destruct (startswith l s) eqn:E; simpl.
    + split.
      * intros [<-|[]]. simpl. split; [constructor|].
        apply startswith_inv, E.
      * intros [Hm ->]. left. destruct m as [t g rest]. simpl in *.
        inversion Hm; subst. rewrite drop_app_length. reflexivity.
    + split; [tauto|]. intros [Hm ->]. destruct m as [t g rest].
      simpl in *. inversion Hm; subst.
      rewrite startswith_app in E. discriminate.
  - rewrite in_map_iff. split.
    + intros (j & <- & Hj). apply countdown_In in Hj as [Hlo Hj].
      apply run_length_le in Hj as (Hlen & Hf & Hhi). simpl.
      split; [|symmetry; apply take_drop].
      constructor; rewrite ?length_take_le by assumption; auto.
    + intros [Hm ->]. destruct m as [t g rest]. simpl in *.
      inversion Hm; subst. exists (length t).
      rewrite take_app_length, drop_app_length. split; [reflexivity|].
      apply countdown_In. split; [assumption|].
      apply run_length_le. rewrite take_app_length, length_app.
      repeat split; auto. lia.
  - rewrite in_app_iff, IH1, IH2. split.
    + intros [[Hm E]|[Hm E]]; split; auto using M_alt_l, M_alt_r.
    + intros [Hm E]. inversion Hm; subst; [left|right]; auto.
  - rewrite in_flat_map. split.
    + intros (m1 & H1 & Hm). apply in_map_iff in Hm as (m2 & <- & H2).
      apply IH1 in H1 as [H1 E1]. apply IH2 in H2 as [H2 E2]. simpl.
      split; [constructor; assumption|].
      rewrite E1, E2, app_assoc. reflexivity.
    + intros [Hm ->]. destruct m as [t g rest]. simpl in *.
      inversion Hm; subst.
      exists (RM t1 g1 (t2 ++ rest)). split.
      * apply IH1. simpl. split; [assumption|].
        rewrite app_assoc. reflexivity.
      * apply in_map_iff. exists (RM t2 g2 rest). simpl.
        split; [reflexivity|]. apply IH2. simpl. auto.
  - rewrite in_map_iff. split.
    + intros (m1 & <- & H1). apply IH1 in H1 as [H1 E1]. simpl.
      split; [constructor; assumption|assumption].
    + intros [Hm ->]. destruct m as [t g rest]. simpl in *.
      inversion Hm; subst. exists (RM t g0 rest). simpl.
      split; [reflexivity|]. apply IH1. simpl. auto.
Qed.

(** [search] reports a match of the language at the leftmost position
    that has one. *)
Lemma search_Some r s m :
  search r s = Some m ->
  exists pre suf tl,
    s = pre ++ suf /\ rmatch r suf = m :: tl /\
    (forall pre' suf', s = pre' ++ suf' ->
                       (length pre' < length pre)%nat ->
                       rmatch r suf' = []).
Proof.
  induction s as [|c s IH]; simpl.
  - destruct (rmatch r []) as [|m0 tl] eqn:E; [discriminate|].
    intros E'. inversion E'; subst. exists [], [], tl.
    repeat split; auto. intros pre' suf' _ Hl. simpl in Hl. lia.
  - destruct (rmatch r (c :: s)) as [|m0 tl] eqn:E.
    + intros E'. destruct (IH E') as (pre & suf & tl & -> & Hm & Hleft).
      exists (c :: pre), suf, tl. repeat split; auto.
      intros pre' suf' Hs Hl. destruct pre' as [|c' pre'].
      * simpl in Hs. subst suf'. exact E.
      * simpl in Hs, Hl. injection Hs as _ Hs.
        eapply Hleft; [exact Hs|lia].
    + intros E'. inversion E'; subst. exists [], (c :: s), tl.
      repeat split; auto. intros pre' suf' _ Hl. simpl in Hl. lia.
Qed.

Lemma search_None r s :
  search r s = None <-> (forall pre suf, s = pre ++ suf -> rmatch r suf = []).
Proof.
  induction s as [|c s IH]; simpl.
  - destruct (rmatch r []) as [|m0 tl] eqn:E.
    + split; [|reflexivity]. intros _ pre suf Hs.
      symmetry in Hs. apply app_eq_nil in Hs as [_ ->]. exact E.
    + split; [discriminate|]. intros Hall.
      rewrite (Hall [] [] eq_refl) in E. discriminate.
  - destruct (rmatch r (c :: s)) as [|m0 tl] eqn:E.
    + rewrite IH. split.
      * intros Hall pre suf Hs. destruct pre as [|c' pre].
        -- simpl in Hs. subst suf. exact E.
        -- simpl in Hs. injection Hs as _ Hs. eapply Hall. exact Hs.
      * intros Hall pre suf Hs. apply (Hall (c :: pre)). simpl. congruence.
    + split; [discriminate|]. intros Hall.
      rewrite (Hall [] (c :: s) eq_refl) in E. discriminate.
Qed.

(** [search] finds nothing exactly when the expression occurs nowhere. *)
Lemma search_None_occurs r s : search r s = None <-> ~ occurs r s.
Proof.
  rewrite search_None. split.
  - intros Hall (pre & t & post & g & -> & Hm).
    assert (Hin : In (RM t g post) (rmatch r (t ++ post))).
    { apply rmatch_matches. simpl. auto. }
    rewrite (Hall pre (t ++ post) eq_refl) in Hin. exact Hin.
  - intros Hno pre suf ->.
    destruct (rmatch r suf) as [|m tl] eqn:E; [reflexivity|]. exfalso.
    apply Hno. assert (Hin : In m (rmatch r suf)) by (rewrite E; left; auto).
    apply rmatch_matches in Hin as [Hm ->].
    exists pre, (m_text m), (m_rest m), (m_groups m). auto.
Qed.

(** What [search] finds is an occurrence in the language. *)
Lemma search_Some_matches r s m :
  search r s = Some m ->
  matches r (m_text m) (m_groups m) /\
  exists pre, s = pre ++ m_text m ++ m_rest m.
Proof.
  intros E. apply search_Some in E as (pre & suf & tl & -> & Hm & _).
  assert (Hin : In m (rmatch r suf)) by (rewrite Hm; left; auto).
  apply rmatch_matches in Hin as [Hmat ->]. eauto.
Qed.

Lemma search_occurs r s : occurs r s -> exists m, search r s = Some m.
Proof.
  intros Ho. destruct (search r s) as [m|] eqn:E; [eauto|].
  apply search_None_occurs in E. contradiction.
Qed.

End RegexLemmas.

(* ===================================================================== *)
(** * Dates in URLs *)
(* ===================================================================== *)

(** Taking a match apart, and putting one together. *)
Ltac inv_matches :=
  repeat match goal with
    | Hm : matches (RCat _ _) _ _ |- _ => inversion Hm; clear Hm; subst
    | Hm : matches (RGroup _) _ _ |- _ => inversion Hm; clear Hm; subst
    | Hm : matches (RLit _) _ _ |- _ => inversion Hm; clear Hm; subst
    | Hm : matches (RAlt _ _) _ _ |- _ => inversion Hm; clear Hm; subst
    | Hm : matches (RRep _ _ _) _ _ |- _ => inversion Hm; clear Hm; subst
    end.

Ltac build_matches :=
  repeat first
    [ apply M_lit | apply M_cat | apply M_group
    | apply M_rep; [assumption|simpl; lia|simpl; lia] ].

Section UrlLemmas.
Context `{PyRuntime}.

(** What [search] finds is the leftmost occurrence of the language. *)
Lemma search_Some_first r s m :
  search r s = Some m ->
  matches r (m_text m) (m_groups m) /\
  exists pre,
    s = pre ++ m_text m ++ m_rest m /\
    forall pre' t post g,
      s = pre' ++ t ++ post -> matches r t g ->
      (length pre <= length pre')%nat.
Proof.
  intros E. apply search_Some in E as (pre & suf & tl & -> & Hm & Hleft).
  assert (Hin : In m (rmatch r suf)) by (rewrite Hm; left; auto).
  apply rmatch_matches in Hin as [Hmat ->].
  split; [assumption|]. exists pre. split; [reflexivity|].
  intros pre' t post g Hs Hmat'.
  destruct (Nat.le_gt_cases (length pre) (length pre')) as [|Hlt]; auto.
  exfalso.
  assert (Hin : In (RM t g post) (rmatch r (t ++ post))).
  { apply rmatch_matches. simpl. auto. }
  rewrite (Hleft pre' (t ++ post) Hs Hlt) in Hin. exact Hin.
Qed.

Lemma URL_PAT1_eq :
  URL_PAT1
  = RCat (RLit [47])
      (RCat (RGroup (RCat (RLit [50; 48]) (RRep CDigit 2 (Some 2%nat))))
         (RCat (RGroup (RRep CDigit 2 (Some 2%nat)))
            (RCat (RGroup (RRep CDigit 2 (Some 2%nat))) (RLit [47])))).
Proof. reflexivity. Qed.

Lemma URL_PAT2_eq :
  URL_PAT2
  = RCat (RLit [47])
      (RCat (RGroup (RCat (RLit [50; 48]) (RRep CDigit 2 (Some 2%nat))))
         (RCat (RLit [47])
            (RCat (RGroup (RRep CDigit 1 (Some 2%nat)))
               (RCat (RLit [47])
                  (RCat (RGroup (RRep CDigit 1 (Some 2%nat)))
                     (RLit [47])))))).
Proof. reflexivity. Qed.

Lemma URL_PAT3_eq :
  URL_PAT3
  = RCat (RLit [47])
      (RCat (RGroup (RCat (RLit [50; 48]) (RRep CDigit 2 (Some 2%nat))))
         (RCat (RGroup (RRep CDigit 2 (Some 2%nat)))
            (RGroup (RRep CDigit 2 (Some 2%nat))))).
Proof. reflexivity. Qed.

Lemma length_2_inv (t : str) :
  (2 <= length t)%nat -> (length t <= 2)%nat -> exists a b, t = [a; b].
Proof.
  destruct t as [|a [|b [|c t]]]; simpl; intros; try lia. eauto.
Qed.

Lemma year20_intro (t : str) :
  Forall (fun c => in_class CDigit c = true) t ->
  (2 <= length t)%nat -> (length t <= 2)%nat ->
  year20 ([50; 48] ++ t).
Proof.
  intros Hf H1 H2. destruct (length_2_inv t H1 H2) as (a & b & ->).
  exists a, b. split; [reflexivity|exact Hf].
Qed.

Lemma matches_URL_PAT1 w g :
  matches URL_PAT1 w g <->
  exists y mo d, g = [y; mo; d] /\ shape_compact_closed w y mo d.
Proof.
  rewrite URL_PAT1_eq. split.
  - intros Hm. inv_matches. simpl.
    eexists _, _, _. split; [reflexivity|].
    split; [apply year20_intro; assumption|].
    repeat split; auto; lia.
  - intros (y & mo & d & -> & (a & b & -> & Hy) & Hmo & Lmo & Hd & Ld & ->).
    change (matches
              (RCat (RLit [47])
                 (RCat (RGroup (RCat (RLit [50; 48])
                                     (RRep CDigit 2 (Some 2%nat))))
                    (RCat (RGroup (RRep CDigit 2 (Some 2%nat)))
                       (RCat (RGroup (RRep CDigit 2 (Some 2%nat)))
                          (RLit [47])))))
              ([47] ++ (([50; 48] ++ [a; b]) ++ (mo ++ (d ++ [47]))))
              ([] ++ ((([50; 48] ++ [a; b]) :: ([] ++ []))
                      ++ ((mo :: []) ++ ((d :: []) ++ []))))).
    build_matches.
Qed.

Lemma matches_URL_PAT3 w g :
  matches URL_PAT3 w g <->
  exists y mo d, g = [y; mo; d] /\ shape_compact w y mo d.
Proof.
  rewrite URL_PAT3_eq. split.
  - intros Hm. inv_matches. simpl.
    eexists _, _, _. split; [reflexivity|].
    split; [apply year20_intro; assumption|].
    repeat split; auto; try lia.
  - intros (y & mo & d & -> & (a & b & -> & Hy) & Hmo & Lmo & Hd & Ld & ->).
    change (matches
              (RCat (RLit [47])
                 (RCat (RGroup (RCat (RLit [50; 48])
                                     (RRep CDigit 2 (Some 2%nat))))
                    (RCat (RGroup (RRep CDigit 2 (Some 2%nat)))
                       (RGroup (RRep CDigit 2 (Some 2%nat))))))
              ([47] ++ (([50; 48] ++ [a; b]) ++ (mo ++ d)))
              ([] ++ ((([50; 48] ++ [a; b]) :: ([] ++ []))
                      ++ ((mo :: []) ++ (d :: []))))).
    build_matches.
Qed.

Lemma matches_URL_PAT2 w g :
  matches URL_PAT2 w g <->
  exists y mo d, g = [y; mo; d] /\ shape_slashed w y mo d.
Proof.
  rewrite URL_PAT2_eq. split.
  - intros Hm. inv_matches. simpl.
    eexists _, _, _. split; [reflexivity|].
    split; [apply year20_intro; assumption|].
    repeat split; auto; lia.
  - intros (y & mo & d & -> & (a & b & -> & Hy) & Hmo & Lmo & Hd & Ld & ->).
    change (matches
              (RCat (RLit [47])
                 (RCat (RGroup (RCat (RLit [50; 48])
                                     (RRep CDigit 2 (Some 2%nat))))
                    (RCat (RLit [47])
                       (RCat (RGroup (RRep CDigit 1 (Some 2%nat)))
                          (RCat (RLit [47])
                             (RCat (RGroup (RRep CDigit 1 (Some 2%nat)))
                                (RLit [47])))))))
              ([47] ++ (([50; 48] ++ [a; b])
                        ++ ([47] ++ (mo ++ ([47] ++ (d ++ [47]))))))
              ([] ++ ((([50; 48] ++ [a; b]) :: ([] ++ []))
                      ++ ([] ++ ((mo :: [])
                                 ++ ([] ++ ((d :: []) ++ []))))))).
    build_matches.
Qed.

(** A pattern whose language is a shape finds the leftmost occurrence
    of the shape, and nothing when there is none. *)
Lemma search_shape (P : regex)
    (S : str -> str -> str -> str -> Prop) (url : str) :
  (forall w g, matches P w g <->
               exists y mo d, g = [y; mo; d] /\ S w y mo d) ->
  (has_shape S url ->
   exists m w y mo d,
     search P url = Some m /\ m_groups m = [y; mo; d] /\
     first_shape S url w y mo d) /\
  (~ has_shape S url -> search P url = None).
Proof.
  intros HPS. split.
  - intros (pre & w & post & y & mo & d & Hu & Hs).
    destruct (search_occurs P url) as [m E].
    { exists pre, w, post, [y; mo; d]. split; [exact Hu|].
      apply HPS. eauto. }
    destruct (search_Some_first P url m E) as (Hm & pre0 & Hu0 & Hfirst).
    apply HPS in Hm as (y0 & mo0 & d0 & Hg & Hs0).
    exists m, (m_text m), y0, mo0, d0. repeat split; auto.
    exists pre0, (m_rest m). repeat split; auto.
    intros pre' w' post' y' mo' d' Hu' Hs'.
    apply (Hfirst pre' w' post' [y'; mo'; d'] Hu').
    apply HPS. eauto.
  - intros Hno. apply search_None_occurs.
    intros (pre & t & post & g & Hu & Hm). apply Hno.
    apply HPS in Hm as (y & mo & d & _ & Hs).
    exists pre, t, post, y, mo, d. auto.
Qed.

Lemma no_shape_by_search (P : regex)
    (S : str -> str -> str -> str -> Prop) (url : str) :
  (forall w g, matches P w g <->
               exists y mo d, g = [y; mo; d] /\ S w y mo d) ->
  search P url = None -> ~ has_shape S url.
Proof.
  intros HPS E Hh.
  destruct (search_shape P S url HPS) as [Hsome _].
  destruct (Hsome Hh) as (m & _ & _ & _ & _ & E' & _). congruence.
Qed.

Lemma all_from_spec f n : forall lo,
  all_from f n lo = true ->
  forall z, lo <= z < lo + Z.of_nat n -> f z = true.
Proof.
  induction n as [|n IH]; intros lo Hall z Hz; [lia|].
  simpl in Hall. apply andb_true_iff in Hall as [H0 Hall].
  destruct (Z.eq_dec z lo) as [->|Hne]; [exact H0|].
  apply (IH (lo + 1) Hall). lia.
Qed.

Lemma fmt_0d_two v : 0 <= v <= 99 -> fmt_0d 2 v = two_digits v.
Proof.
  intros Hv.
  assert (Hall : all_from
                   (fun v => bool_decide (fmt_0d 2 v = two_digits v))
                   100 0 = true)
    by (vm_compute; reflexivity).
  pose proof (all_from_spec _ _ _ Hall v) as Hb.
  assert (Hr : 0 <= v < 0 + Z.of_nat 100) by lia.
  specialize (Hb Hr). cbv beta in Hb.
  apply bool_decide_eq_true_1 in Hb. exact Hb.
Qed.

Lemma digit_value c : isdigit c = true -> exists v, decimal c = Some v /\ 0 <= v <= 9.
Proof.
  unfold isdigit. destruct (decimal c) as [v|] eqn:E; [|discriminate].
  intros _. exists v. split; [reflexivity|]. eapply decimal_range, E.
Qed.

(** [int] reads one or two digits as a number below 100. *)
Lemma py_int_small s :
  digits s -> (1 <= length s <= 2)%nat ->
  exists v, py_int s = Ok v /\ int_digits 0 s = Some v /\ 0 <= v <= 99.
Proof.
  intros Hd Hl.
  assert (Hv : exists v, int_digits 0 s = Some v /\ 0 <= v <= 99).
  { destruct s as [|a [|b [|c s]]]; simpl in Hl; try lia.
    - apply Forall_cons in Hd as [Ha _].
      destruct (digit_value a Ha) as (va & Ea & Ra).
      simpl. rewrite Ea. exists (10 * 0 + va). split; [reflexivity|lia].
    - apply Forall_cons in Hd as [Ha Hd]. apply Forall_cons in Hd as [Hb _].
      destruct (digit_value a Ha) as (va & Ea & Ra).
      destruct (digit_value b Hb) as (vb & Eb & Rb).
      simpl. rewrite Ea, Eb. exists (10 * (10 * 0 + va) + vb).
      split; [reflexivity|lia]. }
  destruct Hv as (v & Ev & Rv). exists v. repeat split; try tauto.
  unfold py_int.
  destruct s as [|c s]; [simpl in Hl; lia|]. rewrite Ev.
  destruct max_str_digits as [limit|] eqn:El; [|reflexivity].
  apply max_str_digits_min in El.
  destruct (Nat.ltb_spec limit (length (c :: s))); [lia|reflexivity].
Qed.

Lemma compact_closed_is_compact url :
  has_shape shape_compact_closed url -> has_shape shape_compact url.
Proof.
  intros (pre & w & post & y & mo & d & -> & Hy & Hmo & Lmo & Hd & Ld & ->).
  exists pre, ([47] ++ y ++ mo ++ d), ([47] ++ post), y, mo, d.
  split; [|repeat split; auto].
  rewrite <- !app_assoc. reflexivity.
Qed.

End UrlLemmas.

Section UrlClaims.
Context `{PyRuntime}.

(** C3, as the code has it. [_extract_date_from_url] is a total function
    (nothing can raise out of its [try]). Of the three shapes it tries
    [/20YYMMDD/] first, then [/20YY/M/D/], then [/20YYMMDD] (the slash in
    front is part of every shape, and the year starts with 20); it returns
    the fields of the leftmost occurrence of the first shape that occurs,
    as [y.mm.dd], month and day of [/20YY/M/D/] padded to two digits; and
    it returns the empty string when none of the shapes occurs. *)
Theorem extract_date_from_url_shapes (url : str) :
  (has_shape shape_compact_closed url ->
   exists w y mo d,
     first_shape shape_compact_closed url w y mo d /\
     _extract_date_from_url url = y ++ [46] ++ mo ++ [46] ++ d) /\
  (~ has_shape shape_compact_closed url -> has_shape shape_slashed url ->
   exists w y mo d a b,
     first_shape shape_slashed url w y mo d /\
     int_digits 0 mo = Some a /\ int_digits 0 d = Some b /\
     _extract_date_from_url url
     = y ++ [46] ++ two_digits a ++ [46] ++ two_digits b) /\
  (~ has_shape shape_compact_closed url -> ~ has_shape shape_slashed url ->
   has_shape shape_compact url ->
   exists w y mo d,
     first_shape shape_compact url w y mo d /\
     _extract_date_from_url url = y ++ [46] ++ mo ++ [46] ++ d) /\
  (~ has_shape shape_slashed url -> ~ has_shape shape_compact url ->
   _extract_date_from_url url = []).
Proof.
  destruct (search_shape URL_PAT1 shape_compact_closed url
              matches_URL_PAT1) as [H1 N1].
  destruct (search_shape URL_PAT2 shape_slashed url
              matches_URL_PAT2) as [H2 N2].
  destruct (search_shape URL_PAT3 shape_compact url
              matches_URL_PAT3) as [H3 N3].
  unfold _extract_date_from_url, url_date_try.
  split; [|split; [|split]].
  - intros Hh. destruct (H1 Hh) as (m & w & y & mo & d & E & Hg & Hf).
    rewrite E, Hg. exists w, y, mo, d. split; [exact Hf|reflexivity].
  - intros Hn Hh. rewrite (N1 Hn).
    destruct (H2 Hh) as (m & w & y & mo & d & E & Hg & Hf).
    rewrite E, Hg.
    destruct Hf as (pre & post & Hu & Hs & Hfirst).
    pose proof Hs as (_ & Hmo & Lmo & Hd & Ld & _).
    destruct (py_int_small mo Hmo Lmo) as (a & Ea & Ia & Ra).
    destruct (py_int_small d Hd Ld) as (b & Eb & Ib & Rb).
    rewrite Ea, Eb, !fmt_0d_two by assumption.
    exists w, y, mo, d, a, b. repeat split; auto.
    exists pre, post. auto.
  - intros Hn1 Hn2 Hh. rewrite (N1 Hn1), (N2 Hn2).
    destruct (H3 Hh) as (m & w & y & mo & d & E & Hg & Hf).
    rewrite E, Hg. exists w, y, mo, d. split; [exact Hf|reflexivity].
  - intros Hn2 Hn3.
    assert (Hn1 : ~ has_shape shape_compact_closed url).
    { intros Hh. apply Hn3, compact_closed_is_compact, Hh. }
    rewrite (N1 Hn1), (N2 Hn2), (N3 Hn3). reflexivity.
Qed.

End UrlClaims.

(* ===================================================================== *)
(** * The calendar *)
(* ===================================================================== *)

(** The year of the era and the day of the year of a day of an era. *)
Lemma era_year doe :
  0 <= doe < 146097 ->
  let yoe := (doe - doe / 1460 + doe / 36524 - doe / 146096) / 365 in
  let doy := doe - (365 * yoe + yoe / 4 - yoe / 100) in
  0 <= yoe <= 399 /\ 0 <= doy <= 365 /\
  (doy = 365 ->
   (yoe + 1) mod 4 = 0 /\ ((yoe + 1) mod 100 <> 0 \/ (yoe + 1) mod 400 = 0)).
Proof.
  intros Hd yoe doy. subst yoe doy.
  Z.div_mod_to_equations. lia.
Qed.

(** The month and the day of a day of a year that starts in March. *)
Lemma year_month doy :
  0 <= doy <= 365 ->
  let mp := (5 * doy + 2) / 153 in
  let d := doy - (153 * mp + 2) / 5 + 1 in
  0 <= mp <= 11 /\ 1 <= d <= 31 /\
  (mp = 1 \/ mp = 3 \/ mp = 6 \/ mp = 8 -> d <= 30) /\
  (mp = 11 -> d <= 29 /\ (d = 29 -> doy = 365)).
Proof.
  intros Hd mp d. subst mp d.
  Z.div_mod_to_equations. lia.
Qed.

Lemma is_leap_true y :
  y mod 4 = 0 -> (y mod 100 <> 0 \/ y mod 400 = 0) -> is_leap y = true.
Proof.
  intros H4 H100. unfold is_leap.
  destruct (Z.eqb_spec (y mod 4) 0); [|contradiction]. simpl.
  destruct (Z.eqb_spec (y mod 100) 0), (Z.eqb_spec (y mod 400) 0);
    simpl; auto. tauto.
Qed.

(** [civil_from_days] is the inverse of [days_from_civil], and what it
    returns is a day of the calendar. *)
Lemma civil_from_days_spec z :
  let '(y, m, d) := civil_from_days z in
  days_from_civil y m d = z /\ 1 <= m <= 12 /\ 1 <= d <= days_in_month y m.
Proof.
  unfold civil_from_days, civil_of_doe.
  set (z0 := z + 719468).
  set (era := z0 / 146097). set (doe := z0 mod 146097).
  assert (Hdoe : 0 <= doe < 146097) by (apply Z.mod_pos_bound; lia).
  assert (Hz0 : z0 = 146097 * era + doe) by (apply Z.div_mod; lia).
  destruct (era_year doe Hdoe) as (Hyoe & Hdoy & Hleap).
  set (yoe := (doe - doe / 1460 + doe / 36524 - doe / 146096) / 365) in *.
  set (doy := doe - (365 * yoe + yoe / 4 - yoe / 100)) in *.
  destruct (year_month doy Hdoy) as (Hmp & Hd & H30 & Hfeb).
  set (mp := (5 * doy + 2) / 153) in *.
  set (d := doy - (153 * mp + 2) / 5 + 1) in *.
  cbv zeta.
  assert (Hera : forall c, 0 <= yoe + c <= 399 ->
                           (yoe + c + era * 400) / 400 = era /\
                           (yoe + c + era * 400) mod 400 = yoe + c).
  { intros c Hc. rewrite Z.div_add, Z.mod_add by lia.
    rewrite Z.div_small, Z.mod_small by lia. lia. }
  destruct (Z.ltb_spec mp 10) as [Hlt|Hge].
  - (* March to December *)
    destruct (Z.leb_spec (mp + 3) 2) as [|_]; [lia|].
    unfold days_from_civil, doe_of_civil.
    destruct (Z.leb_spec (mp + 3) 2) as [|_]; [lia|].
    destruct (Z.ltb_spec 2 (mp + 3)) as [_|]; [|lia].
    destruct (Hera 0 ltac:(lia)) as [E1 E2].
    rewrite Z.add_0_r in *. rewrite E1, E2.
    replace (mp + 3 - 3) with mp by lia.
    split; [unfold d, doy; lia|]. split; [lia|]. split; [lia|].
    unfold days_in_month.
    destruct (Z.eqb_spec (mp + 3) 2); [lia|].
    destruct (Z.eqb_spec (mp + 3) 4), (Z.eqb_spec (mp + 3) 6),
      (Z.eqb_spec (mp + 3) 9), (Z.eqb_spec (mp + 3) 11); simpl; lia.
  - (* January and February, of the next year *)
    destruct (Z.leb_spec (mp - 9) 2) as [_|]; [|lia].
    unfold days_from_civil, doe_of_civil.
    destruct (Z.leb_spec (mp - 9) 2) as [_|]; [|lia].
    destruct (Z.ltb_spec 2 (mp - 9)) as [|_]; [lia|].
    replace (yoe + 1 + era * 400 - 1) with (yoe + 0 + era * 400) by lia.
    destruct (Hera 0 ltac:(lia)) as [E1 E2].
    rewrite E1, E2, Z.add_0_r.
    replace (mp - 9 + 9) with mp by lia.
    split; [unfold d, doy; lia|]. split; [lia|]. split; [lia|].
    unfold days_in_month.
    destruct (Z.eqb_spec (mp - 9) 2) as [Hfebr|Hjan].
    + assert (Hmp11 : mp = 11) by lia.
      destruct (Hfeb Hmp11) as [H29 Hd29].
      destruct (is_leap (yoe + 1 + era * 400)) eqn:El; [lia|].
      destruct (Z.eq_dec d 29) as [E29|]; [|lia].
      destruct (Hleap (Hd29 E29)) as [L4 L100].
      rewrite is_leap_true in El; [discriminate| |].
      * replace (yoe + 1 + era * 400) with (yoe + 1 + era * 100 * 4) by lia.
        rewrite Z.mod_add by lia. exact L4.
      * replace (yoe + 1 + era * 400) with (yoe + 1 + era * 4 * 100) at 1
          by lia.
        rewrite !Z.mod_add by lia. exact L100.
    + destruct (Z.eqb_spec (mp - 9) 4), (Z.eqb_spec (mp - 9) 6),
        (Z.eqb_spec (mp - 9) 9), (Z.eqb_spec (mp - 9) 11); simpl; lia.
Qed.

Lemma days_in_month_le_31 y m : days_in_month y m <= 31.
Proof.
  unfold days_in_month.
  destruct (m =? 2); [destruct (is_leap y); lia|].
  destruct ((m =? 4) || (m =? 6) || (m =? 9) || (m =? 11)); lia.
Qed.

(* ===================================================================== *)
(** * Relative times *)
(* ===================================================================== *)

Lemma year_check_all y : 0 <= y <= 9999 -> year_check y = true.
Proof.
  intros Hy.
  assert (Hall : all_from year_check (Z.to_nat 10000) 0 = true)
    by (vm_compute; reflexivity).
  apply (all_from_spec _ _ _ Hall). lia.
Qed.

Section RelativeLemmas.
Context `{PyRuntime}.

Lemma fmt_year_four y : 1000 <= y <= 9999 -> fmt_year y = four_digits y.
Proof.
  intros Hy. pose proof (year_check_all y ltac:(lia)) as Hc.
  unfold year_check in Hc.
  destruct (Z.ltb_spec y 1000); [lia|]. simpl in Hc.
  apply andb_true_iff in Hc as [H1 H2].
  apply bool_decide_eq_true_1 in H1, H2.
  unfold fmt_year. destruct pad_year; assumption.
Qed.

Lemma REL_PAT_eq :
  REL_PAT
  = RCat (RGroup (RRep CDigit 1 None))
      (RCat (RRep CSpace 0 None)
         (RCat (RGroup (RAlt (RLit U_bun)
                             (RAlt (RLit U_sigan) (RLit U_il))))
            (RCat (RRep CSpace 0 None) (RLit U_jeon)))).
Proof. reflexivity. Qed.

Lemma matches_REL_PAT w g :
  matches REL_PAT w g <->
  exists ds u, g = [ds; u] /\ relative_phrase w ds u.
Proof.
  rewrite REL_PAT_eq. split.
  - intros Hm. inv_matches;
      (eexists _, _; split; [reflexivity|]);
      refine (ex_intro _ _ (ex_intro _ _
                (conj _ (conj _ (conj _ (conj _ (conj _ eq_refl)))))));
      try assumption;
      try (unfold time_unit; tauto);
      intros E; subst; simpl in *; lia.
  - intros (ds & u & -> & ws & ws' & Hds & Hne & Hws & Hu & Hws' & ->).
    assert (Hl : (1 <= length ds)%nat)
      by (destruct ds; [contradiction|simpl; lia]).
    change (matches
              (RCat (RGroup (RRep CDigit 1 None))
                 (RCat (RRep CSpace 0 None)
                    (RCat (RGroup (RAlt (RLit U_bun)
                                        (RAlt (RLit U_sigan) (RLit U_il))))
                       (RCat (RRep CSpace 0 None) (RLit U_jeon)))))
              (ds ++ (ws ++ (u ++ (ws' ++ U_jeon))))
              ((ds :: []) ++ ([] ++ ((u :: []) ++ ([] ++ []))))).
    apply M_cat; [apply M_group, M_rep; [exact Hds|exact Hl|exact I]|].
    apply M_cat; [apply M_rep; [exact Hws|simpl; lia|exact I]|].
    apply M_cat.
    + apply M_group. destruct Hu as [-> | [-> | ->]].
      * apply M_alt_l, M_lit.
      * apply M_alt_r, M_alt_l, M_lit.
      * apply M_alt_r, M_alt_r, M_lit.
    + apply M_cat; [apply M_rep; [exact Hws'|simpl; lia|exact I]|].
      apply M_lit.
Qed.

(** [REL_PAT.search] finds the leftmost relative-time phrase, and
    nothing when there is none. *)
Lemma search_REL_PAT t :
  (has_relative_phrase t ->
   exists m w ds u,
     search REL_PAT t = Some m /\ m_groups m = [ds; u] /\
     first_relative_phrase t w ds u) /\
  (~ has_relative_phrase t -> search REL_PAT t = None).
Proof.
  split.
  - intros (pre & w & post & ds & u & Ht & Hp).
    destruct (search_occurs REL_PAT t) as [m E].
    { exists pre, w, post, [ds; u]. split; [exact Ht|].
      apply matches_REL_PAT. eauto. }
    destruct (search_Some_first REL_PAT t m E) as (Hm & pre0 & Ht0 & Hfirst).
    apply matches_REL_PAT in Hm as (ds0 & u0 & Hg & Hp0).
    exists m, (m_text m), ds0, u0. repeat split; auto.
    exists pre0, (m_rest m). repeat split; auto.
    intros pre' w' post' ds' u' Ht' Hp'.
    apply (Hfirst pre' w' post' [ds'; u'] Ht').
    apply matches_REL_PAT. eauto.
  - intros Hno. apply search_None_occurs.
    intros (pre & w & post & g & Ht & Hm). apply Hno.
    apply matches_REL_PAT in Hm as (ds & u & _ & Hp).
    exists pre, w, post, ds, u. auto.
Qed.

Lemma no_phrase_by_search t :
  search REL_PAT t = None -> ~ has_relative_phrase t.
Proof.
  intros E Hh. destruct (search_REL_PAT t) as [Hsome _].
  destruct (Hsome Hh) as (m & _ & _ & _ & E' & _). congruence.
Qed.

Lemma int_digits_nonneg s : digits s -> forall acc, 0 <= acc ->
  exists v, int_digits acc s = Some v /\ 0 <= v.
Proof.
  induction 1 as [|c s Hc _ IH]; intros acc Hacc; simpl.
  - eauto.
  - destruct (digit_value c Hc) as (vc & Ec & Rc). rewrite Ec.
    apply IH. lia.
Qed.

Lemma py_int_ok ds n :
  ds <> [] -> within_int_limit ds -> int_digits 0 ds = Some n ->
  py_int ds = Ok n.
Proof.
  intros Hne Hlim Hn. unfold py_int, within_int_limit in *.
  destruct ds as [|c ds]; [contradiction|]. rewrite Hn.
  destruct max_str_digits as [limit|]; [|reflexivity].
  destruct (Nat.ltb_spec limit (length (c :: ds))); [lia|reflexivity].
Qed.

Lemma unit_us_values :
  unit_us U_bun = 60 * US_PER_SECOND /\
  unit_us U_sigan = 3600 * US_PER_SECOND /\
  unit_us U_il = 86400 * US_PER_SECOND.
Proof. repeat split. Qed.

Lemma unit_us_nonneg u : 0 <= unit_us u.
Proof.
  unfold unit_us.
  destruct (str_eqb u U_bun); [vm_compute; discriminate|].
  destruct (str_eqb u U_sigan); vm_compute; discriminate.
Qed.

(** Going back by a duration that stays within the calendar. *)
Lemma sub_in_range now x :
  0 <= x -> toordinal now <= MAXORDINAL ->
  MINORDINAL <= toordinal (now - x) ->
  timedelta x = Ok x /\ datetime_sub now x = Ok (now - x).
Proof.
  unfold timedelta, datetime_sub, toordinal, MINORDINAL, MAXORDINAL,
    EPOCH_ORDINAL, US_PER_DAY, US_PER_SECOND.
  intros Hx Hmax Hmin.
  assert (Hd : 0 <= x / (86400 * 1000000) <= 999999999).
  { Z.div_mod_to_equations. lia. }
  assert (Hr : (now - x) / (86400 * 1000000) + 719163 <= 3652059).
  { Z.div_mod_to_equations. lia. }
  rewrite Z.abs_eq by lia.
  destruct (Z.leb_spec (x / (86400 * 1000000)) 999999999); [|lia].
  destruct (Z.leb_spec 1 ((now - x) / (86400 * 1000000) + 719163)); [|lia].
  destruct (Z.leb_spec ((now - x) / (86400 * 1000000) + 719163) 3652059);
    [|lia].
  split; reflexivity.
Qed.

(** A run of characters of a class, followed by a character outside
    the class, can be read in one way only. *)
Lemma run_unique (P : Z -> bool) (a : str) : forall a' r r',
  Forall (fun c => P c = true) a -> Forall (fun c => P c = true) a' ->
  (exists c r0, r = c :: r0 /\ P c = false) ->
  (exists c r0, r' = c :: r0 /\ P c = false) ->
  a ++ r = a' ++ r' -> a = a' /\ r = r'.
Proof.
  induction a as [|x a IH]; intros a' r r' Ha Ha' Hr Hr' E.
  - destruct a' as [|x' a']; [auto|]. exfalso.
    destruct Hr as (c & r0 & -> & Hc). simpl in E. injection E as -> _.
    apply Forall_cons in Ha' as [Hx _]. congruence.
  - destruct a' as [|x' a'].
    + exfalso. destruct Hr' as (c & r0 & -> & Hc). simpl in E.
      injection E as -> _. apply Forall_cons in Ha as [Hx _]. congruence.
    + simpl in E. injection E as -> E.
      apply Forall_cons in Ha as [_ Ha]. apply Forall_cons in Ha' as [_ Ha'].
      destruct (IH a' r r' Ha Ha' Hr Hr' E) as [-> ->]. auto.
Qed.

Lemma unit_head u rest :
  time_unit u ->
  exists c r0, u ++ rest = c :: r0 /\ 44032 <= c <= 55203.
Proof.
  intros [-> | [-> | ->]]; simpl; eexists _, _; (split; [reflexivity|lia]).
Qed.

Lemma unit_unique u u' r r' :
  time_unit u -> time_unit u' -> u ++ r = u' ++ r' -> u = u'.
Proof.
  intros [-> | [-> | ->]] [-> | [-> | ->]]; simpl; intros E;
    try reflexivity; discriminate.
Qed.

(** What follows the digits of a phrase starts with a character that is no
    digit, and what follows its white space with one that is no space. *)
Lemma after_digits ws u rest :
  spaces ws -> time_unit u ->
  exists c r0, ws ++ u ++ rest = c :: r0 /\ isdigit c = false.
Proof.
  intros Hws Hu. destruct ws as [|c ws].
  - destruct (unit_head u rest Hu) as (c & r0 & E & Hc).
    exists c, r0. split; [exact E|].
    unfold isdigit. destruct (hangul_plain c Hc) as [-> _]. reflexivity.
  - exists c, (ws ++ u ++ rest). split; [reflexivity|].
    apply Forall_cons in Hws as [Hc _].
    unfold isdigit. rewrite (space_not_decimal c Hc). reflexivity.
Qed.

Lemma after_spaces u rest :
  time_unit u -> exists c r0, u ++ rest = c :: r0 /\ isspace c = false.
Proof.
  intros Hu. destruct (unit_head u rest Hu) as (c & r0 & E & Hc).
  exists c, r0. split; [exact E|]. apply (hangul_plain c Hc).
Qed.

(** Two phrases that start at the same place have the same number and
    the same unit. *)
Lemma relative_phrase_unique w ds u post w' ds' u' post' :
  relative_phrase w ds u -> relative_phrase w' ds' u' ->
  w ++ post = w' ++ post' -> ds = ds' /\ u = u'.
Proof.
  intros (ws & ws1 & Hds & _ & Hws & Hu & _ & ->)
         (ws' & ws1' & Hds' & _ & Hws' & Hu' & _ & ->) E.
  rewrite <- !app_assoc in E.
  destruct (run_unique isdigit ds ds' _ _ Hds Hds'
              (after_digits ws u _ Hws Hu)
              (after_digits ws' u' _ Hws' Hu') E) as [-> E1].
  split; [reflexivity|].
  destruct (run_unique isspace ws ws' _ _ Hws Hws'
              (after_spaces u _ Hu) (after_spaces u' _ Hu') E1)
    as [-> E2].
  eapply unit_unique; eauto.
Qed.

Lemma first_relative_phrase_unique t w ds u w' ds' u' :
  first_relative_phrase t w ds u -> first_relative_phrase t w' ds' u' ->
  ds = ds' /\ u = u'.
Proof.
  intros (pre & post & Ht & Hp & Hfirst) (pre' & post' & Ht' & Hp' & Hfirst').
  pose proof (Hfirst pre' w' post' ds' u' Ht' Hp') as L1.
  pose proof (Hfirst' pre w post ds u Ht Hp) as L2.
  rewrite Ht in Ht'.
  apply app_inj_1 in Ht' as [_ E]; [|lia].
  eapply relative_phrase_unique; eauto.
Qed.

End RelativeLemmas.

Section RelativeClaims.
Context `{PyRuntime} (W : World).

(** C2, as the code has it. When the text holds a phrase "N 분/시간/일 전",
    [_normalize_relative_date] takes N and the unit of the leftmost one
    and, as long as [int] accepts the digits of N and the instant N
    minutes, hours or days before [now] is a [datetime] (not before
    0001-01-01, [now] being one), returns that instant's date in UTC+9,
    having read the clock once; the date is the
    calendar day that holds the instant, written YYYY.MM.DD when the year
    has four digits. When the text holds no such phrase, and neither 어제
    nor 오늘, it returns the empty string. The machine's local time zone
    plays no part. *)
Theorem normalize_relative_date_in_range (text : str) (s : state) :
  let t := strip text in
  let now := clock W (trace s) + KST in
  (has_relative_phrase t ->
   exists w ds u n,
     first_relative_phrase t w ds u /\
     int_digits 0 ds = Some n /\ 0 <= n) /\
  (forall w ds u n,
     first_relative_phrase t w ds u ->
     int_digits 0 ds = Some n ->
     within_int_limit ds ->
     toordinal now <= MAXORDINAL ->
     MINORDINAL <= toordinal (now - n * unit_us u) ->
     _normalize_relative_date W text s
     = (Ok (strftime_Ymd (now - n * unit_us u)), clock_read s)) /\
  (unit_us U_bun = 60 * US_PER_SECOND /\
   unit_us U_sigan = 3600 * US_PER_SECOND /\
   unit_us U_il = 86400 * US_PER_SECOND) /\
  (~ has_relative_phrase t ->
   contains U_eoje t = false -> contains U_oneul t = false ->
   _normalize_relative_date W text s = (Ok [], clock_read s)) /\
  (forall off,
     _normalize_relative_date (with_local_utcoffset W off) text s
     = _normalize_relative_date W text s) /\
  (forall dt y mo d,
     civil_from_days (dt / US_PER_DAY) = (y, mo, d) ->
     days_from_civil y mo d * US_PER_DAY <= dt
       < (days_from_civil y mo d + 1) * US_PER_DAY /\
     1 <= mo <= 12 /\ 1 <= d <= days_in_month y mo /\
     (1000 <= y <= 9999 ->
      strftime_Ymd dt
      = four_digits y ++ [46] ++ two_digits mo ++ [46] ++ two_digits d)).
Proof.
  intros t now.
  destruct (search_REL_PAT t) as [Hsome Hnone].
  split; [|split; [|split; [|split; [|split]]]].
  - intros Hh. destruct (Hsome Hh) as (m & w & ds & u & E & Hg & Hf).
    pose proof Hf as (pre & post & _ & (ws & ws' & Hds & Hne & _) & _).
    destruct (int_digits_nonneg ds Hds 0 ltac:(lia)) as (n & En & Hn).
    exists w, ds, u, n. repeat split; auto.
  - intros w ds u n Hf En Hlim Hmax Hmin.
    assert (Hh : has_relative_phrase t).
    { destruct Hf as (pre & post & Ht & Hp & _).
      exists pre, w, post, ds, u. auto. }
    destruct (Hsome Hh) as (m & w0 & ds0 & u0 & E & Hg & Hf0).
    destruct (first_relative_phrase_unique t w0 ds0 u0 w ds u Hf0 Hf)
      as [-> ->].
    pose proof Hf as (pre & post & _ & (ws & ws' & Hds & Hne & _) & _).
    destruct (int_digits_nonneg ds Hds 0 ltac:(lia)) as (n' & En' & Hn).
    assert (n' = n) by congruence. subst n'.
    pose proof (unit_us_nonneg u) as Hu.
    destruct (sub_in_range now (n * unit_us u)
                ltac:(apply Z.mul_nonneg_nonneg; assumption) Hmax Hmin)
      as [Etd Esub].
    unfold _normalize_relative_date, bind, datetime_now, lift, ret.
    fold t. rewrite E, Hg. simpl nth.
    rewrite (py_int_ok ds n Hne Hlim En).
    fold now. rewrite Etd, Esub. reflexivity.
  - apply unit_us_values.
  - intros Hno He Ho.
    unfold _normalize_relative_date, bind, datetime_now, lift, ret.
    fold t. rewrite (Hnone Hno), He, Ho. reflexivity.
  - intros off. reflexivity.
  - intros dt y mo d E.
    pose proof (civil_from_days_spec (dt / US_PER_DAY)) as Hc.
    rewrite E in Hc. destruct Hc as (Hr & Hmo & Hd).
    rewrite Hr. split; [|split; [assumption|split; [assumption|]]].
    + unfold US_PER_DAY, US_PER_SECOND. Z.div_mod_to_equations. lia.
    + intros Hy. unfold strftime_Ymd. rewrite E.
      rewrite (fmt_year_four y Hy), !fmt_0d_two; [reflexivity| |].
      * pose proof (days_in_month_le_31 y mo). lia.
      * lia.
Qed.

End RelativeClaims.

(* ===================================================================== *)
(** * The claims on sample runs *)
(* ===================================================================== *)

(** Settle a decidable statement on closed terms by evaluating it. *)
Ltac by_decide :=
  match goal with
  | |- ?P => apply (bool_decide_eq_true_1 P); vm_compute; reflexivity
  end.

(** Page 2 of a crawl whose every page is [page_ab] brings nothing new: the
    wait drawn is one second, and the crawl ends there, returning each link
    once. *)
Lemma crawl_links_deduplicated_witness :
  match fst (crawl world_ab args5 s_init) with
  | Ok (Some (_, _, _, l)) => NoDup l
  | _ => True
  end /\
  (link_a ∈ seen_links cs_page1 /\
   admit_row (cs_page1, O)
     {| Title := lit "Title A"; Date := []; Source := []; Link := link_a |}
   = (cs_page1, O)) /\
  (page_count cs_page1 + 1 <= max_pages args5 /\
   rows_ab <> [] /\ Forall (rejected cs_page1) rows_ab /\
   crawl_loop world_ab 1 args5 cs_page1 s_page1
   = (Ok (Some (with_start (stopped cs_page1) 21)),
      {| trace := trace s_page1
                  ++ [ELog (LogRequest (page_url args5 11));
                      EGet (page_url args5 11);
                      ELog (LogPage 11 2 0); EUniform (1 # 1) (2 # 1);
                      ESleep (1 # 1); ELog LogNoNew];
         files := ∅ |}) /\
   links (with_start (stopped cs_page1) 21) = [link_a; link_b] /\
   fst (crawl world_ab args5 s_init)
   = Ok (Some ([lit "Title A"; lit "Title B"],
               [lit "2024.03.07"; lit "2024.03.08"],
               [lit "n"; lit "n"], [link_a; link_b]))).
Proof.
  destruct (crawl_links_deduplicated world_ab args5) as (H1 & H2 & H3).
  assert (Ha : link_a ∈ seen_links cs_page1).
  { by_decide. }
  assert (Hb : link_b ∈ seen_links cs_page1).
  { by_decide. }
  assert (Hle : page_count cs_page1 + 1 <= max_pages args5).
  { vm_compute. discriminate. }
  assert (Hne : rows_ab <> []) by discriminate.
  assert (Hrej : Forall (rejected cs_page1) rows_ab).
  { repeat constructor; right; assumption. }
  assert (Hresp : session_get world_ab
                    (trace s_page1
                     ++ [ELog (LogRequest (page_url args5 (start cs_page1)))])
                    (page_url args5 (start cs_page1))
                  = Response 200 (lit "1")) by reflexivity.
  assert (Hparse : parse_page world_ab (lit "1")
                     (requested (page_url args5 (start cs_page1)) s_page1)
                   = (Ok rows_ab,
                      requested (page_url args5 (start cs_page1)) s_page1))
    by (vm_compute; reflexivity).
  destruct (H3 cs_page1 s_page1 0%nat (lit "1") rows_ab
               (requested (page_url args5 (start cs_page1)) s_page1)
               Hle Hresp Hparse Hne Hrej) as (Hok & _).
  split; [apply H1|]. split; [split; [exact Ha|apply H2, Ha]|].
  split; [exact Hle|]. split; [exact Hne|]. split; [exact Hrej|].
  split; [|split; vm_compute; reflexivity].
  rewrite Hok by (vm_compute; reflexivity). vm_compute. reflexivity.
Defined.

(** Five pages are allowed and two are asked for; with one page allowed,
    the second pass stops before any request. *)
Lemma crawl_stops_within_max_pages_witness :
  1 <= max_pages args5 /\
  fst (crawl world_ab args5 s_init) <> Ok None /\
  (exists n : nat,
     listing_requests (trace (snd (crawl world_ab args5 s_init)))
     = listing_requests (trace s_init)
       ++ map (page_url args5) (offsets_from 1 n) /\
     Z.of_nat n <= max_pages args5) /\
  (max_pages args1 < page_count (stopped init_state) + 1 /\
   iteration world_ab args1 (stopped init_state) s_init
   = (Ok (Break, stopped (stopped init_state)),
      {| trace := trace s_init ++ [ELog (LogMaxPages (max_pages args1))];
         files := files s_init |})) /\
  (fst (iteration world_ab args5 init_state s_init)
   = Ok (Continue, cs_page1) /\
   page_count cs_page1 = page_count init_state + 1).
Proof.
  assert (H5 : 1 <= max_pages args5) by (vm_compute; discriminate).
  assert (H1 : 1 <= max_pages args1) by (vm_compute; discriminate).
  assert (Hlt : max_pages args1 < page_count (stopped init_state) + 1)
    by (vm_compute; reflexivity).
  assert (Hit : fst (iteration world_ab args5 init_state s_init)
                = Ok (Continue, cs_page1)) by (vm_compute; reflexivity).
  destruct (crawl_stops_within_max_pages world_ab args5 s_init H5)
    as (Ha & Hb & _ & Hd).
  destruct (crawl_stops_within_max_pages world_ab args1 s_init H1)
    as (_ & _ & Hc & _).
  split; [exact H5|]. split; [exact Ha|]. split; [exact Hb|].
  split; [split; [exact Hlt|apply Hc, Hlt]|].
  split; [exact Hit|exact (Hd _ _ _ _ Hit)].
Defined.

(** The two requests of that crawl are those of the offsets 1 and 11. *)
Lemma crawl_offsets_advance_by_ten_witness :
  fst (iteration world_ab args5 init_state s_init)
  = Ok (Continue, cs_page1) /\
  start cs_page1 = start init_state + 10 /\
  listing_requests (trace (snd (iteration world_ab args5 init_state s_init)))
  = listing_requests (trace s_init) ++ [page_url args5 (start init_state)] /\
  exists n : nat,
    listing_requests (trace (snd (crawl world_ab args5 s_init)))
    = listing_requests (trace s_init)
      ++ map (page_url args5) (map (fun k => 1 + 10 * Z.of_nat k) (seq 0 n)).
Proof.
  assert (Hit : fst (iteration world_ab args5 init_state s_init)
                = Ok (Continue, cs_page1)) by (vm_compute; reflexivity).
  destruct (crawl_offsets_advance_by_ten world_ab args5 s_init)
    as (_ & Hn & Hstep).
  destruct (Hstep init_state s_init cs_page1 Hit) as [Hs Hr].
  split; [exact Hit|]. split; [exact Hs|]. split; [exact Hr|exact Hn].
Defined.


(** [crawl] itself asks for the first page of a range whose start is after
    its end. *)
Lemma crawl_requests_reversed_range :
  date_gt (f_start_date_input reversed_form) (f_end_date_input reversed_form)
  = true /\
  start_date (form_args reversed_form) = lit "2024.12.31" /\
  end_date (form_args reversed_form) = lit "2024.01.01" /\
  listing_requests
    (trace (snd (crawl world_down (form_args reversed_form) s_init)))
  = [page_url (form_args reversed_form) 1].
Proof. repeat split; vm_compute; reflexivity. Qed.

(** [streamlit_main] on the same form shows the error and asks for
    nothing. *)
Lemma streamlit_rejects_reversed_range_witness :
  date_gt (f_start_date_input reversed_form) (f_end_date_input reversed_form)
  = true /\
  listing_requests (trace (snd (streamlit_main world_down reversed_form s_init)))
  = listing_requests (trace s_init) /\
  streamlit_main world_down reversed_form s_init
  = (Ok tt, {| trace := [EUi UiForm; EUi UiRangeError]; files := ∅ |}).
Proof.
  assert (Hgt : date_gt (f_start_date_input reversed_form)
                        (f_end_date_input reversed_form) = true)
    by reflexivity.
  destruct (streamlit_rejects_reversed_range world_down reversed_form s_init
              Hgt) as [H1 H2].
  split; [exact Hgt|]. split; [exact H1|exact (H2 eq_refl eq_refl)].
Defined.

(** A first page without cards: one request, the body in
    [debug_naver.html], four empty columns. *)
Lemma crawl_empty_page_writes_debug_witness :
  page_count init_state + 1 <= max_pages args5 /\
  boxes_of (BeautifulSoup (lit "0")) = [] /\
  encodable (lit "0") = true /\
  crawl world_empty args5 s_init
  = (Ok (Some ([], [], [], [])),
     {| trace := [ELog (LogRequest (page_url args5 1));
                  EGet (page_url args5 1);
                  EOpen "debug_naver.html"; ELog (LogNoRows 1)];
        files := <["debug_naver.html" := lit "0"]> ∅ |}) /\
  (<["debug_naver.html" := lit "0"]> (∅ : gmap string str))
    !! "debug_naver.html" = Some (lit "0") /\
  listing_requests
    [ELog (LogRequest (page_url args5 1)); EGet (page_url args5 1);
     EOpen "debug_naver.html"; ELog (LogNoRows 1)]
  = [page_url args5 1].
Proof.
  assert (Hle : page_count init_state + 1 <= max_pages args5)
    by (vm_compute; discriminate).
  assert (Hb : boxes_of (BeautifulSoup (lit "0")) = []) by reflexivity.
  assert (Hresp : session_get world_empty
                    (trace s_init
                     ++ [ELog (LogRequest (page_url args5 (start init_state)))])
                    (page_url args5 (start init_state))
                  = Response 200 (lit "0")) by reflexivity.
  assert (Hparse : parse_page world_empty (lit "0")
                     (requested (page_url args5 (start init_state)) s_init)
                   = (Ok [], requested (page_url args5 1) s_init))
    by (vm_compute; reflexivity).
  assert (Hopen : open_ok world_empty
                    (trace (requested (page_url args5 1) s_init))
                    "debug_naver.html" = true) by reflexivity.
  assert (Henc : encodable (lit "0") = true) by reflexivity.
  destruct (crawl_empty_page_writes_debug world_empty args5 init_state s_init
              (lit "0") (requested (page_url args5 1) s_init) 0%nat Hle
              Hresp Hparse Hopen Henc) as (_ & Hf & Hr & _ & Hc).
  split; [exact Hle|]. split; [exact Hb|]. split; [exact Henc|].
  split; [exact (Hc eq_refl eq_refl)|]. split; [exact Hf|exact Hr].
Defined.

(** [page_ab] gives its two rows; a card without a title gives none. *)
Lemma parse_page_rows_have_title_and_link_witness :
  parse_page world_down (lit "1") s_init = (Ok rows_ab, s_init) /\
  Forall (fun r =>
            Title r <> [] /\ Link r <> [] /\
            exists box, box ∈ boxes_of (BeautifulSoup (lit "1")) /\
                        Title r = _extract_title_from_card box /\
                        Link r = card_link box) rows_ab /\
  _extract_title_from_card
    (untitled_card (lit "Press") (lit "2024.03.07.")) = [] /\
  parse_boxes world_down []
    [untitled_card (lit "Press") (lit "2024.03.07.");
     card (lit "Title A") link_a (lit "2024.03.07.")] s_init
  = parse_boxes world_down []
      [card (lit "Title A") link_a (lit "2024.03.07.")] s_init /\
  card_link (leaf (lit "text")) = [] /\
  parse_boxes world_down [] [leaf (lit "text")] s_init
  = parse_boxes world_down [] [] s_init.
Proof.
  assert (Hp : parse_page world_down (lit "1") s_init = (Ok rows_ab, s_init))
    by (vm_compute; reflexivity).
  assert (Ht : _extract_title_from_card
                 (untitled_card (lit "Press") (lit "2024.03.07.")) = [])
    by reflexivity.
  assert (Hl : card_link (leaf (lit "text")) = []) by reflexivity.
  destruct (parse_page_rows_have_title_and_link world_down)
    as (H1 & H2 & H3).
  split; [exact Hp|]. split; [exact (H1 _ _ _ _ Hp)|].
  split; [exact Ht|]. split; [exact (H2 _ _ _ _ Ht)|].
  split; [exact Hl|exact (H3 _ _ _ _ Hl)].
Defined.

(** "1000000일 전" is a relative-time phrase, and a million days before
    2023 there is no [datetime]: the subtraction raises. *)
Lemma normalize_relative_date_overflow :
  relative_phrase text_million_days (lit "1000000") U_il /\
  has_relative_phrase (strip text_million_days) /\
  int_digits 0 (lit "1000000") = Some 1000000 /\
  _normalize_relative_date world_down text_million_days s_init
  = (Raise OverflowError, clock_read s_init).
Proof.
  assert (Hp : relative_phrase text_million_days (lit "1000000") U_il).
  { exists [], []. split; [repeat constructor|]. split; [discriminate|].
    split; [constructor|]. split; [right; right; reflexivity|].
    split; [constructor|reflexivity]. }
  split; [exact Hp|]. split.
  - exists [], text_million_days, [], (lit "1000000"), U_il.
    split; [vm_compute; reflexivity|exact Hp].
  - split; vm_compute; reflexivity.
Qed.

(** "3 시간 전" at 2023-11-15 07:13:20 in UTC+9 is the 15th; a text without
    a phrase gives the empty string. *)
Lemma normalize_relative_date_in_range_witness :
  (has_relative_phrase (strip text_3_hours) /\
   first_relative_phrase (strip text_3_hours) text_3_hours [51] U_sigan /\
   int_digits 0 [51] = Some 3 /\
   within_int_limit [51] /\
   toordinal (clock world_down (trace s_init) + KST) <= MAXORDINAL /\
   MINORDINAL
   <= toordinal (clock world_down (trace s_init) + KST - 3 * unit_us U_sigan) /\
   _normalize_relative_date world_down text_3_hours s_init
   = (Ok (lit "2023.11.15"), clock_read s_init)) /\
  (~ has_relative_phrase (strip (lit "abc")) /\
   contains U_eoje (strip (lit "abc")) = false /\
   contains U_oneul (strip (lit "abc")) = false /\
   _normalize_relative_date world_down (lit "abc") s_init
   = (Ok [], clock_read s_init)) /\
  (civil_from_days
     ((clock world_down (trace s_init) + KST - 3 * unit_us U_sigan)
      / US_PER_DAY) = (2023, 11, 15) /\
   days_from_civil 2023 11 15 * US_PER_DAY
   <= clock world_down (trace s_init) + KST - 3 * unit_us U_sigan
   < (days_from_civil 2023 11 15 + 1) * US_PER_DAY /\
   strftime_Ymd (clock world_down (trace s_init) + KST - 3 * unit_us U_sigan)
   = four_digits 2023 ++ [46] ++ two_digits 11 ++ [46] ++ two_digits 15).
Proof.
  assert (Hp : relative_phrase text_3_hours [51] U_sigan).
  { exists [32], [32]. split; [repeat constructor|]. split; [discriminate|].
    split; [repeat constructor|]. split; [right; left; reflexivity|].
    split; [repeat constructor|reflexivity]. }
  assert (Hh : has_relative_phrase (strip text_3_hours)).
  { exists [], text_3_hours, [], [51], U_sigan.
    split; [vm_compute; reflexivity|exact Hp]. }
  assert (Hf : first_relative_phrase (strip text_3_hours) text_3_hours
                 [51] U_sigan).
  { exists [], []. split; [vm_compute; reflexivity|]. split; [exact Hp|].
    intros. simpl. lia. }
  assert (Hi : int_digits 0 [51] = Some 3) by reflexivity.
  assert (Hl : within_int_limit [51]) by (unfold within_int_limit; simpl; lia).
  assert (Hmax : toordinal (clock world_down (trace s_init) + KST)
                 <= MAXORDINAL) by (vm_compute; discriminate).
  assert (Hmin : MINORDINAL
                 <= toordinal (clock world_down (trace s_init) + KST
                               - 3 * unit_us U_sigan))
    by (vm_compute; discriminate).
  assert (Hno : ~ has_relative_phrase (strip (lit "abc")))
    by (apply no_phrase_by_search; vm_compute; reflexivity).
  assert (He : contains U_eoje (strip (lit "abc")) = false)
    by (vm_compute; reflexivity).
  assert (Ho : contains U_oneul (strip (lit "abc")) = false)
    by (vm_compute; reflexivity).
  assert (Hc : civil_from_days
                 ((clock world_down (trace s_init) + KST
                   - 3 * unit_us U_sigan) / US_PER_DAY) = (2023, 11, 15))
    by (vm_compute; reflexivity).
  destruct (normalize_relative_date_in_range world_down text_3_hours s_init)
    as (_ & H2 & _ & _ & _ & H5).
  destruct (normalize_relative_date_in_range world_down (lit "abc") s_init)
    as (_ & _ & _ & H3 & _).
  destruct (H5 _ _ _ _ Hc) as (Hday & _ & _ & Hfmt).
  split; [|split].
  - split; [exact Hh|]. split; [exact Hf|]. split; [exact Hi|].
    split; [exact Hl|]. split; [exact Hmax|]. split; [exact Hmin|].
    rewrite (H2 text_3_hours [51] U_sigan 3 Hf Hi Hl Hmax Hmin).
    vm_compute. reflexivity.
  - split; [exact Hno|]. split; [exact He|]. split; [exact Ho|].
    exact (H3 Hno He Ho).
  - split; [exact Hc|]. split; [exact Hday|].
    apply Hfmt. lia.
Defined.

(** A date that is not behind a slash is not found. *)
Lemma extract_date_from_url_bare_run :
  contains (lit "20240307") url_bare_run = true /\
  _extract_date_from_url url_bare_run = [].
Proof. split; vm_compute; reflexivity. Qed.

Lemma has_compact_closed_sample :
  has_shape shape_compact_closed url_compact_closed.
Proof.
  exists (lit "https://a.example"), (lit "/20240307/"), (lit "x"),
    (lit "2024"), (lit "03"), (lit "07").
  split; [reflexivity|].
  split; [exists 50, 52; split; [reflexivity|repeat constructor]|].
  repeat split; repeat constructor.
Qed.

Lemma has_slashed_sample : has_shape shape_slashed url_slashed.
Proof.
  exists (lit "https://a.example"), (lit "/2024/3/7/"), (lit "x"),
    (lit "2024"), (lit "3"), (lit "7").
  split; [reflexivity|].
  split; [exists 50, 52; split; [reflexivity|repeat constructor]|].
  repeat split; repeat constructor.
Qed.

Lemma has_compact_sample : has_shape shape_compact url_compact.
Proof.
  exists (lit "https://a.example"), (lit "/20240307"), [],
    (lit "2024"), (lit "03"), (lit "07").
  split; [reflexivity|].
  split; [exists 50, 52; split; [reflexivity|repeat constructor]|].
  repeat split; repeat constructor.
Qed.

(** One URL for each of the three shapes, and one without any. *)
Lemma extract_date_from_url_shapes_witness :
  (has_shape shape_compact_closed url_compact_closed /\
   _extract_date_from_url url_compact_closed = lit "2024.03.07" /\
   exists w y mo d,
     first_shape shape_compact_closed url_compact_closed w y mo d /\
     _extract_date_from_url url_compact_closed
     = y ++ [46] ++ mo ++ [46] ++ d) /\
  (~ has_shape shape_compact_closed url_slashed /\
   has_shape shape_slashed url_slashed /\
   _extract_date_from_url url_slashed = lit "2024.03.07" /\
   exists w y mo d a b,
     first_shape shape_slashed url_slashed w y mo d /\
     int_digits 0 mo = Some a /\ int_digits 0 d = Some b /\
     _extract_date_from_url url_slashed
     = y ++ [46] ++ two_digits a ++ [46] ++ two_digits b) /\
  (~ has_shape shape_compact_closed url_compact /\
   ~ has_shape shape_slashed url_compact /\
   has_shape shape_compact url_compact /\
   _extract_date_from_url url_compact = lit "2024.03.07" /\
   exists w y mo d,
     first_shape shape_compact url_compact w y mo d /\
     _extract_date_from_url url_compact = y ++ [46] ++ mo ++ [46] ++ d) /\
  (~ has_shape shape_slashed url_bare_run /\
   ~ has_shape shape_compact url_bare_run /\
   _extract_date_from_url url_bare_run = []).
Proof.
  assert (N1 : ~ has_shape shape_compact_closed url_slashed).
  { apply (no_shape_by_search URL_PAT1 _ _ matches_URL_PAT1).
    vm_compute. reflexivity. }
  assert (N2 : ~ has_shape shape_compact_closed url_compact).
  { apply (no_shape_by_search URL_PAT1 _ _ matches_URL_PAT1).
    vm_compute. reflexivity. }
  assert (N3 : ~ has_shape shape_slashed url_compact).
  { apply (no_shape_by_search URL_PAT2 _ _ matches_URL_PAT2).
    vm_compute. reflexivity. }
  assert (N4 : ~ has_shape shape_slashed url_bare_run).
  { apply (no_shape_by_search URL_PAT2 _ _ matches_URL_PAT2).
    vm_compute. reflexivity. }
  assert (N5 : ~ has_shape shape_compact url_bare_run).
  { apply (no_shape_by_search URL_PAT3 _ _ matches_URL_PAT3).
    vm_compute. reflexivity. }
  destruct (extract_date_from_url_shapes url_compact_closed)
    as (A1 & _ & _ & _).
  destruct (extract_date_from_url_shapes url_slashed) as (_ & A2 & _ & _).
  destruct (extract_date_from_url_shapes url_compact) as (_ & _ & A3 & _).
  destruct (extract_date_from_url_shapes url_bare_run) as (_ & _ & _ & A4).
  split; [|split; [|split]].
  - split; [exact has_compact_closed_sample|].
    split; [vm_compute; reflexivity|].
    exact (A1 has_compact_closed_sample).
  - split; [exact N1|]. split; [exact has_slashed_sample|].
    split; [vm_compute; reflexivity|].
    exact (A2 N1 has_slashed_sample).
  - split; [exact N2|]. split; [exact N3|].
    split; [exact has_compact_sample|].
    split; [vm_compute; reflexivity|].
    exact (A3 N2 N3 has_compact_sample).
  - split; [exact N4|]. split; [exact N5|]. exact (A4 N4 N5).
Defined.

(* ===================================================================== *)
(** * White space: [_clean_text] *)
(* ===================================================================== *)

Section CleanText.
Context `{PyRuntime}.

(** Replacing one character by another is a map. *)
Lemma replace_char a b s :
  replace [a] [b] s = map (fun c => if c =? a then b else c) s.
Proof.
  unfold replace. induction s as [|c s IH]; simpl; [reflexivity|].
  rewrite andb_true_r, (Z.eqb_sym c a), IH.
  destruct (a =? c); reflexivity.
Qed.

(** Replacing one character by nothing is a filter. *)
Lemma replace_char_nil a s :
  replace [a] [] s = List.filter (fun c => negb (c =? a)) s.
Proof.
  unfold replace. induction s as [|c s IH]; simpl; [reflexivity|].
  rewrite andb_true_r, (Z.eqb_sym c a), IH.
  destruct (a =? c); reflexivity.
Qed.

Lemma clean_text_unfold s :
  _clean_text s = join [32] (split_ws [] (map unbreak s)).
Proof.
  unfold _clean_text. rewrite !replace_char, map_map.
  do 2 f_equal. apply map_ext. intros c. unfold unbreak.
  destruct (Z.eqb_spec c 10) as [->|]; [reflexivity|].
  destruct (Z.eqb_spec c 13); reflexivity.
Qed.

Lemma unbreak_idem c : unbreak (unbreak c) = unbreak c.
Proof.
  unfold unbreak.
  destruct (Z.eqb_spec c 10) as [->|]; [reflexivity|].
  destruct (Z.eqb_spec c 13) as [->|]; [reflexivity|]. simpl.
  destruct (Z.eqb_spec c 10); [contradiction|].
  destruct (Z.eqb_spec c 13); [contradiction|]. reflexivity.
Qed.

(** *** [split] *)

Lemma split_ws_Forall (P : Z -> Prop) s : forall cur,
  Forall P cur -> Forall P s -> Forall (Forall P) (split_ws cur s).
Proof.
  induction s as [|c s IH]; intros cur Hcur Hs; simpl.
  - destruct cur as [|x cur]; [constructor|].
    constructor; [assumption|constructor].
  - apply Forall_cons in Hs as [Hc Hs]. destruct (isspace c).
    + destruct cur as [|x cur]; [apply IH; [constructor|assumption]|].
      constructor; [assumption|]. apply IH; [constructor|assumption].
    + apply IH; [|assumption]. apply Forall_app. split; [assumption|].
      constructor; [assumption|constructor].
Qed.

Lemma split_ws_words s : forall cur,
  Forall (fun c => isspace c = false) cur -> Forall word (split_ws cur s).
Proof.
  induction s as [|c s IH]; intros cur Hcur; simpl.
  - destruct cur as [|x cur]; [constructor|].
    constructor; [|constructor]. split; [discriminate|assumption].
  - destruct (isspace c) eqn:Ec.
    + destruct cur as [|x cur]; [apply IH; constructor|].
      constructor; [split; [discriminate|assumption]|].
      apply IH. constructor.
    + apply IH. apply Forall_app. split; [assumption|].
      constructor; [assumption|constructor].
Qed.

Lemma split_ws_concat s : forall cur,
  concat (split_ws cur s)
  = cur ++ List.filter (fun c => negb (isspace c)) s.
Proof.
  induction s as [|c s IH]; intros cur; simpl.
  - destruct cur; simpl; rewrite ?app_nil_r; reflexivity.
  - destruct (isspace c); simpl.
    + destruct cur as [|x cur]; [apply IH|].
      cbn [concat]. rewrite IH. reflexivity.
    + rewrite IH, <- app_assoc. reflexivity.
Qed.

Lemma split_ws_nil s : forall cur,
  split_ws cur s = [] <-> cur = [] /\ Forall (fun c => isspace c = true) s.
Proof.
  induction s as [|c s IH]; intros cur; simpl.
  - destruct cur; split; try (intros [? ?]); try discriminate; auto.
  - destruct (isspace c) eqn:Ec.
    + destruct cur as [|x cur].
      * rewrite IH, Forall_cons. tauto.
      * split; [discriminate|]. intros [? _]. discriminate.
    + rewrite IH, Forall_cons. split.
      * intros [E _]. destruct cur; discriminate.
      * intros [_ [E _]]. congruence.
Qed.

Lemma split_ws_word w rest : forall cur,
  Forall (fun c => isspace c = false) w ->
  split_ws cur (w ++ rest) = split_ws (cur ++ w) rest.
Proof.
  induction w as [|c w IH]; intros cur Hw; simpl.
  - rewrite app_nil_r. reflexivity.
  - apply Forall_cons in Hw as [Hc Hw]. rewrite Hc, IH by assumption.
    rewrite <- app_assoc. reflexivity.
Qed.

(** Without white space there is one word, or none. *)
Lemma split_ws_no_space s :
  Forall (fun c => isspace c = false) s ->
  split_ws [] s = match s with [] => [] | _ => [s] end.
Proof.
  intros Hs. rewrite <- (app_nil_r s) at 1.
  rewrite split_ws_word by assumption. simpl. reflexivity.
Qed.

(** *** [join] *)

Lemma join_cons sep w w' ws :
  join sep (w :: w' :: ws) = w ++ sep ++ join sep (w' :: ws).
Proof. reflexivity. Qed.

Lemma join_Forall (P : Z -> Prop) ws :
  P 32 -> Forall (Forall P) ws -> Forall P (join [32] ws).
Proof.
  intros H32. induction 1 as [|w ws Hw Hws IH]; [constructor|].
  destruct ws as [|w' ws']; [exact Hw|].
  rewrite join_cons. apply Forall_app. split; [exact Hw|].
  constructor; [exact H32|exact IH].
Qed.

Lemma join_nil ws : Forall word ws -> join [32] ws = [] -> ws = [].
Proof.
  intros Hws E. destruct ws as [|w ws]; [reflexivity|]. exfalso.
  apply Forall_cons in Hws as [[Hne _] _].
  destruct ws as [|w' ws]; [contradiction|].
  rewrite join_cons in E. destruct w; [contradiction|discriminate].
Qed.

(** Splitting what was joined gives the words back. *)
Lemma split_ws_join ws :
  isspace 32 = true -> Forall word ws -> split_ws [] (join [32] ws) = ws.
Proof.
  intros Hsp. induction 1 as [|w ws [Hne Hw] Hws IH]; [reflexivity|].
  destruct ws as [|w' ws'].
  - simpl. rewrite split_ws_no_space by assumption.
    destruct w; [contradiction|reflexivity].
  - rewrite join_cons, split_ws_word by assumption.
    cbn [app split_ws]. rewrite Hsp, IH.
    destruct w; [contradiction|reflexivity].
Qed.

Lemma word_chars ws :
  Forall word ws -> Forall (Forall (fun c => isspace c = false)) ws.
Proof.
  intros Hws. eapply Forall_impl; [exact Hws|]. intros w [_ Hw]. exact Hw.
Qed.

(** The cleaned text is made of the words of the text. *)
Lemma clean_text_join s :
  exists ws, _clean_text s = join [32] ws /\ Forall word ws /\
             ws = split_ws [] (map unbreak s).
Proof.
  exists (split_ws [] (map unbreak s)).
  split; [apply clean_text_unfold|]. split; [|reflexivity].
  apply split_ws_words. constructor.
Qed.

Lemma clean_text_fixed s : map unbreak (_clean_text s) = _clean_text s.
Proof.
  rewrite clean_text_unfold.
  assert (Hf : Forall (fun c => unbreak c = c)
                 (join [32] (split_ws [] (map unbreak s)))).
  { apply join_Forall; [reflexivity|].
    apply split_ws_Forall; [constructor|].
    rewrite Forall_map. apply Forall_forall. intros c _.
    apply unbreak_idem. }
  induction Hf as [|c l Hc _ IH]; simpl; [reflexivity|].
  rewrite Hc, IH. reflexivity.
Qed.

Lemma clean_text_idem s : _clean_text (_clean_text s) = _clean_text s.
Proof.
  rewrite (clean_text_unfold (_clean_text s)), clean_text_fixed.
  destruct (clean_text_join s) as (ws & E & Hws & _). rewrite E.
  destruct (isspace 32) eqn:Hsp.
  - rewrite split_ws_join by assumption. reflexivity.
  - rewrite split_ws_no_space.
    + destruct (join [32] ws); reflexivity.
    + apply join_Forall; [exact Hsp|]. apply word_chars, Hws.
Qed.

Lemma clean_text_nil : _clean_text [] = [].
Proof. reflexivity. Qed.

(** *** The words of a text *)

Lemma words_of_space c s ws :
  isspace c = true -> words_of s ws -> words_of (c :: s) ws.
Proof.
  intros Hc Hw. destruct Hw as [g Hg|g w Hg Hw|g w c' rest ws Hg Hw Hc' Hr].
  - apply words_blank. constructor; assumption.
  - apply (words_last (c :: g) w); [constructor; assumption|assumption].
  - apply (words_next (c :: g) w c' rest ws); auto.
    constructor; assumption.
Qed.

(** [split] reads the words of the text, [cur] being the start of the
    first one. *)
Lemma split_ws_words_of s : forall cur,
  Forall (fun c => isspace c = false) cur ->
  words_of (cur ++ s) (split_ws cur s).
Proof.
  induction s as [|c s IH]; intros cur Hcur; simpl.
  - rewrite app_nil_r. destruct cur as [|x cur].
    + apply words_blank. constructor.
    + apply (words_last [] (x :: cur)); [constructor|].
      split; [discriminate|assumption].
  - destruct (isspace c) eqn:Ec.
    + destruct cur as [|x cur].
      * apply words_of_space; [assumption|]. apply (IH []). constructor.
      * apply (words_next [] (x :: cur) c s); auto.
        -- constructor.
        -- split; [discriminate|assumption].
        -- apply (IH []). constructor.
    + replace (cur ++ c :: s) with ((cur ++ [c]) ++ s)
        by (rewrite <- app_assoc; reflexivity).
      apply IH. apply Forall_app. split; [assumption|].
      constructor; [assumption|constructor].
Qed.

Lemma word_head w rest :
  word w -> exists c r0, w ++ rest = c :: r0 /\ isspace c = false.
Proof.
  intros [Hne Hw]. destruct w as [|c w]; [contradiction|].
  apply Forall_cons in Hw as [Hc _]. exists c, (w ++ rest). auto.
Qed.

Lemma word_no_space w1 c w2 :
  Forall (fun c => isspace c = false) (w1 ++ c :: w2) ->
  isspace c = true -> False.
Proof.
  intros Hw Hc. apply Forall_app in Hw as [_ Hw].
  apply Forall_cons in Hw as [Hc' _]. congruence.
Qed.

Lemma spaces_no_word g1 w g2 : spaces (g1 ++ w ++ g2) -> word w -> False.
Proof.
  intros Hs [Hne Hw]. apply Forall_app in Hs as [_ Hs].
  apply Forall_app in Hs as [Hs _]. destruct w as [|c w]; [contradiction|].
  apply Forall_cons in Hs as [Hc _]. apply Forall_cons in Hw as [Hc' _].
  congruence.
Qed.

(** A text has its words in one way only. *)
Lemma words_of_unique s ws :
  words_of s ws -> forall ws', words_of s ws' -> ws' = ws.
Proof.
  induction 1 as [g Hg|g w Hg Hw|g w c rest ws Hg Hw Hc Hr IH];
    intros ws' H'.
  - inversion H' as [g' Hg' E|g' w' Hg' Hw' E|g' w' c' rest' ws1 Hg' Hw' Hc' Hr' E];
      subst; [reflexivity| |]; exfalso.
    + apply (spaces_no_word g' w' []); [rewrite app_nil_r|]; assumption.
    + apply (spaces_no_word g' w' (c' :: rest')); assumption.
  - inversion H' as [g' Hg' E|g' w' Hg' Hw' E|g' w' c' rest' ws1 Hg' Hw' Hc' Hr' E];
      subst.
    + exfalso. apply (spaces_no_word g w []); [rewrite app_nil_r|]; assumption.
    + rewrite <- (app_nil_r w), <- (app_nil_r w') in E.
      destruct (run_unique isspace g' g _ _ Hg' Hg
                  (word_head w' [] Hw') (word_head w [] Hw) E) as [_ E'].
      rewrite !app_nil_r in E'. subst. reflexivity.
    + exfalso. rewrite <- (app_nil_r w) in E.
      destruct (run_unique isspace g' g _ _ Hg' Hg
                  (word_head w' (c' :: rest') Hw') (word_head w [] Hw) E)
        as [_ E'].
      rewrite app_nil_r in E'. destruct Hw as [_ Hw]. rewrite <- E' in Hw.
      apply (word_no_space _ _ _ Hw Hc').
  - inversion H' as [g' Hg' E|g' w' Hg' Hw' E|g' w' c' rest' ws1 Hg' Hw' Hc' Hr' E];
      subst.
    + exfalso. apply (spaces_no_word g w (c :: rest)); assumption.
    + exfalso. rewrite <- (app_nil_r w') in E.
      destruct (run_unique isspace g' g _ _ Hg' Hg
                  (word_head w' [] Hw') (word_head w (c :: rest) Hw) E)
        as [_ E'].
      rewrite app_nil_r in E'. destruct Hw' as [_ Hw']. rewrite E' in Hw'.
      apply (word_no_space _ _ _ Hw' Hc).
    + destruct (run_unique isspace g' g _ _ Hg' Hg
                  (word_head w' (c' :: rest') Hw')
                  (word_head w (c :: rest) Hw) E) as [_ E'].
      destruct Hw as [Hne Hw], Hw' as [Hne' Hw'].
      destruct (run_unique (fun x => negb (isspace x)) w' w
                  (c' :: rest') (c :: rest)) as [-> E2].
      * eapply Forall_impl; [exact Hw'|]. intros x ->. reflexivity.
      * eapply Forall_impl; [exact Hw|]. intros x ->. reflexivity.
      * exists c', rest'. rewrite Hc'. auto.
      * exists c, rest. rewrite Hc. auto.
      * exact E'.
      * injection E2 as _ ->. f_equal. apply IH, Hr'.
Qed.

End CleanText.

Section CleanTextSpaces.
Context `{PyRuntime}.
(** Line feed, carriage return and the space are white space. *)
Hypothesis space_10 : isspace 10 = true.
Hypothesis space_13 : isspace 13 = true.
Hypothesis space_32 : isspace 32 = true.

Lemma isspace_unbreak c : isspace (unbreak c) = isspace c.
Proof.
  unfold unbreak.
  destruct (Z.eqb_spec c 10) as [->|]; [simpl; congruence|].
  destruct (Z.eqb_spec c 13) as [->|]; [simpl; congruence|]. reflexivity.
Qed.

Lemma filter_unbreak s :
  List.filter (fun c => negb (isspace c)) (map unbreak s)
  = List.filter (fun c => negb (isspace c)) s.
Proof.
  induction s as [|c s IH]; simpl; [reflexivity|].
  rewrite isspace_unbreak, IH.
  destruct (isspace c) eqn:Ec; simpl; [reflexivity|].
  f_equal. unfold unbreak.
  destruct (Z.eqb_spec c 10) as [->|]; [congruence|].
  destruct (Z.eqb_spec c 13) as [->|]; [congruence|]. reflexivity.
Qed.

Lemma split_ws_unbreak s : forall cur,
  split_ws cur (map unbreak s) = split_ws cur s.
Proof.
  induction s as [|c s IH]; intros cur; simpl; [reflexivity|].
  rewrite isspace_unbreak. destruct (isspace c) eqn:Ec.
  - rewrite !IH. reflexivity.
  - rewrite <- IH. do 3 f_equal. unfold unbreak.
    destruct (Z.eqb_spec c 10) as [->|]; [congruence|].
    destruct (Z.eqb_spec c 13) as [->|]; [congruence|]. reflexivity.
Qed.

(** X1. [_clean_text] is the words of the text with one space between
    two of them. The words are the maximal runs of the text that are
    free of white space, in their order: the text has them in one way
    only. So the characters that are not white space are kept, in their
    order, and the result has no white space at either end, no line
    break and no run of spaces. *)
Theorem clean_text_words (s : str) :
  exists ws : list str,
    words_of s ws /\
    (forall ws', words_of s ws' -> ws' = ws) /\
    _clean_text s = join [32] ws /\
    Forall word ws /\
    concat ws = List.filter (fun c => negb (isspace c)) s.
Proof.
  destruct (clean_text_join s) as (ws & E & Hws & Ews).
  rewrite split_ws_unbreak in Ews.
  assert (Hw : words_of s ws).
  { rewrite Ews. apply (split_ws_words_of s []). constructor. }
  exists ws. split; [exact Hw|].
  split; [apply words_of_unique, Hw|].
  split; [exact E|]. split; [exact Hws|].
  rewrite Ews, split_ws_concat. reflexivity.
Qed.

(** X3. [_clean_text] gives the empty string exactly for a text that is
    all white space (the empty text included). *)
Theorem clean_text_empty_iff_blank (s : str) :
  _clean_text s = [] <-> Forall (fun c => isspace c = true) s.
Proof.
  destruct (clean_text_join s) as (ws & E & Hws & Ews). rewrite E.
  assert (Hb : Forall (fun c => isspace c = true) (map unbreak s)
               <-> Forall (fun c => isspace c = true) s).
  { rewrite Forall_map. apply Forall_iff. intros c. simpl.
    rewrite isspace_unbreak. reflexivity. }
  rewrite <- Hb. split.
  - intros En. apply join_nil in En; [|exact Hws]. rewrite En in Ews.
    symmetry in Ews. apply split_ws_nil in Ews. tauto.
  - intros Hs. assert (Hn : ws = []).
    { rewrite Ews. apply split_ws_nil. auto. }
    rewrite Hn. reflexivity.
Qed.

End CleanTextSpaces.

Section CleanTextClaims.
Context `{PyRuntime}.

(** X2. [_clean_text] is idempotent: cleaning a cleaned text changes
    nothing. *)
Theorem clean_text_idempotent (s : str) :
  _clean_text (_clean_text s) = _clean_text s.
Proof. apply clean_text_idem. Qed.

End CleanTextClaims.

(* ===================================================================== *)
(** * The listing URL *)
(* ===================================================================== *)

Section UrlOfPage.
Context `{PyRuntime}.

Lemma int_digits_app x : forall acc y,
  int_digits acc (x ++ y)
  = match int_digits acc x with
    | Some v => int_digits v y
    | None => None
    end.
Proof.
  induction x as [|c x IH]; intros acc y; simpl; [reflexivity|].
  destruct (decimal c); [apply IH|reflexivity].
Qed.

Lemma decimal_digit v : 0 <= v <= 9 -> decimal (48 + v) = Some v.
Proof.
  intros Hv. rewrite decimal_ascii by lia.
  destruct (Z.leb_spec 48 (48 + v)); [|lia].
  destruct (Z.leb_spec (48 + v) 57); [|lia].
  simpl. f_equal. lia.
Qed.

(** The digits [digits_of] writes in front of [acc] start with a digit
    and read back as the number. *)
Lemma digits_of_spec fuel : forall n acc,
  (0 < fuel)%nat -> 0 <= n < 2 ^ Z.of_nat fuel ->
  exists c ds,
    digits_of fuel n acc = (c :: ds) ++ acc /\ 48 <= c <= 57 /\
    forall v, int_digits v (c :: ds)
              = Some (v * 10 ^ Z.of_nat (length (c :: ds)) + n).
Proof.
  induction fuel as [|fuel IH]; intros n acc Hf Hn; [lia|].
  cbn [digits_of]. destruct (Z.ltb_spec n 10) as [Hlt|Hge].
  - exists (48 + n mod 10), []. rewrite Z.mod_small by lia.
    split; [reflexivity|]. split; [lia|]. intros v. cbn [int_digits].
    rewrite decimal_digit by lia. f_equal. simpl. lia.
  - assert (Hp : 0 < 2 ^ Z.of_nat fuel) by (apply Z.pow_pos_nonneg; lia).
    rewrite Nat2Z.inj_succ, Z.pow_succ_r in Hn by lia.
    assert (Hq : 0 <= n / 10 < 2 ^ Z.of_nat fuel).
    { Z.div_mod_to_equations. lia. }
    assert (Hf' : (0 < fuel)%nat).
    { destruct fuel; [simpl in Hn; lia|lia]. }
    destruct (IH (n / 10) ((48 + n mod 10) :: acc) Hf' Hq)
      as (c & ds & E & Hc & Hv).
    exists c, (ds ++ [48 + n mod 10]). rewrite E. split.
    { simpl. rewrite <- app_assoc. reflexivity. }
    split; [exact Hc|]. intros v.
    change (c :: ds ++ [48 + n mod 10])
      with ((c :: ds) ++ [48 + n mod 10]).
    rewrite int_digits_app, Hv. cbn [int_digits].
    assert (Hm : 0 <= n mod 10 <= 9) by (Z.div_mod_to_equations; lia).
    rewrite decimal_digit by exact Hm. f_equal.
    rewrite length_app. cbn [length].
    replace (Z.of_nat (S (length ds) + 1))
      with (Z.succ (Z.of_nat (S (length ds)))) by lia.
    rewrite Z.pow_succ_r by lia.
    pose proof (Z.div_mod n 10 ltac:(lia)) as Hdm.
    set (P := 10 ^ Z.of_nat (S (length ds))). lia.
Qed.

(** [int(str(n)) == n] for a natural number, and [str(n)] starts with a
    digit. *)
Lemma str_of_int_value n :
  0 <= n ->
  exists c ds, str_of_int n = c :: ds /\ 48 <= c <= 57 /\
               int_digits 0 (str_of_int n) = Some n.
Proof.
  intros Hn. unfold str_of_int. destruct (Z.ltb_spec n 0); [lia|].
  destruct (digits_of_spec (S (Z.to_nat (Z.log2 n))) n []) as
    (c & ds & E & Hc & Hv); [lia| |].
  - rewrite Nat2Z.inj_succ, Z2Nat.id by apply Z.log2_nonneg.
    destruct (Z.eq_dec n 0) as [->|Hne]; [simpl; lia|].
    pose proof (Z.log2_spec n ltac:(lia)). lia.
  - rewrite app_nil_r in E. exists c, ds. rewrite E.
    split; [reflexivity|]. split; [exact Hc|]. rewrite Hv. f_equal; lia.
Qed.

Lemma str_of_int_neg n : n < 0 -> str_of_int n = 45 :: str_of_int (- n).
Proof.
  intros Hn. unfold str_of_int.
  destruct (Z.ltb_spec n 0); [|lia].
  destruct (Z.ltb_spec (- n) 0); [lia|]. reflexivity.
Qed.

(** [str] of an integer tells the integer. *)
Lemma str_of_int_inj n m : str_of_int n = str_of_int m -> n = m.
Proof.
  intros E. destruct (Z.lt_ge_cases n 0) as [Hn|Hn];
    destruct (Z.lt_ge_cases m 0) as [Hm|Hm].
  - rewrite (str_of_int_neg n Hn), (str_of_int_neg m Hm) in E.
    injection E as E.
    destruct (str_of_int_value (- n) ltac:(lia)) as (_ & _ & _ & _ & V1).
    destruct (str_of_int_value (- m) ltac:(lia)) as (_ & _ & _ & _ & V2).
    rewrite E in V1. rewrite V1 in V2. injection V2 as V2. lia.
  - exfalso. rewrite (str_of_int_neg n Hn) in E.
    destruct (str_of_int_value m Hm) as (c & ds & E1 & Hc & _).
    rewrite E1 in E. injection E as E _. lia.
  - exfalso. rewrite (str_of_int_neg m Hm) in E.
    destruct (str_of_int_value n Hn) as (c & ds & E1 & Hc & _).
    rewrite E1 in E. injection E as E _. lia.
  - destruct (str_of_int_value n Hn) as (_ & _ & _ & _ & V1).
    destruct (str_of_int_value m Hm) as (_ & _ & _ & _ & V2).
    rewrite E in V1. rewrite V1 in V2. injection V2 as V2. exact V2.
Qed.

Lemma build_url_inj q sv sd ed nso n m :
  build_url q sv sd ed nso n = build_url q sv sd ed nso m -> n = m.
Proof.
  unfold build_url. rewrite !app_assoc. intros E.
  apply app_inv_head in E. apply str_of_int_inj, E.
Qed.

(** X4. The listing URLs of two different offsets differ (whatever the
    query, the sort code and the dates): the offset can be read off the
    end of the URL. *)
Theorem build_url_injective (q : str) (sv : Z) (sd ed nso : str)
    (n m : Z) :
  n <> m ->
  build_url q sv sd ed nso n <> build_url q sv sd ed nso m.
Proof. intros Hne E. apply Hne. eapply build_url_inj, E. Qed.

(** *** The period of the query *)

Lemma filter_digits l :
  Forall (fun c => 48 <= c <= 57) l ->
  List.filter (fun c => negb (c =? 46)) l = l.
Proof.
  induction 1 as [|c l Hc _ IH]; simpl; [reflexivity|].
  destruct (Z.eqb_spec c 46); [lia|]. simpl. rewrite IH. reflexivity.
Qed.

Lemma two_digits_range v :
  0 <= v <= 99 -> Forall (fun c => 48 <= c <= 57) (two_digits v).
Proof.
  intros Hv. unfold two_digits.
  repeat constructor; Z.div_mod_to_equations; lia.
Qed.

Lemma four_digits_range v :
  0 <= v <= 9999 -> Forall (fun c => 48 <= c <= 57) (four_digits v).
Proof.
  intros Hv. unfold four_digits.
  repeat constructor; Z.div_mod_to_equations; lia.
Qed.

Lemma date_strftime_digits y m d :
  1000 <= y <= 9999 -> 0 <= m <= 99 -> 0 <= d <= 99 ->
  date_strftime (y, m, d)
  = four_digits y ++ [46] ++ two_digits m ++ [46] ++ two_digits d.
Proof.
  intros Hy Hm Hd. unfold date_strftime.
  rewrite (fmt_year_four y Hy), !fmt_0d_two by assumption. reflexivity.
Qed.

Lemma replace_dot_date y m d :
  0 <= y <= 9999 -> 0 <= m <= 99 -> 0 <= d <= 99 ->
  replace (lit ".") []
    (four_digits y ++ [46] ++ two_digits m ++ [46] ++ two_digits d)
  = four_digits y ++ two_digits m ++ two_digits d.
Proof.
  intros Hy Hm Hd. change (lit ".") with [46].
  rewrite replace_char_nil, !List.filter_app.
  rewrite (filter_digits _ (four_digits_range y Hy)),
    (filter_digits _ (two_digits_range m Hm)),
    (filter_digits _ (two_digits_range d Hd)).
  reflexivity.
Qed.

End UrlOfPage.

Section FormPeriod.
Context `{PyRuntime} `{PyLibs}.

(** X6. For a form whose two dates have four-digit years, the arguments
    [streamlit_main] hands to [crawl] carry the dates as YYYY.MM.DD, and
    the period of the query is "from", the digits of the start date,
    "to", the digits of the end date: [replace] takes every dot out and
    nothing else. In general the period is the two dates without their
    dots. *)
Theorem form_args_period (f : Form) (ys ms ds ye me de : Z) :
  f_start_date_input f = (ys, ms, ds) ->
  f_end_date_input f = (ye, me, de) ->
  1000 <= ys <= 9999 -> 1 <= ms <= 12 -> 1 <= ds <= 31 ->
  1000 <= ye <= 9999 -> 1 <= me <= 12 -> 1 <= de <= 31 ->
  start_date (form_args f)
  = four_digits ys ++ [46] ++ two_digits ms ++ [46] ++ two_digits ds /\
  end_date (form_args f)
  = four_digits ye ++ [46] ++ two_digits me ++ [46] ++ two_digits de /\
  nso_period_of (form_args f)
  = lit "from" ++ four_digits ys ++ two_digits ms ++ two_digits ds
    ++ lit "to" ++ four_digits ye ++ two_digits me ++ two_digits de /\
  (forall a : Args,
     nso_period_of a
     = lit "from" ++ List.filter (fun c => negb (c =? 46)) (start_date a)
       ++ lit "to" ++ List.filter (fun c => negb (c =? 46)) (end_date a)).
Proof.
  intros Es Ee Hys Hms Hds Hye Hme Hde.
  assert (S1 : start_date (form_args f)
               = four_digits ys ++ [46] ++ two_digits ms ++ [46]
                 ++ two_digits ds).
  { unfold form_args. cbn [start_date]. rewrite Es.
    apply date_strftime_digits; lia. }
  assert (S2 : end_date (form_args f)
               = four_digits ye ++ [46] ++ two_digits me ++ [46]
                 ++ two_digits de).
  { unfold form_args. cbn [end_date]. rewrite Ee.
    apply date_strftime_digits; lia. }
  split; [exact S1|]. split; [exact S2|]. split.
  - unfold nso_period_of. rewrite S1, S2.
    rewrite !replace_dot_date by lia. rewrite <- !app_assoc. reflexivity.
  - intros a. unfold nso_period_of. change (lit ".") with [46].
    rewrite !replace_char_nil. reflexivity.
Qed.

End FormPeriod.

(* ===================================================================== *)
(** * Events, exceptions and files of a computation *)
(* ===================================================================== *)

Lemma article_requests_app tr1 tr2 :
  article_requests (tr1 ++ tr2)
  = article_requests tr1 ++ article_requests tr2.
Proof. unfold article_requests. apply omap_app. Qed.

Lemma ui_messages_app tr1 tr2 :
  ui_messages (tr1 ++ tr2) = ui_messages tr1 ++ ui_messages tr2.
Proof. unfold ui_messages. apply omap_app. Qed.

Lemma emits_bind_post {A B} P (Q : A -> Prop) (c : M A) (k : A -> M B) :
  (forall s a s', c s = (Ok a, s') -> Q a) ->
  emits P c -> (forall a, Q a -> emits P (k a)) -> emits P (bind c k).
Proof.
  intros HQ Hc Hk s. unfold bind. destruct (Hc s) as (e1 & E1 & F1).
  destruct (c s) as [[a|e] s1] eqn:Ec; simpl in E1.
  - destruct (Hk a (HQ s a s1 Ec) s1) as (e2 & E2 & F2).
    exists (e1 ++ e2). rewrite E2, E1, app_assoc. split; [reflexivity|].
    apply Forall_app. auto.
  - exists e1. simpl. auto.
Qed.

Lemma emits_bind {A B} P (c : M A) (k : A -> M B) :
  emits P c -> (forall a, emits P (k a)) -> emits P (bind c k).
Proof.
  intros Hc Hk. apply (emits_bind_post P (fun _ => True)); auto.
Qed.

Lemma emits_ret {A} P (a : A) : emits P (ret a).
Proof. intros s. exists []. simpl. rewrite app_nil_r. auto. Qed.

Lemma emits_raise {A} P e : emits P (@raise A e).
Proof. intros s. exists []. simpl. rewrite app_nil_r. auto. Qed.

Lemma emits_lift {A} P (r : result A) : emits P (lift r).
Proof. intros s. exists []. simpl. rewrite app_nil_r. auto. Qed.

Lemma emits_emit (P : event -> Prop) e : P e -> emits P (emit e).
Proof. intros He s. exists [e]. simpl. auto. Qed.

Lemma emits_weaken {A} (P Q : event -> Prop) (c : M A) :
  (forall e, P e -> Q e) -> emits P c -> emits Q c.
Proof.
  intros HPQ Hc s. destruct (Hc s) as (evs & E & F).
  exists evs. split; [exact E|]. eapply Forall_impl; eauto.
Qed.

Lemma emits_try_except {A} P (c h : M A) :
  emits P c -> emits P h -> emits P (try_except c h).
Proof.
  intros Hc Hh s. unfold try_except. destruct (Hc s) as (e1 & E1 & F1).
  destruct (c s) as [[a|e] s1]; simpl in E1.
  - exists e1. auto.
  - destruct (Hh s1) as (e2 & E2 & F2). exists (e1 ++ e2).
    rewrite E2, E1, app_assoc. split; [reflexivity|].
    apply Forall_app. auto.
Qed.

Lemma emits_datetime_now (P : event -> Prop) W :
  P ENow -> emits P (datetime_now W).
Proof. intros HP s. exists [ENow]. simpl. auto. Qed.

Lemma emits_article_get (P : event -> Prop) W url :
  P (EArticle url) -> emits P (article_get W url).
Proof. intros HP s. exists [EArticle url]. simpl. auto. Qed.

Lemma emits_http_get (P : event -> Prop) W url :
  P (EGet url) -> emits P (http_get W url).
Proof. intros HP s. exists [EGet url]. simpl. auto. Qed.

Lemma emits_uniform (P : event -> Prop) W lo hi :
  P (EUniform lo hi) -> emits P (uniform W lo hi).
Proof. intros HP s. exists [EUniform lo hi]. simpl. auto. Qed.

Lemma emits_sleep (P : event -> Prop) w :
  (sleep_fits w = true -> Qle_bool 0 w = true -> P (ESleep w)) ->
  emits P (sleep w).
Proof.
  intros HP s. unfold sleep.
  destruct (sleep_fits w); cbn [negb]; [destruct (Qle_bool 0 w)|].
  - exists [ESleep w]. simpl. auto.
  - exists []. simpl. rewrite app_nil_r. auto.
  - exists []. simpl. rewrite app_nil_r. auto.
Qed.

Lemma emits_write_file (P : event -> Prop) W path body :
  P (EOpen path) -> emits P (write_file W path body).
Proof.
  intros HP s. unfold write_file. exists [EOpen path].
  destruct (open_ok W (trace s) path); [destruct (encodable body)|];
    simpl; auto.
Qed.

Create HintDb emits.
#[export] Hint Resolve emits_ret emits_raise emits_lift : emits.

Ltac emits_tac :=
  repeat first
    [ apply emits_bind; [|intros ?]
    | solve [auto with emits]
    | match goal with
      | |- emits _ (match ?x with _ => _ end) => destruct x
      | |- emits _ (if ?b then _ else _) => destruct b
      | |- emits _ (let '(_, _) := ?x in _) => destruct x
      end ].

(** *** Exceptions *)

Lemma raises_only_bind {A B} P (c : M A) (k : A -> M B) :
  raises_only P c -> (forall a, raises_only P (k a)) ->
  raises_only P (bind c k).
Proof.
  intros Hc Hk s e. unfold bind. specialize (Hc s).
  destruct (c s) as [[a|e0] s1]; simpl in *.
  - apply Hk.
  - intros E. apply Hc. congruence.
Qed.

Lemma raises_only_ret {A} P (a : A) : raises_only P (ret a).
Proof. intros s e E. discriminate. Qed.

Lemma raises_only_raise {A} (P : exn -> Prop) e :
  P e -> raises_only P (@raise A e).
Proof. intros HP s e0 E. simpl in E. congruence. Qed.

Lemma raises_only_lift {A} (P : exn -> Prop) (r : result A) :
  (forall e, r = Raise e -> P e) -> raises_only P (lift r).
Proof. intros HP s e E. apply HP. exact E. Qed.

Lemma raises_only_emit P e : raises_only P (emit e).
Proof. intros s e0 E. discriminate. Qed.

Lemma raises_only_datetime_now P W : raises_only P (datetime_now W).
Proof. intros s e E. discriminate. Qed.

Lemma raises_only_article_get P W url : raises_only P (article_get W url).
Proof. intros s e E. discriminate. Qed.

Create HintDb raises.
#[export] Hint Resolve raises_only_ret raises_only_emit
  raises_only_datetime_now raises_only_article_get : raises.

Ltac raises_tac :=
  repeat first
    [ apply raises_only_bind; [|intros ?]
    | solve [auto with raises]
    | match goal with
      | |- raises_only _ (match ?x with _ => _ end) => destruct x
      | |- raises_only _ (if ?b then _ else _) => destruct b
      | |- raises_only _ (let '(_, _) := ?x in _) => destruct x
      end ].

(** *** Article requests *)

Lemma fetches_bind {A B} n m (c : M A) (k : A -> M B) :
  fetches_at_most n c -> (forall a, fetches_at_most m (k a)) ->
  fetches_at_most (n + m) (bind c k).
Proof.
  intros Hc Hk s. unfold bind. specialize (Hc s).
  destruct (c s) as [[a|e] s1]; simpl in *.
  - specialize (Hk a s1). lia.
  - lia.
Qed.

Lemma fetches_weaken {A} n m (c : M A) :
  (n <= m)%nat -> fetches_at_most n c -> fetches_at_most m c.
Proof. intros Hnm Hc s. specialize (Hc s). lia. Qed.

Lemma fetches_ret {A} n (a : A) : fetches_at_most n (ret a).
Proof. intros s. simpl. lia. Qed.

Lemma fetches_clock {A} (c : M A) :
  emits clock_event c -> fetches_at_most 0 c.
Proof.
  intros Hc s. destruct (Hc s) as (evs & E & F). rewrite E.
  rewrite article_requests_app, length_app. clear E.
  assert (Hn : article_requests evs = []).
  { induction F as [|e evs He _ IH]; [reflexivity|].
    rewrite He. simpl. exact IH. }
  rewrite Hn. simpl. lia.
Qed.

(* ===================================================================== *)
(** * The record extractor: cards, events, exceptions *)
(* ===================================================================== *)

Lemma before_dot_no_dot s : Forall (fun c => c <> 46) (before_dot s).
Proof.
  induction s as [|c s IH]; simpl; [constructor|].
  destruct (Z.eqb_spec c 46); constructor; assumption.
Qed.

Section ExtractorEvents.
Context `{PyRuntime} `{PyLibs} (W : World).

(** *** Events *)

Lemma emits_normalize (P : event -> Prop) text :
  P ENow -> emits P (_normalize_relative_date W text).
Proof.
  intros HP. unfold _normalize_relative_date.
  apply emits_bind; [apply emits_datetime_now, HP|]. intros now.
  emits_tac.
Qed.

Lemma emits_date_from_spans (P : event -> Prop) sps :
  P ENow -> emits P (date_from_spans W sps).
Proof.
  intros HP. induction sps as [|sp rest IH]; simpl; [apply emits_ret|].
  destruct (search DATE_PAT _); [apply emits_ret|].
  apply emits_bind; [apply emits_normalize, HP|].
  intros rel. destruct (truthy rel); [apply emits_ret|exact IH].
Qed.

Lemma emits_date_from_time (P : event -> Prop) box :
  P ENow -> emits P (date_from_time W box).
Proof.
  intros HP. unfold date_from_time.
  destruct (select_one QFindTime box); [|apply emits_ret].
  destruct (truthy _); [apply emits_ret|].
  destruct (search DATE_PAT _); [apply emits_ret|].
  apply emits_normalize, HP.
Qed.

Lemma emits_extract_date_from_article (P : event -> Prop) url :
  P (EArticle url) -> emits P (_extract_date_from_article W url).
Proof.
  intros HP. unfold _extract_date_from_article.
  apply emits_bind; [apply emits_article_get, HP|]. intros r. emits_tac.
Qed.

Lemma card_link_anchor box a :
  link_anchor box = Some a ->
  card_link box
  = strip (match get a "href" with Some h => h | None => [] end).
Proof. intros E. unfold card_link. rewrite E. reflexivity. Qed.

Lemma emits_parse_box boxes box :
  box ∈ boxes -> emits (extractor_event boxes) (parse_box W box).
Proof.
  intros Hin. unfold parse_box.
  destruct (negb (truthy (_extract_title_from_card box)));
    [apply emits_ret|].
  destruct (link_anchor box) as [a|] eqn:Ea; [|apply emits_ret].
  rewrite <- (card_link_anchor box a Ea).
  destruct (truthy (card_link box)) eqn:El; simpl; [|apply emits_ret].
  assert (Hnow : extractor_event boxes ENow) by (left; reflexivity).
  apply emits_bind; [apply emits_date_from_spans, Hnow|]. intros d_a.
  apply emits_bind.
  { destruct (negb (truthy d_a));
      [apply emits_date_from_spans, Hnow|apply emits_ret]. }
  intros d_b. apply emits_bind.
  { destruct (negb (truthy d_b));
      [apply emits_date_from_time, Hnow|apply emits_ret]. }
  intros d_c.
  apply (emits_bind_post _
           (fun d_d => d_d = [] ->
                       _extract_date_from_url (card_link box) = [])).
  - intros s0 d s1. destruct (truthy d_c) eqn:Ec; simpl;
      unfold ret; intros E; inversion E; subst.
    + intros ->. discriminate.
    + auto.
  - destruct (negb (truthy d_c) && true); apply emits_ret.
  - intros d_d Hd. apply emits_bind; [|intros; apply emits_ret].
    destruct (truthy d_d) eqn:Ed; simpl; [apply emits_ret|].
    apply emits_extract_date_from_article. right. exists box.
    split; [exact Hin|]. split; [reflexivity|].
    apply Hd. destruct d_d; [reflexivity|discriminate].
Qed.

Lemma emits_parse_boxes boxes : forall sub rows,
  (forall b, b ∈ sub -> b ∈ boxes) ->
  emits (extractor_event boxes) (parse_boxes W rows sub).
Proof.
  induction sub as [|box rest IH]; intros rows Hsub; simpl.
  - apply emits_ret.
  - apply emits_bind.
    + apply emits_parse_box, Hsub, list_elem_of_here.
    + intros r. apply IH. intros b Hb.
      apply Hsub, list_elem_of_further, Hb.
Qed.

(** *** Article requests *)

Lemma fetches_extract_date_from_article url :
  fetches_at_most 1 (_extract_date_from_article W url).
Proof.
  intros s. unfold _extract_date_from_article, bind, article_get.
  destruct (session_get W (trace s) url) as [code html| |]; simpl;
    try destruct (code =? 200); simpl;
    rewrite article_requests_app, length_app; simpl; lia.
Qed.

Lemma fetches_parse_box box : fetches_at_most 1 (parse_box W box).
Proof.
  unfold parse_box.
  destruct (negb (truthy (_extract_title_from_card box)));
    [apply fetches_ret|].
  destruct (link_anchor box) as [a|]; [|apply fetches_ret].
  destruct (negb (truthy (strip _))); [apply fetches_ret|].
  assert (Hnow : clock_event ENow) by reflexivity.
  apply (fetches_bind 0 1).
  { apply fetches_clock, emits_date_from_spans, Hnow. }
  intros d_a. apply (fetches_bind 0 1).
  { destruct (negb (truthy d_a)); [|apply fetches_ret].
    apply fetches_clock, emits_date_from_spans, Hnow. }
  intros d_b. apply (fetches_bind 0 1).
  { destruct (negb (truthy d_b)); [|apply fetches_ret].
    apply fetches_clock, emits_date_from_time, Hnow. }
  intros d_c. apply (fetches_bind 0 1).
  { destruct (_ && _); apply fetches_ret. }
  intros d_d. apply (fetches_bind 1 0); [|intros; apply fetches_ret].
  destruct (_ && _); [|apply fetches_ret].
  apply fetches_extract_date_from_article.
Qed.

Lemma fetches_parse_boxes boxes : forall rows,
  fetches_at_most (length boxes) (parse_boxes W rows boxes).
Proof.
  induction boxes as [|box rest IH]; intros rows; simpl.
  - apply fetches_ret.
  - apply (fetches_bind 1 (length rest)); [apply fetches_parse_box|].
    intros r. apply IH.
Qed.

(** *** Exceptions *)

Lemma py_int_raises s e : py_int s = Raise e -> e = ValueError.
Proof.
  unfold py_int. intros E.
  repeat match type of E with
         | context [match ?x with _ => _ end] => destruct x
         end; congruence.
Qed.

Lemma timedelta_raises us e : timedelta us = Raise e -> e = OverflowError.
Proof. unfold timedelta. destruct (_ <=? _); congruence. Qed.

Lemma datetime_sub_raises dt td e :
  datetime_sub dt td = Raise e -> e = OverflowError.
Proof. unfold datetime_sub. destruct (_ && _); congruence. Qed.

Lemma raises_normalize text :
  raises_only date_error (_normalize_relative_date W text).
Proof.
  unfold _normalize_relative_date.
  apply raises_only_bind; [auto with raises|]. intros now.
  destruct (search REL_PAT _).
  - apply raises_only_bind.
    { apply raises_only_lift. intros e E. left.
      eapply py_int_raises, E. }
    intros n. apply raises_only_bind.
    { apply raises_only_lift. intros e E. right.
      eapply timedelta_raises, E. }
    intros td. apply raises_only_bind; [|intros; apply raises_only_ret].
    apply raises_only_lift. intros e E. right.
    eapply datetime_sub_raises, E.
  - destruct (contains U_eoje _).
    + apply raises_only_bind.
      { apply raises_only_lift. intros e E. right.
        eapply timedelta_raises, E. }
      intros td. apply raises_only_bind; [|intros; apply raises_only_ret].
      apply raises_only_lift. intros e E. right.
      eapply datetime_sub_raises, E.
    + destruct (contains U_oneul _); apply raises_only_ret.
Qed.

Lemma raises_date_from_spans sps :
  raises_only date_error (date_from_spans W sps).
Proof.
  induction sps as [|sp rest IH]; simpl; [apply raises_only_ret|].
  destruct (search DATE_PAT _); [apply raises_only_ret|].
  apply raises_only_bind; [apply raises_normalize|].
  intros rel. destruct (truthy rel); [apply raises_only_ret|exact IH].
Qed.

Lemma raises_date_from_time box :
  raises_only date_error (date_from_time W box).
Proof.
  unfold date_from_time.
  destruct (select_one QFindTime box); [|apply raises_only_ret].
  destruct (truthy _); [apply raises_only_ret|].
  destruct (search DATE_PAT _); [apply raises_only_ret|].
  apply raises_normalize.
Qed.

Lemma raises_extract_date_from_article P url :
  raises_only P (_extract_date_from_article W url).
Proof. unfold _extract_date_from_article. raises_tac. Qed.

Hint Resolve raises_date_from_spans raises_date_from_time
  raises_extract_date_from_article : raises.

Lemma raises_parse_box box : raises_only date_error (parse_box W box).
Proof. unfold parse_box. raises_tac. Qed.

Lemma raises_parse_boxes boxes : forall rows,
  raises_only date_error (parse_boxes W rows boxes).
Proof.
  induction boxes as [|box rest IH]; intros rows; simpl.
  - apply raises_only_ret.
  - apply raises_only_bind; [apply raises_parse_box|]. intros r. apply IH.
Qed.

(** *** The rows and the cards *)

Lemma parse_box_result box s r s' :
  parse_box W box s = (Ok r, s') ->
  match r with
  | Some row =>
      yields_row box = true /\
      Title row = _extract_title_from_card box /\
      Source row = _extract_source_from_card box (card_link box) /\
      Link row = card_link box
  | None => yields_row box = false
  end.
Proof.
  unfold parse_box, yields_row, card_link.
  destruct (truthy (_extract_title_from_card box)) eqn:Et; simpl;
    [|intros E; inversion E; reflexivity].
  destruct (link_anchor box) as [a|];
    [|intros E; inversion E; reflexivity].
  destruct (truthy (strip _)) eqn:El; simpl;
    [|intros E; inversion E; reflexivity].
  intros E.
  apply bind_ok_inv in E as (d_a & s1 & _ & E).
  apply bind_ok_inv in E as (d_b & s2 & _ & E).
  apply bind_ok_inv in E as (d_c & s3 & _ & E).
  apply bind_ok_inv in E as (d_d & s4 & _ & E).
  apply bind_ok_inv in E as (d_e & s5 & _ & E).
  inversion E; subst; simpl. auto.
Qed.

Lemma parse_boxes_cards boxes : forall rows0 s rows s',
  parse_boxes W rows0 boxes s = (Ok rows, s') ->
  exists new,
    rows = rows0 ++ new /\
    map Title new
    = map _extract_title_from_card (List.filter yields_row boxes) /\
    map Source new
    = map (fun b => _extract_source_from_card b (card_link b))
          (List.filter yields_row boxes) /\
    map Link new = map card_link (List.filter yields_row boxes).
Proof.
  induction boxes as [|box rest IH]; intros rows0 s rows s' E.
  - inversion E; subst. exists []. rewrite app_nil_r. auto.
  - simpl in E. apply bind_ok_inv in E as (r & s1 & Eb & E).
    apply parse_box_result in Eb.
    apply IH in E as (new & -> & Ht & Hs & Hl).
    destruct r as [row|].
    + destruct Eb as (Ey & Et & Es & El).
      exists (row :: new). simpl. rewrite Ey. simpl.
      rewrite <- app_assoc, Ht, Hs, Hl, Et, Es, El. auto.
    + exists new. simpl. rewrite Eb. auto.
Qed.

End ExtractorEvents.

Section ExtractorExtras.
Context `{PyRuntime} `{PyLibs} (W : World).

(** X9. When [parse_page] returns, its rows are those of the cards that
    have a title and a link, one row for each of them and in the order of
    the page: the titles, the sources and the links of the rows are what
    the title chain, the source chain and the link resolution read off
    these cards. (What the page's effects decide is the dates only.) *)
Theorem parse_page_rows_of_cards (html : str) (s : state)
    (rows : list Row) (s' : state) :
  parse_page W html s = (Ok rows, s') ->
  let cards := List.filter yields_row (boxes_of (BeautifulSoup html)) in
  map Title rows = map _extract_title_from_card cards /\
  map Source rows
  = map (fun b => _extract_source_from_card b (card_link b)) cards /\
  map Link rows = map card_link cards /\
  (length rows <= length (boxes_of (BeautifulSoup html)))%nat.
Proof.
  intros E cards. unfold parse_page in E.
  apply parse_boxes_cards in E as (new & -> & Ht & Hs & Hl).
  simpl. repeat split; try assumption.
  rewrite <- (length_map Title), Ht, length_map.
  apply List.filter_length_le.
Qed.

(** X10. The HTML parser and its queries raising nothing, the only
    exceptions that leave [parse_page] are [ValueError] and
    [OverflowError]: those of [int] and of the [datetime] arithmetic in
    [_normalize_relative_date], which nothing on the way catches. *)
Theorem parse_page_raises_only (html : str) (s : state) (e : exn) :
  fst (parse_page W html s) = Raise e ->
  e = ValueError \/ e = OverflowError.
Proof. apply (raises_parse_boxes W _ []). Qed.

(** X11. Parsing a page reads the clock and requests articles, and does
    nothing else; every article it requests is the link of a card of
    the page in which [_extract_date_from_url] finds no date, and there
    are no more article requests than cards. *)
Theorem parse_page_article_requests (html : str) (s : state) :
  let boxes := boxes_of (BeautifulSoup html) in
  exists evs,
    trace (snd (parse_page W html s)) = trace s ++ evs /\
    Forall (extractor_event boxes) evs /\
    (length (article_requests evs) <= length boxes)%nat.
Proof.
  intros boxes.
  destruct (emits_parse_boxes W boxes boxes [] (fun b Hb => Hb) s)
    as (evs & E & F).
  exists evs. split; [exact E|]. split; [exact F|].
  pose proof (fetches_parse_boxes W boxes [] s) as Hn.
  fold boxes in E. unfold parse_page. fold boxes.
  rewrite E, article_requests_app, length_app in Hn. lia.
Qed.

End ExtractorExtras.

(* ===================================================================== *)
(** * The record extractor: titles, sources and absolute dates *)
(* ===================================================================== *)

Section CardFields.
Context `{PyRuntime} `{PyLibs} (W : World).

Lemma keyword_anchor_clean l :
  _clean_text (keyword_anchor l) = keyword_anchor l.
Proof.
  induction l as [|x l IH]; cbn [keyword_anchor]; [apply clean_text_nil|].
  destruct (_ && _); [apply clean_text_idem|exact IH].
Qed.

(** X23. The title read off a card is a cleaned text, whichever step of
    the chain gives it: cleaning it again changes nothing. *)
Theorem title_from_card_normalised (box : Tag) :
  _clean_text (_extract_title_from_card box) = _extract_title_from_card box.
Proof.
  unfold _extract_title_from_card.
  destruct (select_one QHeadline box); [apply clean_text_idem|].
  destruct (match select_one QAHasHeadline box with
            | Some a => select_one QHeadline a
            | None => None
            end); [apply clean_text_idem|].
  destruct (or_else _ _); [apply clean_text_idem|].
  apply keyword_anchor_clean.
Qed.

(** X22. The source of a card does not depend on the link when the card
    itself names a publisher (the chain run without a link gives a
    source): then it is that source. When the card names none, the
    source is a token without a dot (what comes before the first dot of
    the host of the link) or empty. *)
Theorem source_from_card_cases (box : Tag) (link : str) :
  let dom := _extract_source_from_card box [] in
  (dom <> [] -> _extract_source_from_card box link = dom) /\
  (dom = [] ->
   Forall (fun c => c <> 46) (_extract_source_from_card box link)).
Proof.
  unfold _extract_source_from_card. cbv zeta.
  destruct (truthy (match select_one QPress box with
                    | Some sp => _clean_text (get_text sp)
                    | None => []
                    end)) eqn:E1.
  { split; [reflexivity|]. intros E. rewrite E in E1. discriminate. }
  destruct (truthy (match or_else (select_one QAInfoPress box)
                                  (select_one QInfoGroupA box) with
                    | Some a => _clean_text (get_text a)
                    | None => []
                    end)) eqn:E2.
  { split; [reflexivity|]. intros E. rewrite E in E2. discriminate. }
  destruct (truthy (match select_one QFindPressClass box with
                    | Some cand =>
                        if truthy (_clean_text (get_text cand))
                           && (length (_clean_text (get_text cand))
                               <=? 30)%nat
                        then _clean_text (get_text cand) else []
                    | None => []
                    end)) eqn:E3.
  { split; [reflexivity|]. intros E. rewrite E in E3. discriminate. }
  simpl. split; [intros E; contradiction|]. intros _.
  destruct (truthy link); [|constructor].
  destruct (netloc link) as [nl|]; [|constructor].
  destruct (truthy (replace _ _ nl)); [apply before_dot_no_dot|constructor].
Qed.

End CardFields.

Section AbsoluteDates.
Context `{PyRuntime}.

Lemma DATE_PAT_eq :
  DATE_PAT
  = RCat (RLit [50; 48])
      (RCat (RRep CDigit 2 (Some 2%nat))
         (RCat (RLit [46])
            (RCat (RRep CDigit 1 (Some 2%nat))
               (RCat (RLit [46]) (RRep CDigit 1 (Some 2%nat)))))).
Proof. reflexivity. Qed.

Lemma matches_DATE_PAT w g :
  matches DATE_PAT w g <-> g = [] /\ dotted_date w.
Proof.
  rewrite DATE_PAT_eq. split.
  - intros Hm. inv_matches. simpl. split; [reflexivity|].
    match goal with
    | |- dotted_date (50 :: 48 :: ?t ++ 46 :: ?mo ++ 46 :: ?d) =>
        exists ([50; 48] ++ t), mo, d
    end.
    split; [apply year20_intro; assumption|].
    repeat split; auto; lia.
  - intros (-> & y & mo & d & (a & b & -> & Hy) & Hmo & Lmo & Hd & Ld & ->).
    change (matches
              (RCat (RLit [50; 48])
                 (RCat (RRep CDigit 2 (Some 2%nat))
                    (RCat (RLit [46])
                       (RCat (RRep CDigit 1 (Some 2%nat))
                          (RCat (RLit [46])
                             (RRep CDigit 1 (Some 2%nat)))))))
              ([50; 48] ++ ([a; b] ++ ([46] ++ (mo ++ ([46] ++ d)))))
              ([] ++ ([] ++ ([] ++ ([] ++ ([] ++ [])))))).
    build_matches.
Qed.

Lemma dotted_date_nonempty w : dotted_date w -> truthy w = true.
Proof.
  intros (y & mo & d & (a & b & -> & _) & _ & _ & _ & _ & ->).
  reflexivity.
Qed.

(** *** What the engine reports first *)

(** The first match of [r1r2]: a match of [r1], and the first match of
    [r2] after it. *)
Lemma rmatch_cat_head r1 r2 s m tl :
  rmatch (RCat r1 r2) s = m :: tl ->
  exists m1 m2 tl2,
    In m1 (rmatch r1 s) /\ rmatch r2 (m_rest m1) = m2 :: tl2 /\
    m = RM (m_text m1 ++ m_text m2) (m_groups m1 ++ m_groups m2)
           (m_rest m2).
Proof.
  simpl. induction (rmatch r1 s) as [|m1 l IH]; simpl; [discriminate|].
  destruct (rmatch r2 (m_rest m1)) as [|m2 tl2] eqn:E2; simpl.
  - intros E. destruct (IH E) as (m1' & m2' & tl2' & Hin & Hm2 & Hm).
    exists m1', m2', tl2'. auto.
  - intros E. injection E as <- _. exists m1, m2, tl2. auto.
Qed.

(** The first match of a greedy repetition is the longest run. *)
Lemma rmatch_rep_head k lo hi s m tl :
  rmatch (RRep k lo hi) s = m :: tl ->
  m_text m = take (run_length k hi s) s /\
  (lo <= run_length k hi s)%nat.
Proof.
  simpl. destruct (run_length k hi s) as [|n] eqn:En; simpl.
  - destruct lo; simpl; [|discriminate].
    intros E. injection E as <- _. split; [reflexivity|lia].
  - destruct (Nat.ltb_spec (S n) lo); simpl; [discriminate|].
    intros E. injection E as <- _. split; [reflexivity|lia].
Qed.

Lemma run_length_length k hi s : (run_length k hi s <= length s)%nat.
Proof.
  destruct (run_length_le k s hi (run_length k hi s)) as [Hl _].
  apply Hl. lia.
Qed.

Lemma dot_not_digit : isdigit 46 = false.
Proof. unfold isdigit. rewrite decimal_ascii by lia. reflexivity. Qed.

(** The first match of [DATE_PAT] at a position: the year, the month up
    to the dot, and as many digits of the day as there are, up to two. *)
Lemma rmatch_DATE_PAT_head suf m tl :
  rmatch DATE_PAT suf = m :: tl ->
  exists y mo rest,
    year20 y /\ digits mo /\
    suf = y ++ [46] ++ mo ++ [46] ++ rest /\
    m_text m
    = y ++ [46] ++ mo ++ [46]
      ++ take (run_length CDigit (Some 2%nat) rest) rest.
Proof.
  rewrite DATE_PAT_eq. intros E.
  apply rmatch_cat_head in E as (m1 & n1 & t1 & H1 & E & ->).
  apply rmatch_cat_head in E as (m2 & n2 & t2 & H2 & E & ->).
  apply rmatch_cat_head in E as (m3 & n3 & t3 & H3 & E & ->).
  apply rmatch_cat_head in E as (m4 & n4 & t4 & H4 & E & ->).
  apply rmatch_cat_head in E as (m5 & n5 & t5 & H5 & E & ->).
  apply rmatch_rep_head in E as [E _].
  apply rmatch_matches in H1 as [M1 S1]. apply rmatch_matches in H2 as [M2 S2].
  apply rmatch_matches in H3 as [M3 S3]. apply rmatch_matches in H4 as [M4 S4].
  apply rmatch_matches in H5 as [M5 S5].
  destruct m1 as [x1 g1 r1], m2 as [x2 g2 r2], m3 as [x3 g3 r3],
           m4 as [x4 g4 r4], m5 as [x5 g5 r5]. simpl in *.
  inv_matches.
  exists ([50; 48] ++ x2), x4, r5. split; [apply year20_intro; assumption|].
  split; [assumption|]. rewrite E, <- !app_assoc. split; reflexivity.
Qed.

(** [search] reports the first match at the leftmost position that has
    one. *)
Lemma search_Some_head r s m :
  search r s = Some m ->
  exists pre tl,
    s = pre ++ m_text m ++ m_rest m /\
    rmatch r (m_text m ++ m_rest m) = m :: tl /\
    forall pre' t post g,
      s = pre' ++ t ++ post -> matches r t g ->
      (length pre <= length pre')%nat.
Proof.
  intros E. apply search_Some in E as (pre & suf & tl & -> & Hm & Hleft).
  assert (Hin : In m (rmatch r suf)) by (rewrite Hm; left; auto).
  apply rmatch_matches in Hin as [Hmat Hs]. rewrite <- Hs.
  exists pre, tl. split; [reflexivity|]. split; [exact Hm|].
  intros pre' t post g Hs' Hmat'.
  destruct (Nat.le_gt_cases (length pre) (length pre')) as [|Hlt]; auto.
  exfalso.
  assert (Hin : In (RM t g post) (rmatch r (t ++ post))).
  { apply rmatch_matches. simpl. auto. }
  rewrite (Hleft pre' (t ++ post) Hs' Hlt) in Hin. exact Hin.
Qed.

(** No date that starts where the first match of [DATE_PAT] starts is
    longer than that match. *)
Lemma DATE_PAT_longest suf m tl w post :
  rmatch DATE_PAT suf = m :: tl ->
  suf = w ++ post -> dotted_date w ->
  (length w <= length (m_text m))%nat.
Proof.
  intros E Hs (y' & mo' & d' & (a' & b' & -> & _) & Hmo' & _ & Hd' & Ld'
               & ->).
  apply rmatch_DATE_PAT_head in E
    as (y & mo & rest & (a & b & -> & _) & Hmo & Es & ->).
  rewrite Es in Hs. simpl in Hs. injection Hs as _ _ Hs.
  rewrite <- !app_assoc in Hs.
  destruct (run_unique isdigit mo mo' ([46] ++ rest)
              ([46] ++ d' ++ post) Hmo Hmo') as [-> Er]; [| |exact Hs|].
  { exists 46, rest. split; [reflexivity|apply dot_not_digit]. }
  { exists 46, (d' ++ post). split; [reflexivity|apply dot_not_digit]. }
  injection Er as ->.
  assert (Hj : (length d' <= run_length CDigit (Some 2%nat) (d' ++ post))%nat).
  { apply run_length_le. rewrite length_app, take_app_length.
    split; [lia|]. split; [exact Hd'|lia]. }
  pose proof (run_length_length CDigit (Some 2%nat) (d' ++ post)) as Hl.
  simpl. rewrite !length_app. simpl. rewrite length_take. lia.
Qed.

End AbsoluteDates.

Section AbsoluteDateExtras.
Context `{PyRuntime} `{PyLibs} (W : World).

(** X12. When the cleaned text of the first date span of a card (one with
    a title and a link) holds a date written 20YY.M.D, the date of the
    card's row is such a date as the text has it (month and day keep the
    digits they have): the one that starts where the leftmost such date
    starts, with every digit of the day that the text has there (of the
    dates that start there, the longest). The clock is not read, no
    request is made, nothing is raised: the state is what it was. *)
Theorem parse_box_absolute_date (box sp : Tag) (rest : list Tag)
    (s : state) :
  yields_row box = true ->
  select box QInfoSpans = sp :: rest ->
  (exists pre w post,
     _clean_text (get_text sp) = pre ++ w ++ post /\ dotted_date w) ->
  exists w pre post,
    parse_box W box s
    = (Ok (Some {| Title := _extract_title_from_card box;
                   Date := w;
                   Source := _extract_source_from_card box (card_link box);
                   Link := card_link box |}), s) /\
    dotted_date w /\
    _clean_text (get_text sp) = pre ++ w ++ post /\
    (forall pre' w' post',
       _clean_text (get_text sp) = pre' ++ w' ++ post' ->
       dotted_date w' -> (length pre <= length pre')%nat) /\
    (forall w' post',
       _clean_text (get_text sp) = pre ++ w' ++ post' ->
       dotted_date w' -> (length w' <= length w)%nat).
Proof.
  intros Hy Hsel (pre0 & w0 & post0 & Et & Hw0).
  destruct (search_occurs DATE_PAT (_clean_text (get_text sp))) as [m Em].
  { exists pre0, w0, post0, []. split; [exact Et|].
    apply matches_DATE_PAT. auto. }
  destruct (search_Some_head DATE_PAT _ m Em) as (pre & tl & Ep & Hh & Hfirst).
  assert (Hd : dotted_date (m_text m)).
  { assert (Hin : In m (rmatch DATE_PAT (m_text m ++ m_rest m)))
      by (rewrite Hh; left; reflexivity).
    apply rmatch_matches in Hin as [Hm _].
    apply matches_DATE_PAT in Hm as [_ Hd]. exact Hd. }
  exists (m_text m), pre, (m_rest m).
  split; [|split; [exact Hd|split; [exact Ep|split]]].
  - unfold yields_row in Hy. apply andb_true_iff in Hy as [Ht Hl].
    unfold parse_box. rewrite Ht. cbn [negb].
    unfold card_link in *.
    destruct (link_anchor box) as [a|]; [|discriminate].
    rewrite Hl. cbn [negb]. rewrite Hsel. cbn [date_from_spans].
    rewrite Em. unfold bind, ret.
    repeat (rewrite (dotted_date_nonempty _ Hd); cbn [negb andb]).
    reflexivity.
  - intros pre' w' post' Et' Hw'.
    apply (Hfirst pre' w' post' [] Et'). apply matches_DATE_PAT. auto.
  - intros w' post' Et' Hw'. rewrite Ep in Et'.
    apply app_inv_head in Et'.
    exact (DATE_PAT_longest _ m tl w' post' Hh Et' Hw').
Qed.

End AbsoluteDateExtras.

(* ===================================================================== *)
(** * The driver: what a pass can do *)
(* ===================================================================== *)

Section PassViews.
Context `{PyRuntime} `{PyLibs} (W : World).

Lemma iteration_page a cs s text :
  page_count cs + 1 <= max_pages a ->
  session_get W (trace s ++ [ELog (LogRequest (page_url a (start cs)))])
              (page_url a (start cs)) = Response 200 text ->
  iteration W a cs s
  = page_pass W a (stopped cs) text (requested (page_url a (start cs)) s).
Proof.
  intros Hle Hresp. rewrite (iteration_ok_page W a cs s text Hle Hresp).
  reflexivity.
Qed.

Lemma iteration_other_exception a cs s :
  page_count cs + 1 <= max_pages a ->
  session_get W (trace s ++ [ELog (LogRequest (page_url a (start cs)))])
              (page_url a (start cs)) = OtherException ->
  iteration W a cs s
  = (Raise OtherError, requested (page_url a (start cs)) s).
Proof.
  intros Hle Hresp. unfold iteration. simpl.
  destruct (Z.ltb_spec (max_pages a) (page_count cs + 1)); [lia|].
  unfold bind, log, emit, http_get. simpl. rewrite Hresp. simpl.
  unfold requested, raise. rewrite state_assoc. reflexivity.
Qed.

(** The four ways of a pass: the stop at the maximum, a failed request,
    an exception of the request that is no [RequestException], and a
    page. *)
Lemma iteration_view a cs s :
  (max_pages a < page_count cs + 1 /\
   iteration W a cs s
   = (Ok (Break, stopped cs),
      {| trace := trace s ++ [ELog (LogMaxPages (max_pages a))];
         files := files s |}))
  \/
  (page_count cs + 1 <= max_pages a /\
   ((exists line,
       stop_reason line /\
       iteration W a cs s
       = (Ok (Break, stopped cs),
          {| trace := trace (requested (page_url a (start cs)) s)
                      ++ [ELog line];
             files := files s |})) \/
    (session_get W
       (trace s ++ [ELog (LogRequest (page_url a (start cs)))])
       (page_url a (start cs)) = OtherException /\
     iteration W a cs s
     = (Raise OtherError, requested (page_url a (start cs)) s)) \/
    (exists text,
       session_get W
         (trace s ++ [ELog (LogRequest (page_url a (start cs)))])
         (page_url a (start cs)) = Response 200 text /\
       iteration W a cs s
       = page_pass W a (stopped cs) text
           (requested (page_url a (start cs)) s)))).
Proof.
  destruct (Z.lt_ge_cases (max_pages a) (page_count cs + 1)) as [Hlt|Hge].
  - left. split; [exact Hlt|].
    destruct (iteration_cases W a cs s) as [[_ E]|(Hle & _)];
      [exact E|lia].
  - right. split; [lia|].
    destruct (session_get W
                (trace s ++ [ELog (LogRequest (page_url a (start cs)))])
                (page_url a (start cs))) as [code text| |] eqn:Er.
    + destruct (Z.eq_dec code 200) as [->|Hne].
      * right; right. exists text. split; [reflexivity|].
        apply iteration_page; [lia|exact Er].
      * left. exists (LogStatus code (start cs)). split; [exact I|].
        rewrite (iteration_bad_status W a cs s code text)
          by (assumption || lia).
        unfold requested. simpl. rewrite <- app_assoc. reflexivity.
    + left. exists LogException. split; [exact I|].
      rewrite (iteration_request_exception W a cs s)
        by (assumption || lia).
      unfold requested. simpl. rewrite <- app_assoc. reflexivity.
    + right; left. split; [reflexivity|].
      apply iteration_other_exception; [lia|exact Er].
Qed.

(** The three ways of a page: its parsing raises, it has no rows, it has
    rows. *)
Lemma page_pass_cases a cs text s1 :
  (exists e s2,
     parse_page W text s1 = (Raise e, s2) /\
     page_pass W a cs text s1 = (Raise e, s2))
  \/
  (exists s2,
     parse_page W text s1 = (Ok [], s2) /\
     page_pass W a cs text s1
     = if open_ok W (trace s2) "debug_naver.html"
       then
         if encodable text
         then (Ok (Break, cs),
               {| trace := trace s2 ++ [EOpen "debug_naver.html";
                                        ELog (LogNoRows (start cs))];
                  files := <["debug_naver.html" := text]> (files s2) |})
         else (Raise UnicodeEncodeError,
               {| trace := trace s2 ++ [EOpen "debug_naver.html"];
                  files := <["debug_naver.html" := []]> (files s2) |})
       else (Raise OSError,
             {| trace := trace s2 ++ [EOpen "debug_naver.html"];
                files := files s2 |}))
  \/
  (exists rows s2,
     parse_page W text s1 = (Ok rows, s2) /\ rows <> [] /\
     let cs1 := fst (admit_rows rows cs) in
     let n := snd (admit_rows rows cs) in
     let line := ELog (LogPage (start cs) (length rows) n) in
     let lo := fst (sleep_bounds a) in
     let hi := snd (sleep_bounds a) in
     let w := random_uniform W (trace s2 ++ [line]) lo hi in
     page_pass W a cs text s1
     = if negb (sleep_fits w)
       then (Raise OverflowError,
             {| trace := trace s2 ++ [line; EUniform lo hi];
                files := files s2 |})
       else if Qle_bool 0 w
       then (Ok (if (n =? 0)%nat then Break else Continue,
                 with_start cs1 (start cs1 + 10)),
             {| trace := trace s2 ++ [line; EUniform lo hi; ESleep w]
                         ++ (if (n =? 0)%nat then [ELog LogNoNew] else []);
                files := files s2 |})
       else (Raise ValueError,
             {| trace := trace s2 ++ [line; EUniform lo hi];
                files := files s2 |})).
Proof.
  unfold page_pass, bind.
  destruct (parse_page W text s1) as [[[|r rows]|e] s2].
  - right; left. exists s2. split; [reflexivity|]. cbn [negb].
    unfold write_file, log, emit, ret.
    destruct (open_ok W (trace s2) "debug_naver.html");
      [destruct (encodable text)|]; simpl;
      rewrite <- ?app_assoc; reflexivity.
  - right; right. exists (r :: rows), s2. split; [reflexivity|].
    split; [discriminate|]. cbv zeta. cbn [negb].
    destruct (admit_rows (r :: rows) cs) as [cs1 n]. cbn [fst snd].
    unfold log, emit, uniform, sleep, ret. cbn [fst snd trace files].
    match goal with
    | |- context [sleep_fits ?x] => destruct (sleep_fits x)
    end; cbn [negb];
      [match goal with
       | |- context [Qle_bool ?x ?y] => destruct (Qle_bool x y)
       end; [destruct (n =? 0)%nat|]|];
      simpl; rewrite <- ?app_assoc; reflexivity.
  - left. eauto.
Qed.

(** *** Invariants of the accumulator *)

Lemma parse_page_rows_filled text s rows s' :
  parse_page W text s = (Ok rows, s') ->
  Forall (fun r => Title r <> [] /\ Link r <> []) rows.
Proof.
  intros E. unfold parse_page in E.
  eapply parse_boxes_rows; [| |exact E]; [|constructor].
  intros box s1 row s2 _ Eb.
  apply parse_box_some in Eb as (_ & _ & Hnt & Hnl). auto.
Qed.

Lemma admit_filled acc r :
  Title r <> [] -> filled (fst acc) -> filled (fst (admit_row acc r)).
Proof.
  intros Ht [Hft Hfl].
  destruct (admit_columns acc r) as [->|(Et & _ & _ & El & _ & Hl & _)].
  - split; assumption.
  - unfold filled. rewrite Et, El. split; apply Forall_app; split;
      try assumption; constructor; auto.
Qed.

Lemma fold_admit_filled rows : forall acc,
  Forall (fun r => Title r <> [] /\ Link r <> []) rows ->
  filled (fst acc) -> filled (fst (fold_left admit_row rows acc)).
Proof.
  induction rows as [|r rows IH]; intros acc Hr Hf; cbn [fold_left];
    [exact Hf|].
  apply Forall_cons in Hr as [[Ht _] Hr].
  apply IH; [exact Hr|]. apply admit_filled; assumption.
Qed.

Lemma iteration_filled a cs s c cs' :
  fst (iteration W a cs s) = Ok (c, cs') -> filled cs -> filled cs'.
Proof.
  intros E Hf.
  destruct (iteration_view a cs s)
    as [[_ Ei]|(_ & [(line & _ & Ei)|[[_ Ei]|(text & _ & Ei)]])];
    rewrite Ei in E; simpl in E; try discriminate;
    try (inversion E; subst; exact Hf).
  destruct (page_pass_cases a (stopped cs) text
              (requested (page_url a (start cs)) s))
    as [(e & s2 & _ & Ep)|[(s2 & _ & Ep)|(rows & s2 & Er & _ & Ep)]];
    rewrite Ep in E.
  - discriminate.
  - destruct (open_ok W (trace s2) "debug_naver.html");
      [destruct (encodable text)|]; simpl in E; try discriminate.
    inversion E; subst. exact Hf.
  - cbv zeta in E. destruct (sleep_fits _); cbn [negb] in E;
      [|discriminate].
    destruct (Qle_bool 0 _); simpl in E; [|discriminate].
    inversion E; subst. unfold admit_rows.
    apply (fold_admit_filled rows (stopped cs, O));
      [eapply parse_page_rows_filled; exact Er|exact Hf].
Qed.

Lemma crawl_loop_inv (P : CrawlState -> Prop) a :
  (forall cs s c cs',
     fst (iteration W a cs s) = Ok (c, cs') -> P cs -> P cs') ->
  forall fuel cs s cs',
    fst (crawl_loop W fuel a cs s) = Ok (Some cs') -> P cs -> P cs'.
Proof.
  intros Hstep. induction fuel as [|fuel IH]; intros cs s cs' E HP.
  - discriminate.
  - rewrite crawl_loop_S in E.
    destruct (iteration W a cs s) as [[[[|] cs1]|e] s1] eqn:Ei;
      simpl in E.
    + eapply IH; [exact E|]. eapply (Hstep cs s); [rewrite Ei|]; eauto.
    + inversion E; subst. eapply (Hstep cs s); [rewrite Ei|]; eauto.
    + discriminate.
Qed.

(** *** Files *)

Lemma iteration_files a cs s :
  files (snd (iteration W a cs s)) = files s \/
  (exists text,
     files (snd (iteration W a cs s))
     = <["debug_naver.html" := text]> (files s) /\
     forall cs', fst (iteration W a cs s) <> Ok (Continue, cs')).
Proof.
  destruct (iteration_view a cs s)
    as [[_ Ei]|(_ & [(line & _ & Ei)|[[_ Ei]|(text & _ & Ei)]])];
    rewrite Ei; try (left; reflexivity).
  pose proof (quiet_parse_page W text
                (requested (page_url a (start cs)) s)) as [_ Hq].
  destruct (page_pass_cases a (stopped cs) text
              (requested (page_url a (start cs)) s))
    as [(e & s2 & Er & Ep)|[(s2 & Er & Ep)|(rows & s2 & Er & _ & Ep)]];
    rewrite Ep; rewrite Er in Hq; simpl in Hq.
  - left. exact Hq.
  - destruct (open_ok W (trace s2) "debug_naver.html");
      [destruct (encodable text)|]; simpl.
    + right. exists text. rewrite Hq. split; [reflexivity|]. discriminate.
    + right. exists []. rewrite Hq. split; [reflexivity|]. discriminate.
    + left. exact Hq.
  - cbv zeta. destruct (sleep_fits _); cbn [negb];
      [destruct (Qle_bool 0 _)|]; simpl; left; exact Hq.
Qed.

Lemma crawl_loop_files a fuel : forall cs s,
  files (snd (crawl_loop W fuel a cs s)) = files s \/
  exists text,
    files (snd (crawl_loop W fuel a cs s))
    = <["debug_naver.html" := text]> (files s).
Proof.
  induction fuel as [|fuel IH]; intros cs s; [left; reflexivity|].
  rewrite crawl_loop_S.
  destruct (iteration_files a cs s) as [E|(text & E & Hc)];
    destruct (iteration W a cs s) as [[[[|] cs1]|e] s1]; simpl in *;
    try (left; exact E); try (right; exists text; exact E).
  - rewrite <- E. apply IH.
  - exfalso. eapply Hc. reflexivity.
Qed.

End PassViews.

Section AdmissionExtras.

Lemma fold_admit_count rows : forall acc,
  (snd acc <= snd (fold_left admit_row rows acc))%nat.
Proof.
  intros acc.
  destruct (fold_admit_columns rows acc) as (new & _ & _ & _ & _ & _ & E).
  lia.
Qed.

Lemma admit_not_rejected cs n r :
  ~ rejected cs r -> snd (admit_row (cs, n) r) = S n.
Proof.
  intros Hr. unfold admit_row, rejected in *.
  destruct (truthy (Link r)) eqn:Et; simpl.
  - destruct (bool_decide (Link r ∈ seen_links cs)) eqn:Es; simpl;
      [|reflexivity].
    apply bool_decide_eq_true_1 in Es. tauto.
  - apply not_truthy_empty in Et. tauto.
Qed.

Lemma rejected_dec cs r : rejected cs r \/ ~ rejected cs r.
Proof.
  unfold rejected. destruct (Link r) as [|c l]; [left; left; reflexivity|].
  destruct (decide (c :: l ∈ seen_links cs)); [left; right; assumption|].
  right. intros [E|E]; [discriminate|contradiction].
Qed.

Lemma fold_admit_zero rows : forall cs n,
  snd (fold_left admit_row rows (cs, n)) = n -> Forall (rejected cs) rows.
Proof.
  induction rows as [|r rows IH]; intros cs n E; [constructor|].
  cbn [fold_left] in E. destruct (rejected_dec cs r) as [Hr|Hr].
  - rewrite (admit_rejected cs n r Hr) in E.
    constructor; [exact Hr|]. eapply IH, E.
  - exfalso. pose proof (fold_admit_count rows (admit_row (cs, n) r)) as Hc.
    rewrite (admit_not_rejected cs n r Hr) in Hc. lia.
Qed.

Lemma admit_seen acc r l :
  l ∈ seen_links (fst (admit_row acc r))
  <-> l ∈ seen_links (fst acc) \/ (l <> [] /\ l = Link r).
Proof.
  destruct acc as [cs n]. unfold admit_row. simpl.
  destruct (truthy (Link r)) eqn:Et; simpl.
  - destruct (bool_decide (Link r ∈ seen_links cs)) eqn:Es; simpl.
    + apply bool_decide_eq_true_1 in Es. split; [auto|].
      intros [Hl|[_ ->]]; assumption.
    + rewrite elem_of_union, elem_of_singleton.
      apply truthy_nonempty in Et. split.
      * intros [->|Hl]; auto.
      * intros [Hl|[_ ->]]; auto.
  - apply not_truthy_empty in Et. split; [auto|].
    intros [Hl|[Hne ->]]; [assumption|contradiction].
Qed.

Lemma fold_admit_seen rows l : forall acc,
  l ∈ seen_links (fst (fold_left admit_row rows acc))
  <-> l ∈ seen_links (fst acc) \/ (l <> [] /\ l ∈ map Link rows).
Proof.
  induction rows as [|r rows IH]; intros acc; cbn [fold_left].
  - simpl. split; [auto|]. intros [Hl|[_ Hl]]; [assumption|].
    apply not_elem_of_nil in Hl. contradiction.
  - rewrite IH, admit_seen. simpl. rewrite elem_of_cons. tauto.
Qed.

(** X18. A page adds no record exactly when every row of it is rejected
    (its link is empty or was seen before): this is when the crawl stops
    early. After the page, the links seen are those seen before and the
    non-empty links of the page. *)
Theorem admit_rows_new_count (rows : list Row) (cs : CrawlState) :
  (snd (admit_rows rows cs) = O <-> Forall (rejected cs) rows) /\
  (forall l,
     l ∈ seen_links (fst (admit_rows rows cs))
     <-> l ∈ seen_links cs \/ (l <> [] /\ l ∈ map Link rows)).
Proof.
  unfold admit_rows. split.
  - split.
    + apply fold_admit_zero.
    + intros Hr. rewrite (fold_admit_rejected rows cs O Hr). reflexivity.
  - intros l. apply (fold_admit_seen rows l (cs, O)).
Qed.

End AdmissionExtras.

Section DriverExtras.
Context `{PyRuntime} `{PyLibs} (W : World).

(** X13. Every record [crawl] returns has a title and a link that are
    not empty: the rows of [parse_page] have them, and admission keeps
    rows as they are. *)
Theorem crawl_records_nonempty (a : Args) (s : state) :
  match fst (crawl W a s) with
  | Ok (Some (t, _, _, l)) =>
      Forall (fun x => x <> []) t /\ Forall (fun x => x <> []) l
  | _ => True
  end.
Proof.
  destruct (encodable (search_term a)) eqn:Hq;
    [|rewrite crawl_unencodable by assumption; exact I].
  rewrite crawl_fst by assumption. unfold crawl_run.
  destruct (fst (crawl_loop W (crawl_fuel a) a init_state s))
    as [[cs|]|e] eqn:E; auto.
  apply (crawl_loop_inv W filled a (iteration_filled W a)
           (crawl_fuel a) init_state s cs E).
  split; constructor.
Qed.

(** X14. The only file a crawl touches is [debug_naver.html]: the files
    after it are the files before it, or these with [debug_naver.html]
    written. *)
Theorem crawl_files (a : Args) (s : state) :
  files (snd (crawl W a s)) = files s \/
  exists text,
    files (snd (crawl W a s))
    = <["debug_naver.html" := text]> (files s).
Proof.
  destruct (encodable (search_term a)) eqn:Hq.
  - rewrite crawl_snd by assumption. apply crawl_loop_files.
  - rewrite crawl_unencodable by assumption. left. reflexivity.
Qed.

(** X15. With a maximum of no page (zero or less) [crawl], once
    [quote_plus] has encoded the search term, asks for nothing: it logs
    the stop and returns four empty columns. *)
Theorem crawl_zero_pages (a : Args) (s : state) :
  max_pages a <= 0 ->
  encodable (search_term a) = true ->
  crawl W a s
  = (Ok (Some ([], [], [], [])),
     {| trace := trace s ++ [ELog (LogMaxPages (max_pages a))];
        files := files s |}).
Proof.
  intros Hm Hq. rewrite crawl_encodable by assumption.
  unfold crawl_run, crawl_fuel. rewrite crawl_loop_S.
  destruct (iteration_cases W a init_state s) as [[_ E]|(Hle & _)].
  - rewrite E. reflexivity.
  - simpl in Hle. lia.
Qed.

End DriverExtras.

(* ===================================================================== *)
(** * The driver: events, requests and exceptions of a crawl *)
(* ===================================================================== *)

Lemma sleep_bounds_ordered a :
  (fst (sleep_bounds a) <= snd (sleep_bounds a))%Q.
Proof.
  unfold sleep_bounds. destruct (sleep_range a) as [lo hi].
  destruct (Qle_bool lo hi) eqn:E; simpl.
  - apply Qle_bool_iff, E.
  - apply Qlt_le_weak, Qnot_le_lt. intros Hle.
    apply Qle_bool_iff in Hle. congruence.
Qed.

Section CrawlEvents.
Context `{PyRuntime} `{PyLibs} (W : World).

Lemma emits_crawl_log a m : emits (crawl_event a) (log m).
Proof. apply emits_emit. exact I. Qed.

Lemma emits_crawl_get a url : emits (crawl_event a) (http_get W url).
Proof. apply emits_http_get. exact I. Qed.

Lemma emits_crawl_parse a text : emits (crawl_event a) (parse_page W text).
Proof.
  eapply emits_weaken;
    [|apply (emits_parse_boxes W (boxes_of (BeautifulSoup text)));
      intros b Hb; exact Hb].
  intros e [->|(box & _ & -> & _)]; exact I.
Qed.

Lemma emits_crawl_write a text :
  emits (crawl_event a) (write_file W "debug_naver.html" text).
Proof. apply emits_write_file. reflexivity. Qed.

Lemma emits_crawl_uniform a :
  emits (crawl_event a)
        (uniform W (fst (sleep_bounds a)) (snd (sleep_bounds a))).
Proof.
  apply emits_uniform. simpl. repeat split. apply sleep_bounds_ordered.
Qed.

Lemma emits_crawl_sleep a w : emits (crawl_event a) (sleep w).
Proof.
  apply emits_sleep. intros Ef E. split; [apply Qle_bool_iff, E|exact Ef].
Qed.

Hint Resolve emits_crawl_log emits_crawl_get emits_crawl_parse
  emits_crawl_write emits_crawl_uniform emits_crawl_sleep : emits.

Lemma emits_iteration a cs : emits (crawl_event a) (iteration W a cs).
Proof. unfold iteration. cbv zeta. emits_tac. Qed.

Lemma emits_crawl_loop a fuel : forall cs,
  emits (crawl_event a) (crawl_loop W fuel a cs).
Proof.
  induction fuel as [|fuel IH]; intros cs; simpl; [apply emits_ret|].
  apply emits_bind; [apply emits_iteration|].
  intros [[|] cs']; [apply IH|apply emits_ret].
Qed.

Lemma emits_crawl a : emits (crawl_event a) (crawl W a).
Proof.
  unfold crawl, crawl_run.
  apply emits_bind; [apply emits_lift|]. intros q.
  apply emits_bind; [apply emits_crawl_loop|]. intros r. apply emits_ret.
Qed.

Lemma crawl_event_no_ui a evs :
  Forall (crawl_event a) evs -> ui_messages evs = [].
Proof.
  induction 1 as [|e evs He _ IH]; [reflexivity|].
  destruct e; simpl in *; try exact IH. contradiction.
Qed.

(** *** A crawl that returns *)

Lemma iteration_returns a cs s :
  (forall tr url, session_get W tr url <> OtherException) ->
  (forall tr, open_ok W tr "debug_naver.html" = true) ->
  bodies_encodable W ->
  waits_accepted W a ->
  (forall text s0, exists rows s',
     parse_page W text s0 = (Ok rows, s')) ->
  exists c cs' s', iteration W a cs s = (Ok (c, cs'), s').
Proof.
  intros Hget Hopen Henc Hwait Hparse.
  destruct (iteration_view W a cs s)
    as [[_ Ei]|(_ & [(line & _ & Ei)|[[Eo _]|(text & Et & Ei)]])].
  - rewrite Ei. eauto.
  - rewrite Ei. eauto.
  - exfalso. eapply Hget, Eo.
  - rewrite Ei.
    destruct (page_pass_cases W a (stopped cs) text
                (requested (page_url a (start cs)) s))
      as [(e & s2 & Er & _)|[(s2 & _ & Ep)|(rows & s2 & _ & _ & Ep)]].
    + destruct (Hparse text (requested (page_url a (start cs)) s))
        as (rows & s' & E'). congruence.
    + rewrite Ep, Hopen, (Henc _ _ _ _ Et). eauto.
    + rewrite Ep. cbv zeta.
      match goal with
      | |- context [random_uniform W ?tr ?lo ?hi] =>
          destruct (Hwait tr) as [-> ->]
      end.
      cbn [negb]. eauto.
Qed.

Lemma crawl_loop_returns a fuel :
  (forall cs s, exists c cs' s', iteration W a cs s = (Ok (c, cs'), s')) ->
  forall cs s, exists r s', crawl_loop W fuel a cs s = (Ok r, s').
Proof.
  intros Hit. induction fuel as [|fuel IH]; intros cs s.
  - simpl. unfold ret. eauto.
  - rewrite crawl_loop_S. destruct (Hit cs s) as (c & cs' & s' & E).
    rewrite E. destruct c; [apply IH|eauto].
Qed.

End CrawlEvents.

Section CrawlExtras.
Context `{PyRuntime} `{PyLibs} (W : World).

(** X19. What a crawl does, event by event: it logs, requests listing
    pages, reads the clock and requests articles (in [parse_page]), draws
    its waits between the two bounds put in order, sleeps for lengths
    that are not negative and that [time.sleep] can hold, and opens no
    file but [debug_naver.html];
    it calls nothing of the user interface itself (what becomes of a
    line of the log is the sink's business). *)
Theorem crawl_event_discipline (a : Args) (s : state) :
  exists evs,
    trace (snd (crawl W a s)) = trace s ++ evs /\
    Forall (crawl_event a) evs.
Proof. apply emits_crawl. Qed.

(** X5. A crawl never asks for the same listing URL twice. *)
Theorem crawl_requests_distinct (a : Args) (s : state) :
  exists reqs,
    listing_requests (trace (snd (crawl W a s)))
    = listing_requests (trace s) ++ reqs /\
    NoDup reqs.
Proof.
  destruct (encodable (search_term a)) eqn:Hq.
  2:{ rewrite crawl_unencodable by assumption. exists []. simpl.
      rewrite app_nil_r. split; [reflexivity|constructor]. }
  rewrite crawl_snd by assumption. unfold crawl_run.
  destruct (crawl_loop_spec W a (crawl_fuel a) init_state s)
    as (n & Hn & _).
  exists (map (page_url a) (offsets_from (start init_state) n)).
  split; [exact Hn|].
  assert (Hinj : Inj eq eq (page_url a)).
  { intros x y E. unfold page_url in E. eapply build_url_inj, E. }
  apply (NoDup_fmap_2 (page_url a)). unfold offsets_from.
  assert (Hinj' : Inj eq eq
                    (fun k => start init_state + 10 * Z.of_nat k)).
  { intros x y E. lia. }
  apply (NoDup_fmap_2 (fun k => start init_state + 10 * Z.of_nat k)).
  apply NoDup_seq.
Qed.

(** X16. [crawl] returns its four columns, and raises nothing, whenever
    the search term holds no surrogate (so that [quote_plus] encodes it),
    [session.get] raises nothing but [RequestException], the file
    [debug_naver.html] can be opened and the bodies of the answers hold
    no surrogate (so that the file can hold them), the waits drawn are
    lengths that [time.sleep] accepts (they fit and are not negative),
    and the parsing of the pages raises nothing (the log sink being one
    that records the line and raises nothing). *)
Theorem crawl_returns_normally (a : Args) (s : state) :
  encodable (search_term a) = true ->
  (forall tr url, session_get W tr url <> OtherException) ->
  (forall tr, open_ok W tr "debug_naver.html" = true) ->
  bodies_encodable W ->
  waits_accepted W a ->
  (forall text s0, exists rows s',
     parse_page W text s0 = (Ok rows, s')) ->
  exists t d so l s',
    crawl W a s = (Ok (Some (t, d, so, l)), s').
Proof.
  intros Hq Hget Hopen Henc Hwait Hparse.
  destruct (crawl_loop_returns W a (crawl_fuel a)
              (fun cs s0 => iteration_returns W a cs s0
                              Hget Hopen Henc Hwait Hparse) init_state s)
    as (r & s' & E).
  pose proof (crawl_run_not_none W a s) as Hn.
  rewrite crawl_encodable by assumption.
  unfold crawl_run in *. rewrite E in *. simpl in Hn.
  destruct r as [cs|]; [|congruence]. eauto 10.
Qed.

(** X17. What makes a pass of the loop raise, so that [crawl] raises and
    returns none of the records it had: an exception of [session.get]
    that is no [RequestException]; an exception of [parse_page]; for a
    page without rows, a failure to open [debug_naver.html] ([OSError],
    the files as they were) or a body with a surrogate
    ([UnicodeEncodeError] of [write], the file left empty); and, after
    the rows of a page were admitted and the line of the page logged, a
    wait that [time.sleep] refuses: with [OverflowError] when it does not
    fit, with [ValueError] when it fits and is negative. *)
Theorem crawl_raises (a : Args) (cs : CrawlState) (s : state)
    (fuel : nat) :
  page_count cs + 1 <= max_pages a ->
  let url := page_url a (start cs) in
  let s1 := requested url s in
  let answer := session_get W (trace s ++ [ELog (LogRequest url)]) url in
  (answer = OtherException ->
   crawl_loop W (S fuel) a cs s = (Raise OtherError, s1)) /\
  (forall text e s2,
     answer = Response 200 text ->
     parse_page W text s1 = (Raise e, s2) ->
     crawl_loop W (S fuel) a cs s = (Raise e, s2)) /\
  (forall text s2,
     answer = Response 200 text ->
     parse_page W text s1 = (Ok [], s2) ->
     open_ok W (trace s2) "debug_naver.html" = false ->
     crawl_loop W (S fuel) a cs s
     = (Raise OSError,
        {| trace := trace s2 ++ [EOpen "debug_naver.html"];
           files := files s2 |})) /\
  (forall text s2,
     answer = Response 200 text ->
     parse_page W text s1 = (Ok [], s2) ->
     open_ok W (trace s2) "debug_naver.html" = true ->
     encodable text = false ->
     crawl_loop W (S fuel) a cs s
     = (Raise UnicodeEncodeError,
        {| trace := trace s2 ++ [EOpen "debug_naver.html"];
           files := <["debug_naver.html" := []]> (files s2) |})) /\
  (forall text rows s2,
     answer = Response 200 text ->
     parse_page W text s1 = (Ok rows, s2) ->
     rows <> [] ->
     let line := ELog (LogPage (start cs) (length rows)
                         (snd (admit_rows rows (stopped cs)))) in
     let lo := fst (sleep_bounds a) in
     let hi := snd (sleep_bounds a) in
     let w := random_uniform W (trace s2 ++ [line]) lo hi in
     let drawn := {| trace := trace s2 ++ [line; EUniform lo hi];
                     files := files s2 |} in
     (sleep_fits w = false ->
      crawl_loop W (S fuel) a cs s = (Raise OverflowError, drawn)) /\
     (sleep_fits w = true -> Qle_bool 0 w = false ->
      crawl_loop W (S fuel) a cs s = (Raise ValueError, drawn))).
Proof.
  intros Hle url s1 answer. split; [|split; [|split; [|split]]].
  - intros Ea. rewrite crawl_loop_S.
    rewrite (iteration_other_exception W a cs s Hle Ea). reflexivity.
  - intros text e s2 Ea Ep. rewrite crawl_loop_S.
    rewrite (iteration_page W a cs s text Hle Ea).
    destruct (page_pass_cases W a (stopped cs) text s1)
      as [(e' & s2' & Er & Epp)|[(s2' & Er & _)|(rows & s2' & Er & _)]];
      fold url s1 in Ep |- *; try congruence.
    rewrite Epp. rewrite Ep in Er. inversion Er; subst. reflexivity.
  - intros text s2 Ea Ep Ho. rewrite crawl_loop_S.
    rewrite (iteration_page W a cs s text Hle Ea).
    destruct (page_pass_cases W a (stopped cs) text s1)
      as [(e' & s2' & Er & _)|[(s2' & Er & Epp)|(rows & s2' & Er & Hne & _)]];
      fold url s1 in Ep |- *; try congruence.
    rewrite Epp. rewrite Ep in Er. inversion Er; subst.
    rewrite Ho. reflexivity.
  - intros text s2 Ea Ep Ho Hu. rewrite crawl_loop_S.
    rewrite (iteration_page W a cs s text Hle Ea).
    destruct (page_pass_cases W a (stopped cs) text s1)
      as [(e' & s2' & Er & _)|[(s2' & Er & Epp)|(rows & s2' & Er & Hne & _)]];
      fold url s1 in Ep |- *; try congruence.
    rewrite Epp. rewrite Ep in Er. inversion Er; subst.
    rewrite Ho, Hu. reflexivity.
  - intros text rows s2 Ea Ep Hne line lo hi w drawn.
    subst drawn w line lo hi.
    rewrite crawl_loop_S.
    rewrite (iteration_page W a cs s text Hle Ea).
    destruct (page_pass_cases W a (stopped cs) text s1)
      as [(e' & s2' & Er & _)|[(s2' & Er & _)|(rows' & s2' & Er & _ & Epp)]];
      fold url s1 in Ep |- *; try congruence.
    rewrite Epp. rewrite Ep in Er. inversion Er; subst.
    cbv zeta. change (start (stopped cs)) with (start cs).
    split; [intros ->|intros -> ->]; reflexivity.
Qed.

End CrawlExtras.

(* ===================================================================== *)
(** * Relative times: the day words and the errors *)
(* ===================================================================== *)

Section DayWords.
Context `{PyRuntime}.

Lemma contains_spec p s : contains p s = true <-> has_substring p s.
Proof.
  unfold has_substring. induction s as [|c s IH]; simpl.
  - rewrite orb_false_r. split.
    + intros E. apply startswith_inv in E.
      exists [], (drop (length p) []). exact E.
    + intros (pre & post & E). symmetry in E.
      apply app_eq_nil in E as [_ E]. apply app_eq_nil in E as [-> _].
      reflexivity.
  - rewrite orb_true_iff, IH. split.
    + intros [E|(pre & post & ->)].
      * apply startswith_inv in E.
        exists [], (drop (length p) (c :: s)). exact E.
      * exists (c :: pre), post. reflexivity.
    + intros (pre & post & E). destruct pre as [|c' pre].
      * left. simpl in E. rewrite E. apply startswith_app.
      * right. simpl in E. injection E as _ E. eauto.
Qed.

End DayWords.

Section RelativeExtras.
Context `{PyRuntime} (W : World).

(** X7. For a text without a phrase "N 분/시간/일 전":
    when it holds 어제 (yesterday), [_normalize_relative_date] returns
    the date one day before now (a [datetime], now not being the first
    day of the calendar); when it holds 오늘 (today) and not 어제, the
    date of now. Both in UTC+9, the clock read once. So a phrase goes
    before 어제, and 어제 before 오늘. *)
Theorem normalize_relative_date_day_words (text : str) (s : state) :
  let t := strip text in
  let now := clock W (trace s) + KST in
  ~ has_relative_phrase t ->
  (has_substring U_eoje t ->
   toordinal now <= MAXORDINAL ->
   MINORDINAL <= toordinal (now - US_PER_DAY) ->
   _normalize_relative_date W text s
   = (Ok (strftime_Ymd (now - US_PER_DAY)), clock_read s)) /\
  (~ has_substring U_eoje t -> has_substring U_oneul t ->
   _normalize_relative_date W text s
   = (Ok (strftime_Ymd now), clock_read s)).
Proof.
  intros t now Hno. destruct (search_REL_PAT t) as [_ Hnone].
  specialize (Hnone Hno). split.
  - intros He Hmax Hmin. apply contains_spec in He.
    destruct (sub_in_range now US_PER_DAY
                ltac:(vm_compute; discriminate) Hmax Hmin) as [Etd Esub].
    unfold _normalize_relative_date, bind, datetime_now, lift, ret.
    fold t. rewrite Hnone, He. fold now. rewrite Etd, Esub. reflexivity.
  - intros Hne Ho. apply contains_spec in Ho.
    assert (He : contains U_eoje t = false).
    { destruct (contains U_eoje t) eqn:E; [|reflexivity].
      apply contains_spec in E. contradiction. }
    unfold _normalize_relative_date, bind, datetime_now, lift, ret.
    fold t. rewrite Hnone, He, Ho. reflexivity.
Qed.

(** X8. When [_normalize_relative_date] raises on a phrase
    "N 분/시간/일 전" (the leftmost of the text): [ValueError] when N
    has more digits than [int] accepts; [OverflowError] when [int]
    accepts them and the instant N units before now is before the first
    day of the calendar (0001-01-01). The clock has been read. *)
Theorem normalize_relative_date_raises (text : str) (s : state)
    (w ds u : str) (n : Z) :
  let t := strip text in
  let now := clock W (trace s) + KST in
  first_relative_phrase t w ds u ->
  int_digits 0 ds = Some n ->
  (~ within_int_limit ds ->
   _normalize_relative_date W text s = (Raise ValueError, clock_read s)) /\
  (within_int_limit ds ->
   toordinal (now - n * unit_us u) < MINORDINAL ->
   _normalize_relative_date W text s
   = (Raise OverflowError, clock_read s)).
Proof.
  intros t now Hf En.
  assert (Hh : has_relative_phrase t).
  { destruct Hf as (pre & post & Ht & Hp & _).
    exists pre, w, post, ds, u. auto. }
  destruct (search_REL_PAT t) as [Hsome _].
  destruct (Hsome Hh) as (m & w0 & ds0 & u0 & E & Hg & Hf0).
  destruct (first_relative_phrase_unique t w0 ds0 u0 w ds u Hf0 Hf)
    as [-> ->].
  pose proof Hf as (pre & post & _ & (ws & ws' & Hds & Hne & _) & _).
  split.
  - intros Hlim.
    assert (Ei : py_int ds = Raise ValueError).
    { unfold py_int, within_int_limit in *.
      destruct max_str_digits as [limit|]; [|tauto].
      destruct (Nat.ltb_spec limit (length ds)); [reflexivity|lia]. }
    unfold _normalize_relative_date, bind, datetime_now, lift, ret.
    fold t. rewrite E, Hg. simpl nth. rewrite Ei. reflexivity.
  - intros Hlim Hlow.
    unfold _normalize_relative_date, bind, datetime_now, lift, ret.
    fold t. rewrite E, Hg. simpl nth.
    rewrite (py_int_ok ds n Hne Hlim En). fold now.
    unfold timedelta. destruct (_ <=? _); [|reflexivity].
    unfold datetime_sub.
    destruct (Z.leb_spec MINORDINAL (toordinal (now - n * unit_us u)));
      [lia|]. reflexivity.
Qed.

End RelativeExtras.

(* ===================================================================== *)
(** * The data frame and the entry point *)
(* ===================================================================== *)

Lemma frame_rows_columns recs :
  frame_rows (map Title recs) (map Date recs) (map Source recs)
             (map Link recs) = recs.
Proof.
  induction recs as [|[t d so l] recs IH]; simpl; [reflexivity|].
  rewrite IH. reflexivity.
Qed.

Section EntryExtras.
Context `{PyRuntime} `{PyLibs} (W : World).

(** The columns of a crawl make a frame. *)
Lemma crawl_frame a s t d so l s' :
  crawl W a s = (Ok (Some (t, d, so, l)), s') ->
  exists recs,
    build_dataframe t d so l = Ok recs /\
    map Title recs = t /\ map Date recs = d /\
    map Source recs = so /\ map Link recs = l /\
    length recs = length l /\ NoDup (map Link recs).
Proof.
  intros E.
  destruct (encodable (search_term a)) eqn:Hq;
    [|rewrite crawl_unencodable in E by assumption; discriminate].
  pose proof (crawl_fst W a s Hq) as Hf. rewrite E in Hf.
  simpl in Hf. pose proof (crawl_run_consistent W a s) as Hc.
  destruct (fst (crawl_run W a s)) as [[cs|]|e]; try discriminate.
  inversion Hf; subst.
  destruct Hc as (recs & Ht & Hd & Hs & Hl & Hnd & _).
  exists recs. unfold build_dataframe.
  rewrite Ht, Hd, Hs, Hl, !length_map, !Nat.eqb_refl. simpl.
  rewrite frame_rows_columns. rewrite Hl in Hnd. auto 10.
Qed.

(** X21. [build_dataframe] never fails on what [crawl] returns: the four
    columns have one length, the frame has one row for each link, its
    columns are the four lists, and no link is in two rows. *)
Theorem build_dataframe_of_crawl (a : Args) (s : state)
    (t d so l : list str) (s' : state) :
  crawl W a s = (Ok (Some (t, d, so, l)), s') ->
  exists recs,
    build_dataframe t d so l = Ok recs /\
    map Title recs = t /\ map Date recs = d /\
    map Source recs = so /\ map Link recs = l /\
    length recs = length l /\ NoDup (map Link recs).
Proof. apply crawl_frame. Qed.

(** The run of [streamlit_main], case by case. *)
Lemma streamlit_main_view (f : Form) (s : state) :
  st_installed f = true ->
  streamlit_main W f s
  = if negb (f_submitted f) then (Ok tt, after s [EUi UiForm])
    else if date_gt (f_start_date_input f) (f_end_date_input f)
    then (Ok tt, after s [EUi UiForm; EUi UiRangeError])
    else
      match crawl W (form_args f) (after s [EUi UiForm]) with
      | (Raise _, s2) => (Ok tt, after s2 [EUi UiCrawlError])
      | (Ok None, s2) => (Ok tt, s2)
      | (Ok (Some ([], _, _, _)), s2) =>
          (Ok tt, after s2 [EUi UiWarningEmpty])
      | (Ok (Some (t, d, so, l)), s2) =>
          match build_dataframe t d so l with
          | Raise e => (Raise e, s2)
          | Ok df =>
              match to_excel df with
              | Raise e =>
                  (Raise e,
                   after s2 [EUi (UiSuccess (length df)); EUi UiTable])
              | Ok _ =>
                  (Ok tt,
                   after s2
                     ([EUi (UiSuccess (length df)); EUi UiTable;
                       EUi UiDownload]
                      ++ (if f_save_to_disk f
                             && truthy (f_output_filename f)
                          then [EUi (if f_saves f then UiSaved
                                     else UiSaveFailed)]
                          else [])))
              end
          end
      end.
Proof.
  intros Hin. unfold streamlit_main. rewrite Hin. cbn [negb].
  unfold bind at 1. unfold ui at 1, emit at 1. fold (after s [EUi UiForm]).
  destruct (f_submitted f); [|reflexivity]. cbn [negb].
  destruct (date_gt (f_start_date_input f) (f_end_date_input f)).
  { unfold bind, ui, emit, ret, after. simpl. rewrite <- app_assoc.
    reflexivity. }
  unfold bind at 1. unfold try_except, bind at 1.
  destruct (crawl W (form_args f) (after s [EUi UiForm]))
    as [[[[[[t d] so] l]|]|e] s2]; [|reflexivity|reflexivity].
  unfold ret at 1. destruct t as [|t0 t]; cbn [negb]; [reflexivity|].
  unfold bind at 1, lift at 1.
  destruct (build_dataframe (t0 :: t) d so l) as [df|e]; [|reflexivity].
  unfold bind at 1, ui at 1, emit at 1.
  unfold bind at 1, ui at 1, emit at 1.
  unfold bind at 1, lift at 1. cbn [trace files].
  destruct (to_excel df) as [[]|e].
  - unfold bind, ui, emit, ret, after. cbn [fst snd trace files].
    destruct (f_save_to_disk f && truthy (f_output_filename f));
      [destruct (f_saves f)|]; simpl; rewrite <- !app_assoc; reflexivity.
  - unfold after. rewrite <- app_assoc. reflexivity.
Qed.

(** X20. What [streamlit_main] itself shows, streamlit being installed
    (the progress lines are the log sink's): the form, and then one of
    five things: nothing, the range error, the crawl error, the warning
    of an empty result, or the number of records (not zero) with the
    table and the download and at most one note about the file. Or else
    [df.to_excel(buffer)] raises: then the number of records and the
    table were shown, there is no download, and the exception leaves
    [streamlit_main]. It issues listing requests only for a form that
    was submitted with a start date not after the end date. *)
Theorem streamlit_main_outcomes (f : Form) (s : state) :
  st_installed f = true ->
  exists evs,
    trace (snd (streamlit_main W f s)) = trace s ++ evs /\
    (ui_outcome (ui_messages evs) \/
     exists df e,
       df <> [] /\ to_excel df = Raise e /\
       ui_messages evs = [UiForm; UiSuccess (length df); UiTable] /\
       fst (streamlit_main W f s) = Raise e) /\
    (listing_requests evs <> [] ->
     f_submitted f = true /\
     date_gt (f_start_date_input f) (f_end_date_input f) = false).
Proof.
  intros Hin. rewrite (streamlit_main_view f s Hin).
  destruct (f_submitted f); cbn [negb].
  2:{ exists [EUi UiForm]. simpl. split; [reflexivity|].
      split; [left; left; reflexivity|]. intros E. contradiction. }
  destruct (date_gt (f_start_date_input f) (f_end_date_input f)).
  { exists [EUi UiForm; EUi UiRangeError]. simpl. split; [reflexivity|].
    split; [left; right; left; reflexivity|]. intros E. contradiction. }
  destruct (emits_crawl W (form_args f) (after s [EUi UiForm]))
    as (evc & Ec & Fc).
  pose proof (crawl_event_no_ui (form_args f) evc Fc) as Hui.
  pose proof (crawl_frame (form_args f) (after s [EUi UiForm])) as Hframe.
  destruct (crawl W (form_args f) (after s [EUi UiForm]))
    as [[[[[[t d] so] l]|]|e] s2]; simpl in Ec.
  - destruct t as [|t0 t].
    + exists ([EUi UiForm] ++ evc ++ [EUi UiWarningEmpty]). simpl.
      rewrite Ec, <- !app_assoc. split; [reflexivity|].
      rewrite ui_messages_app, Hui. simpl.
      split; [left; right; right; right; left; reflexivity|auto].
    + destruct (Hframe _ _ _ _ _ eq_refl) as (recs & Eb & Ht & _).
      assert (Hne : recs <> []) by (intros ->; discriminate).
      assert (Hlen : (0 < length recs)%nat)
        by (destruct recs; [contradiction|simpl; lia]).
      rewrite Eb. destruct (to_excel recs) as [[]|e] eqn:Ex.
      * eexists ([EUi UiForm] ++ evc ++ _). simpl.
        rewrite Ec, <- !app_assoc. split; [reflexivity|].
        split; [|auto]. left. right; right; right; right.
        exists (length recs).
        destruct (f_save_to_disk f && truthy (f_output_filename f));
          [destruct (f_saves f)|]; rewrite !ui_messages_app, Hui; simpl;
          eexists; (split; [exact Hlen|]); (split; [reflexivity|]); auto.
      * exists ([EUi UiForm] ++ evc
                ++ [EUi (UiSuccess (length recs)); EUi UiTable]).
        simpl. rewrite Ec, <- !app_assoc. split; [reflexivity|].
        split; [|auto]. right. exists recs, e.
        rewrite ui_messages_app, Hui. simpl. auto.
  - exists ([EUi UiForm] ++ evc). simpl. rewrite Ec, <- app_assoc.
    split; [reflexivity|]. rewrite ?ui_messages_app, Hui. simpl.
    split; [left; left; reflexivity|auto].
  - exists ([EUi UiForm] ++ evc ++ [EUi UiCrawlError]). simpl.
    rewrite Ec, <- !app_assoc. split; [reflexivity|].
    rewrite ui_messages_app, Hui. simpl.
    split; [left; right; right; left; reflexivity|auto].
Qed.

(** X25. A search term that holds a surrogate (a code point from U+D800
    to U+DFFF) cannot be encoded: [crawl] raises [UnicodeEncodeError]
    at once, with nothing logged and nothing asked for; and
    [streamlit_main], for a submitted form with such a term and dates in
    order, shows the crawl error after the form and returns. *)
Theorem crawl_unencodable_term (a : Args) (f : Form) (s : state) :
  (forall c, c ∈ search_term a -> 55296 <= c <= 57343 ->
   crawl W a s = (Raise UnicodeEncodeError, s)) /\
  (forall c, c ∈ f_search_term f -> 55296 <= c <= 57343 ->
   st_installed f = true -> f_submitted f = true ->
   date_gt (f_start_date_input f) (f_end_date_input f) = false ->
   streamlit_main W f s
   = (Ok tt, after s [EUi UiForm; EUi UiCrawlError])).
Proof.
  assert (Hs : forall t c, c ∈ t -> 55296 <= c <= 57343 ->
                           encodable t = false).
  { intros t c Hc Hr. unfold encodable. apply negb_false_iff.
    apply existsb_exists. exists c. split.
    - apply list_elem_of_In, Hc.
    - unfold is_surrogate. apply andb_true_iff.
      split; apply Z.leb_le; lia. }
  split.
  - intros c Hc Hr. apply crawl_unencodable. eapply Hs; eassumption.
  - intros c Hc Hr Hin Hsub Hgt.
    rewrite (streamlit_main_view f s Hin), Hsub, Hgt. cbn [negb].
    rewrite crawl_unencodable by (eapply Hs; eassumption).
    unfold after. simpl. rewrite <- app_assoc. reflexivity.
Qed.

End EntryExtras.

(* ===================================================================== *)
(** * The driver: the last line of the log *)
(* ===================================================================== *)

Section StopReasons.
Context `{PyRuntime} `{PyLibs} (W : World).

Lemma iteration_break_logged a cs s cs' :
  fst (iteration W a cs s) = Ok (Break, cs') ->
  exists tr reason,
    trace (snd (iteration W a cs s)) = tr ++ [ELog reason] /\
    stop_reason reason.
Proof.
  intros E.
  destruct (iteration_view W a cs s)
    as [[_ Ei]|(_ & [(line & Hline & Ei)|[[_ Ei]|(text & _ & Ei)]])];
    rewrite Ei in E |- *; simpl in E.
  - simpl. eexists _, _. split; [reflexivity|exact I].
  - simpl. eexists _, _. split; [reflexivity|exact Hline].
  - discriminate.
  - destruct (page_pass_cases W a (stopped cs) text
                (requested (page_url a (start cs)) s))
      as [(e & s2 & _ & Ep)|[(s2 & _ & Ep)|(rows & s2 & _ & _ & Ep)]];
      rewrite Ep in E |- *.
    + discriminate.
    + destruct (open_ok W (trace s2) "debug_naver.html");
        [destruct (encodable text)|]; simpl in E; try discriminate.
      simpl.
      exists (trace s2 ++ [EOpen "debug_naver.html"]), (LogNoRows (start cs)).
      rewrite <- app_assoc. split; [reflexivity|exact I].
    + cbv zeta in E |- *. destruct (sleep_fits _); cbn [negb] in E |- *;
        [|discriminate].
      destruct (Qle_bool 0 _); simpl in E; [|discriminate].
      destruct (snd (admit_rows rows (stopped cs)) =? 0)%nat;
        [|discriminate]. simpl.
      eexists (trace s2 ++ [_; _; _]), LogNoNew.
      rewrite <- app_assoc. split; [reflexivity|exact I].
Qed.

Lemma crawl_loop_logged a fuel : forall cs s cs',
  fst (crawl_loop W fuel a cs s) = Ok (Some cs') ->
  exists tr reason,
    trace (snd (crawl_loop W fuel a cs s)) = tr ++ [ELog reason] /\
    stop_reason reason.
Proof.
  induction fuel as [|fuel IH]; intros cs s cs' E; [discriminate|].
  rewrite crawl_loop_S in E |- *.
  pose proof (iteration_break_logged a cs s) as Hb.
  destruct (iteration W a cs s) as [[[[|] cs1]|e] s1]; simpl in *.
  - eapply IH, E.
  - eapply Hb. reflexivity.
  - discriminate.
Qed.

(** X24. A crawl that returns has said why it stopped: the last event of
    its run is a line of the log, and the line tells of the maximum of
    pages, of a failed request (its status, or an exception), of a page
    without rows, or of a page without a new record. *)
Theorem crawl_logs_why_it_stops (a : Args) (s : state) :
  match fst (crawl W a s) with
  | Ok _ =>
      exists tr reason,
        trace (snd (crawl W a s)) = tr ++ [ELog reason] /\
        stop_reason reason
  | Raise _ => True
  end.
Proof.
  destruct (encodable (search_term a)) eqn:Hq;
    [|rewrite crawl_unencodable by assumption; exact I].
  rewrite crawl_fst, crawl_snd by assumption. unfold crawl_run.
  pose proof (crawl_run_not_none W a s) as Hn. unfold crawl_run in Hn.
  destruct (fst (crawl_loop W (crawl_fuel a) a init_state s))
    as [[cs|]|e] eqn:E; [|congruence|exact I].
  eapply crawl_loop_logged, E.
Qed.

End StopReasons.

(* ===================================================================== *)
(** * Sample runs of the further properties *)
(* ===================================================================== *)

(** The words of " a \n  b " are "a" and "b": it cleans to "a b". *)
Lemma clean_text_words_witness :
  (isspace 10 = true /\ isspace 13 = true /\ isspace 32 = true) /\
  words_of [32; 97; 10; 32; 32; 98; 32] [[97]; [98]] /\
  _clean_text [32; 97; 10; 32; 32; 98; 32] = join [32] [[97]; [98]] /\
  join [32] [[97]; [98]] = [97; 32; 98].
Proof.
  assert (Hw : words_of [32; 97; 10; 32; 32; 98; 32] [[97]; [98]]).
  { apply (words_next [32] [97] 10 [32; 32; 98; 32] [[98]]).
    - repeat constructor.
    - split; [discriminate|repeat constructor].
    - reflexivity.
    - apply (words_next [32; 32] [98] 32 [] []).
      + repeat constructor.
      + split; [discriminate|repeat constructor].
      + reflexivity.
      + apply words_blank. constructor. }
  destruct (@clean_text_words cpython311 eq_refl eq_refl eq_refl
              [32; 97; 10; 32; 32; 98; 32]) as (ws & _ & Hu & E & _).
  split; [repeat split|]. split; [exact Hw|].
  split; [|reflexivity].
  rewrite (Hu _ Hw). exact E.
Defined.

(** A space, a line feed and a tab clean to the empty string. *)
Lemma clean_text_empty_iff_blank_witness :
  (isspace 10 = true /\ isspace 13 = true /\ isspace 32 = true) /\
  Forall (fun c => isspace c = true) [32; 10; 9] /\
  _clean_text [32; 10; 9] = [].
Proof.
  assert (Hs : Forall (fun c => isspace c = true) [32; 10; 9])
    by (repeat constructor).
  split; [repeat split|]. split; [exact Hs|].
  destruct (@clean_text_empty_iff_blank cpython311 eq_refl eq_refl eq_refl
              [32; 10; 9])
    as [_ Hb].
  exact (Hb Hs).
Defined.

(** The URLs of the pages at the offsets 1 and 11 differ. *)
Lemma build_url_injective_witness :
  1 <> 11 /\
  build_url (lit "kw") 2 (lit "2024.01.01") (lit "2024.12.31")
            (lit "from20240101to20241231") 1
  <> build_url (lit "kw") 2 (lit "2024.01.01") (lit "2024.12.31")
               (lit "from20240101to20241231") 11.
Proof.
  assert (Hne : 1 <> 11) by lia.
  split; [exact Hne|]. apply build_url_injective, Hne.
Defined.

(** The form with the default dates asks for 2024.01.01 to 2024.12.31. *)
Lemma form_args_period_witness :
  start_date (form_args sample_form) = lit "2024.01.01" /\
  end_date (form_args sample_form) = lit "2024.12.31" /\
  nso_period_of (form_args sample_form) = lit "from20240101to20241231".
Proof.
  destruct (form_args_period sample_form 2024 1 1 2024 12 31
              eq_refl eq_refl ltac:(lia) ltac:(lia) ltac:(lia)
              ltac:(lia) ltac:(lia) ltac:(lia))
    as (Hs & He & Hp & _).
  split; [exact Hs|]. split; [exact He|exact Hp].
Defined.

(** At 2023-11-15 07:13:20 in UTC+9, "어제" is the 14th and "오늘" the
    15th. *)
Lemma normalize_relative_date_day_words_witness :
  (~ has_relative_phrase (strip U_eoje) /\
   has_substring U_eoje (strip U_eoje) /\
   _normalize_relative_date world_down U_eoje s_init
   = (Ok (lit "2023.11.14"), clock_read s_init)) /\
  (~ has_relative_phrase (strip U_oneul) /\
   ~ has_substring U_eoje (strip U_oneul) /\
   has_substring U_oneul (strip U_oneul) /\
   _normalize_relative_date world_down U_oneul s_init
   = (Ok (lit "2023.11.15"), clock_read s_init)).
Proof.
  assert (Hn1 : ~ has_relative_phrase (strip U_eoje))
    by (apply no_phrase_by_search; vm_compute; reflexivity).
  assert (Hn2 : ~ has_relative_phrase (strip U_oneul))
    by (apply no_phrase_by_search; vm_compute; reflexivity).
  assert (Hs1 : has_substring U_eoje (strip U_eoje))
    by (exists [], []; vm_compute; reflexivity).
  assert (Hs2 : has_substring U_oneul (strip U_oneul))
    by (exists [], []; vm_compute; reflexivity).
  assert (Hs3 : ~ has_substring U_eoje (strip U_oneul)).
  { intros Hc. apply contains_spec in Hc. vm_compute in Hc. discriminate. }
  assert (Hmax : toordinal (clock world_down (trace s_init) + KST)
                 <= MAXORDINAL) by (vm_compute; discriminate).
  assert (Hmin : MINORDINAL
                 <= toordinal (clock world_down (trace s_init) + KST
                               - US_PER_DAY))
    by (vm_compute; discriminate).
  destruct (normalize_relative_date_day_words world_down U_eoje s_init Hn1)
    as [H1 _].
  destruct (normalize_relative_date_day_words world_down U_oneul s_init Hn2)
    as [_ H2].
  split.
  - split; [exact Hn1|]. split; [exact Hs1|].
    rewrite (H1 Hs1 Hmax Hmin). vm_compute. reflexivity.
  - split; [exact Hn2|]. split; [exact Hs3|]. split; [exact Hs2|].
    rewrite (H2 Hs3 Hs2). vm_compute. reflexivity.
Defined.

(** A million days before 2023 there is no date. *)
Lemma normalize_relative_date_raises_witness :
  first_relative_phrase (strip text_million_days) text_million_days
    (lit "1000000") U_il /\
  int_digits 0 (lit "1000000") = Some 1000000 /\
  within_int_limit (lit "1000000") /\
  toordinal (clock world_down (trace s_init) + KST - 1000000 * unit_us U_il)
  < MINORDINAL /\
  _normalize_relative_date world_down text_million_days s_init
  = (Raise OverflowError, clock_read s_init).
Proof.
  assert (Hp : relative_phrase text_million_days (lit "1000000") U_il).
  { exists [], []. split; [repeat constructor|]. split; [discriminate|].
    split; [constructor|]. split; [right; right; reflexivity|].
    split; [constructor|reflexivity]. }
  assert (Hf : first_relative_phrase (strip text_million_days)
                 text_million_days (lit "1000000") U_il).
  { exists [], []. split; [vm_compute; reflexivity|]. split; [exact Hp|].
    intros. simpl. lia. }
  assert (Hi : int_digits 0 (lit "1000000") = Some 1000000) by reflexivity.
  assert (Hl : within_int_limit (lit "1000000"))
    by (unfold within_int_limit; simpl; lia).
  assert (Hlow : toordinal (clock world_down (trace s_init) + KST
                            - 1000000 * unit_us U_il) < MINORDINAL)
    by (vm_compute; reflexivity).
  destruct (normalize_relative_date_raises world_down text_million_days
              s_init text_million_days (lit "1000000") U_il 1000000 Hf Hi)
    as [_ H2].
  split; [exact Hf|]. split; [exact Hi|]. split; [exact Hl|].
  split; [exact Hlow|]. exact (H2 Hl Hlow).
Defined.

(** The rows of [page_ab] are those of its two cards. *)
Lemma parse_page_rows_of_cards_witness :
  parse_page world_ab (lit "1") s_init = (Ok rows_ab, s_init) /\
  map Title rows_ab = [lit "Title A"; lit "Title B"] /\
  map Link rows_ab = [link_a; link_b].
Proof.
  assert (E : parse_page world_ab (lit "1") s_init = (Ok rows_ab, s_init))
    by (vm_compute; reflexivity).
  destruct (parse_page_rows_of_cards world_ab (lit "1") s_init rows_ab
              s_init E) as (Ht & _ & Hl & _).
  split; [exact E|]. split; [rewrite Ht|rewrite Hl]; vm_compute; reflexivity.
Defined.

(** The page whose card reads "1000000일 전" makes [parse_page] raise. *)
Lemma parse_page_raises_only_witness :
  fst (@parse_page cpython311 (libs_of page_old) world_down [] s_init)
  = Raise OverflowError /\
  (OverflowError = ValueError \/ OverflowError = OverflowError).
Proof.
  assert (E : fst (@parse_page cpython311 (libs_of page_old) world_down []
                     s_init) = Raise OverflowError)
    by (vm_compute; reflexivity).
  split; [exact E|].
  exact (@parse_page_raises_only cpython311 (libs_of page_old) world_down
           [] s_init OverflowError E).
Defined.

(** A card that shows "2024.12.31.": its date is "2024.12.31", with both
    digits of the day, though "2024.12.3" is a date too and starts at the
    same place. *)
Lemma parse_box_absolute_date_witness :
  yields_row card_dec31 = true /\
  dotted_date (lit "2024.12.3") /\
  dotted_date (lit "2024.12.31") /\
  parse_box world_ab card_dec31 s_init
  = (Ok (Some {| Title := lit "Title A"; Date := lit "2024.12.31";
                 Source := lit "n"; Link := link_a |}), s_init) /\
  exists w pre post,
    parse_box world_ab card_dec31 s_init
    = (Ok (Some {| Title := _extract_title_from_card card_dec31;
                   Date := w;
                   Source := _extract_source_from_card card_dec31
                               (card_link card_dec31);
                   Link := card_link card_dec31 |}),
       s_init) /\
    dotted_date w /\
    _clean_text (get_text (leaf (lit "2024.12.31."))) = pre ++ w ++ post /\
    (forall pre' w' post',
       _clean_text (get_text (leaf (lit "2024.12.31.")))
       = pre' ++ w' ++ post' ->
       dotted_date w' -> (length pre <= length pre')%nat) /\
    (forall w' post',
       _clean_text (get_text (leaf (lit "2024.12.31.")))
       = pre ++ w' ++ post' ->
       dotted_date w' -> (length w' <= length w)%nat).
Proof.
  assert (Hy : yields_row card_dec31 = true) by (vm_compute; reflexivity).
  assert (Hd3 : dotted_date (lit "2024.12.3")).
  { exists (lit "2024"), (lit "12"), (lit "3").
    split; [exists 50, 52; split; [reflexivity|repeat constructor]|].
    split; [repeat constructor|]. split; [simpl; lia|].
    split; [repeat constructor|]. split; [simpl; lia|reflexivity]. }
  assert (Hd : dotted_date (lit "2024.12.31")).
  { exists (lit "2024"), (lit "12"), (lit "31").
    split; [exists 50, 52; split; [reflexivity|repeat constructor]|].
    split; [repeat constructor|]. split; [simpl; lia|].
    split; [repeat constructor|]. split; [simpl; lia|reflexivity]. }
  split; [exact Hy|]. split; [exact Hd3|]. split; [exact Hd|].
  split; [vm_compute; reflexivity|].
  apply (parse_box_absolute_date world_ab card_dec31
           (leaf (lit "2024.12.31.")) [] s_init Hy eq_refl).
  exists [], (lit "2024.12.3"), (lit "1."). split; [vm_compute; reflexivity|].
  exact Hd3.
Defined.

(** With a maximum of zero pages nothing is asked for. *)
Lemma crawl_zero_pages_witness :
  max_pages (sample_args (lit "2024.01.01") (lit "2024.12.31") 0) <= 0 /\
  encodable (search_term (sample_args (lit "2024.01.01") (lit "2024.12.31") 0))
  = true /\
  crawl world_ab (sample_args (lit "2024.01.01") (lit "2024.12.31") 0) s_init
  = (Ok (Some ([], [], [], [])),
     {| trace := [ELog (LogMaxPages 0)]; files := ∅ |}).
Proof.
  assert (Hm : max_pages (sample_args (lit "2024.01.01") (lit "2024.12.31") 0)
               <= 0) by (simpl; lia).
  split; [exact Hm|]. split; [reflexivity|].
  exact (crawl_zero_pages world_ab _ s_init Hm eq_refl).
Defined.

(** A crawl of [page_ab] pages, whose server always answers and whose
    waits are of one second, returns. *)
Lemma crawl_returns_normally_witness :
  encodable (search_term args5) = true /\
  bodies_encodable world_ab /\
  waits_accepted world_ab args5 /\
  exists t d so l s',
    @crawl cpython311 (libs_of page_ab) world_ab args5 s_init
    = (Ok (Some (t, d, so, l)), s').
Proof.
  assert (Hw : waits_accepted world_ab args5).
  { intros tr. split; vm_compute; reflexivity. }
  assert (Hb : bodies_encodable world_ab).
  { intros tr url code text E. injection E as _ <-. reflexivity. }
  split; [reflexivity|]. split; [exact Hb|]. split; [exact Hw|].
  apply (@crawl_returns_normally cpython311 (libs_of page_ab) world_ab
           args5 s_init).
  - reflexivity.
  - intros tr url. discriminate.
  - intros tr. reflexivity.
  - exact Hb.
  - exact Hw.
  - intros text s0. eexists _, _. vm_compute. reflexivity.
Defined.

(** The ways of raising, each in a world of its own: a broken transport,
    a page with a date a million days old, a directory that cannot be
    written, waits of three hundred years, negative waits. *)
Lemma crawl_raises_witness :
  page_count init_state + 1 <= max_pages args1 /\
  crawl_loop world_broken 1 args1 init_state s_init
  = (Raise OtherError, requested (page_url args1 1) s_init) /\
  fst (@crawl_loop cpython311 (libs_of page_old) world_ab 1 args1
         init_state s_init) = Raise OverflowError /\
  fst (crawl_loop world_readonly 1 args1 init_state s_init)
  = Raise OSError /\
  crawl_loop world_surrogate 1 args1 init_state s_init
  = (Raise UnicodeEncodeError,
     {| trace := [ELog (LogRequest (page_url args1 1));
                  EGet (page_url args1 1); EOpen "debug_naver.html"];
        files := <["debug_naver.html" := []]> ∅ |}) /\
  (sleep_fits (10000000000 # 1) = false /\
   fst (crawl_loop world_ab 1 patient_args init_state s_init)
   = Raise OverflowError) /\
  (sleep_fits (- 2 # 1) = true /\ Qle_bool 0 (- 2 # 1) = false /\
   fst (crawl_loop world_ab 1 hasty_args init_state s_init)
   = Raise ValueError).
Proof.
  assert (Hle : page_count init_state + 1 <= max_pages args1)
    by (vm_compute; discriminate).
  assert (Hle' : page_count init_state + 1 <= max_pages hasty_args)
    by (vm_compute; discriminate).
  assert (Hle2 : page_count init_state + 1 <= max_pages patient_args)
    by (vm_compute; discriminate).
  destruct (crawl_raises world_broken args1 init_state s_init 0 Hle)
    as (Ha & _).
  destruct (@crawl_raises cpython311 (libs_of page_old) world_ab args1
              init_state s_init 0 Hle) as (_ & Hb & _).
  destruct (crawl_raises world_readonly args1 init_state s_init 0 Hle)
    as (_ & _ & Hc & _).
  destruct (crawl_raises world_surrogate args1 init_state s_init 0 Hle)
    as (_ & _ & _ & Hu & _).
  destruct (crawl_raises world_ab hasty_args init_state s_init 0 Hle')
    as (_ & _ & _ & _ & Hd).
  destruct (crawl_raises world_ab patient_args init_state s_init 0 Hle2)
    as (_ & _ & _ & _ & He).
  assert (Hne : rows_ab <> []) by discriminate.
  assert (Ep : parse_page world_ab (lit "1")
                 (requested (page_url hasty_args (start init_state)) s_init)
               = (Ok rows_ab, requested (page_url hasty_args 1) s_init))
    by (vm_compute; reflexivity).
  assert (Ep2 : parse_page world_ab (lit "1")
                  (requested (page_url patient_args (start init_state))
                             s_init)
                = (Ok rows_ab, requested (page_url patient_args 1) s_init))
    by (vm_compute; reflexivity).
  destruct (Hd (lit "1") rows_ab _ eq_refl Ep Hne) as [_ Hneg].
  destruct (He (lit "1") rows_ab _ eq_refl Ep2 Hne) as [Hov _].
  split; [exact Hle|]. split; [exact (Ha eq_refl)|].
  split; [|split; [|split; [|split; [split|split; [|split]]]]].
  - erewrite (Hb (lit "1") OverflowError); [reflexivity|reflexivity|].
    vm_compute. reflexivity.
  - erewrite (Hc (lit "0")); [reflexivity|reflexivity| |reflexivity].
    vm_compute. reflexivity.
  - assert (Eu : parse_page world_surrogate [55296]
                   (requested (page_url args1 (start init_state)) s_init)
                 = (Ok [], requested (page_url args1 1) s_init))
      by (vm_compute; reflexivity).
    rewrite (Hu [55296] _ eq_refl Eu eq_refl eq_refl). reflexivity.
  - vm_compute. reflexivity.
  - rewrite Hov by (vm_compute; reflexivity). reflexivity.
  - vm_compute. reflexivity.
  - vm_compute. reflexivity.
  - rewrite Hneg by (vm_compute; reflexivity). reflexivity.
Defined.

(** The form with the default dates, when every page is [page_ab]: the
    two records with the table, the download and the note; without an
    engine for [to_excel], the two records with the table, and the
    exception. *)
Lemma streamlit_main_outcomes_witness :
  st_installed sample_form = true /\
  (exists evs,
     trace (snd (streamlit_main world_ab sample_form s_init))
     = trace s_init ++ evs /\
     ui_messages evs
     = [UiForm; UiSuccess 2; UiTable; UiDownload; UiSaved] /\
     ui_outcome (ui_messages evs)) /\
  (exists evs,
     trace (snd (@streamlit_main cpython311 libs_no_excel world_ab
                   sample_form s_init))
     = trace s_init ++ evs /\
     ui_messages evs = [UiForm; UiSuccess 2; UiTable] /\
     ~ ui_outcome (ui_messages evs) /\
     fst (@streamlit_main cpython311 libs_no_excel world_ab sample_form
            s_init) = Raise OtherError).
Proof.
  split; [reflexivity|].
  destruct (streamlit_main_outcomes world_ab sample_form s_init eq_refl)
    as (evs & Et & Ho & _).
  destruct (@streamlit_main_outcomes cpython311 libs_no_excel world_ab
              sample_form s_init eq_refl) as (evs' & Et' & Ho' & _).
  assert (Em : ui_messages evs
               = [UiForm; UiSuccess 2; UiTable; UiDownload; UiSaved]).
  { simpl in Et. rewrite <- Et. vm_compute. reflexivity. }
  assert (Em' : ui_messages evs' = [UiForm; UiSuccess 2; UiTable]).
  { simpl in Et'. rewrite <- Et'. vm_compute. reflexivity. }
  assert (Hno : ~ ui_outcome (ui_messages evs')).
  { rewrite Em'.
    intros [E|[E|[E|[E|(n & tail & _ & E & _)]]]]; discriminate. }
  split.
  - exists evs. split; [exact Et|]. split; [exact Em|].
    destruct Ho as [Ho|(df & e & _ & _ & E & _)]; [exact Ho|].
    rewrite Em in E. discriminate.
  - exists evs'. split; [exact Et'|]. split; [exact Em'|].
    split; [exact Hno|].
    destruct Ho' as [Ho'|(df & e & _ & _ & _ & E)]; [contradiction|].
    vm_compute. reflexivity.
Defined.

(** The frame of a crawl of one page [page_ab] has its two rows. *)
Lemma build_dataframe_of_crawl_witness :
  crawl world_ab args1 s_init
  = (Ok (Some (map Title rows_ab, map Date rows_ab, map Source rows_ab,
               map Link rows_ab)),
     snd (crawl world_ab args1 s_init)) /\
  exists recs,
    build_dataframe (map Title rows_ab) (map Date rows_ab)
                    (map Source rows_ab) (map Link rows_ab) = Ok recs /\
    map Title recs = map Title rows_ab /\ map Date recs = map Date rows_ab /\
    map Source recs = map Source rows_ab /\
    map Link recs = map Link rows_ab /\
    length recs = length (map Link rows_ab) /\ NoDup (map Link recs).
Proof.
  assert (E : crawl world_ab args1 s_init
              = (Ok (Some (map Title rows_ab, map Date rows_ab,
                           map Source rows_ab, map Link rows_ab)),
                 snd (crawl world_ab args1 s_init)))
    by (vm_compute; reflexivity).
  split; [exact E|].
  exact (build_dataframe_of_crawl world_ab args1 s_init _ _ _ _ _ E).
Defined.

(** A search term that is one high surrogate: [crawl] raises at once, and
    [streamlit_main] shows the crawl error. *)
Lemma crawl_unencodable_term_witness :
  (55296 ∈ search_term (form_args surrogate_form) /\
   55296 <= 55296 <= 57343 /\
   encodable (search_term (form_args surrogate_form)) = false) /\
  crawl world_ab (form_args surrogate_form) s_init
  = (Raise UnicodeEncodeError, s_init) /\
  streamlit_main world_ab surrogate_form s_init
  = (Ok tt, {| trace := [EUi UiForm; EUi UiCrawlError]; files := ∅ |}).
Proof.
  assert (Hin : 55296 ∈ search_term (form_args surrogate_form))
    by (apply list_elem_of_here).
  assert (Hin' : 55296 ∈ f_search_term surrogate_form)
    by (apply list_elem_of_here).
  assert (Hr : 55296 <= 55296 <= 57343) by lia.
  destruct (crawl_unencodable_term world_ab (form_args surrogate_form)
              surrogate_form s_init) as [H1 H2].
  split; [split; [exact Hin|split; [exact Hr|reflexivity]]|].
  split; [exact (H1 55296 Hin Hr)|].
  exact (H2 55296 Hin' Hr eq_refl eq_refl eq_refl).
Defined.
